(** * Progressive multiframe supersampling: a model of [src/multiframe.ts]

    The [Multiframe] class accumulates jittered renders of one scene and
    resolves the accumulated value into a presentable texture.  This file
    embeds the class in Rocq and settles the properties its specification
    states.

    Conventions of the embedding.
    - A JavaScript [number] that holds a real quantity (matrix entries, sample
      offsets, shader uniforms, the blend constant) is a mathematical real [R]:
      rounding of IEEE doubles is outside the model.  Counters and pixel
      dimensions are [nat].
    - The objects the class shares with its host (the graphics device, the
      camera) and the class instance itself live in one [World]; every method
      is a computation in the monad [M], which threads the world and collects
      the commands sent to the GPU, in order.
    - A nullable reference is an [option].
    - The engine the class drives is a library outside the repository.  Its
      methods the class calls are modelled as the engine implements them:
      the device caches the blend function it was given, and the quad
      primitive disables blending unless told to leave it alone.  The BLEND
      enable bit, which the class never reads, belongs to the GPU state on
      which the recorded quads are executed. *)

From Stdlib Require Import Reals Lra Lia List Bool Arith ZArith.
From Stdlib Require Import Sorting.Sorted Sorting.Permutation.
Import ListNotations.

Set Implicit Arguments.
Open Scope R_scope.

(* ================================================================= *)
(** ** Values exchanged with the engine *)

(** [pc.Vec2]: a pair of numbers; [length()] is the Euclidean norm. *)
Record Vec2 : Type := mkVec2 { vx : R; vy : R }.

Definition Vec2_length (v : Vec2) : R :=
  sqrt (vx v * vx v + vy v * vy v).

(** The three pixel formats [choosePixelFormat] may answer. *)
Inductive PixelFormat : Type :=
| PIXELFORMAT_R8_G8_B8_A8
| PIXELFORMAT_RGBA16F
| PIXELFORMAT_RGBA32F.

(** A texture object: its identity and the options it was created with. *)
Record Texture : Type := mkTexture {
  tex_id : nat;
  tex_width : nat;
  tex_height : nat;
  tex_format : PixelFormat;
  tex_mipmaps : bool
}.

(** A render target refers to the texture it draws into. *)
Record RenderTarget : Type := mkRenderTarget {
  rt_id : nat;
  colorBuffer : Texture;
  rt_depth : bool
}.

(** Blend factors, as WebGL names them. *)
Inductive BlendFactor : Type :=
| ZERO | ONE
| SRC_COLOR | ONE_MINUS_SRC_COLOR
| DST_COLOR | ONE_MINUS_DST_COLOR
| SRC_ALPHA | ONE_MINUS_SRC_ALPHA
| DST_ALPHA | ONE_MINUS_DST_ALPHA
| CONSTANT_COLOR | ONE_MINUS_CONSTANT_COLOR
| CONSTANT_ALPHA | ONE_MINUS_CONSTANT_ALPHA
| SRC_ALPHA_SATURATE.

(** The four factors of a separate blend function. *)
Record BlendFunc : Type := mkBlendFunc {
  srcRGB : BlendFactor;
  dstRGB : BlendFactor;
  srcAlpha : BlendFactor;
  dstAlpha : BlendFactor
}.

Record Color4 : Type := mkColor4 { cr : R; cg : R; cb : R; ca : R }.

(** The part of the WebGL context the class drives directly through
    [device.gl]: the blend function and the constant blend colour. *)
Record WebGL : Type := mkWebGL {
  gl_blendFunc : BlendFunc;
  gl_blendColor : Color4
}.

(** The uniforms the class resolves from [device.scope]. *)
Record Scope : Type := mkScope {
  texture_multiframeSource : option Texture;
  multiplier : R;
  power : R;
  globalTextureBias : R
}.

(** [pc.GraphicsDevice], restricted to what the class reads and writes
    and to what the device methods it calls consult.  [blendSrc] ..
    [blendDstAlpha] are the device's own record of the blend function, and
    [separateAlphaBlend] says whether the function on record was set as a
    separate one; [setBlendFunctionSeparate] consults and maintains
    them.  The context [gl] is reachable behind the device's back. *)
Record GraphicsDevice : Type := mkDevice {
  width : nat;
  height : nat;
  extTextureHalfFloat : bool;
  textureHalfFloatRenderable : bool;
  extTextureFloat : bool;
  textureFloatRenderable : bool;
  blendSrc : BlendFactor;
  blendDst : BlendFactor;
  blendSrcAlpha : BlendFactor;
  blendDstAlpha : BlendFactor;
  separateAlphaBlend : bool;
  gl : WebGL;
  scope : Scope
}.

(** [pc.CameraComponent]: the scene render target, the projection matrix
    ([projectionMatrix.data], sixteen numbers) and the two dirty flags. *)
Record Camera : Type := mkCamera {
  renderTarget : option RenderTarget;
  projectionMatrix : list R;
  viewMatDirty : bool;
  viewProjMatDirty : bool
}.

(** One full-screen quad drawn with the multiframe shader: where it goes,
    the [useBlend] flag it is drawn with, and the uniforms and the blend
    function and constant the GPU reads when it executes. *)
Record Quad : Type := mkQuad {
  target : option RenderTarget;
  useBlend : bool;
  q_source : option Texture;
  q_multiplier : R;
  q_power : R;
  q_gl : WebGL
}.

(** The commands a method sends to the device. *)
Inductive Call : Type :=
| TextureCreate (t : Texture)
| RenderTargetCreate (rt : RenderTarget)
| TextureDestroy (t : Texture)
| RenderTargetDestroy (rt : RenderTarget)
| GlBlendFuncSeparate (f : BlendFunc)
| GlBlendColor (c : Color4)
| SetBlendFunctionSeparate (f : BlendFunc)
| DrawQuadWithShader (q : Quad).

(* ================================================================= *)
(** ** The class state *)

Record Multiframe : Type := mkMultiframe {
  pixelFormat : PixelFormat;
  firstTexture : option Texture;
  firstRenderTarget : option RenderTarget;
  accumTexture : option Texture;
  accumRenderTarget : option RenderTarget;
  sampleId : nat;
  samples : list Vec2;
  (** [store]: the [pc.Vec2] the two render hooks close over. *)
  store : Vec2
}.

(** Everything a method can reach: the instance, the device and the camera
    it was constructed with, and the next unused object identity. *)
Record World : Type := mkWorld {
  this : Multiframe;
  device : GraphicsDevice;
  camera : Camera;
  fresh : nat
}.

(* ----------------------------------------------------------------- *)
(** *** Field updates *)

Definition set_firstTexture (v : option Texture) (m : Multiframe) : Multiframe :=
  mkMultiframe (pixelFormat m) v (firstRenderTarget m) (accumTexture m)
    (accumRenderTarget m) (sampleId m) (samples m) (store m).

Definition set_firstRenderTarget (v : option RenderTarget) (m : Multiframe) : Multiframe :=
  mkMultiframe (pixelFormat m) (firstTexture m) v (accumTexture m)
    (accumRenderTarget m) (sampleId m) (samples m) (store m).

Definition set_accumTexture (v : option Texture) (m : Multiframe) : Multiframe :=
  mkMultiframe (pixelFormat m) (firstTexture m) (firstRenderTarget m) v
    (accumRenderTarget m) (sampleId m) (samples m) (store m).

Definition set_accumRenderTarget (v : option RenderTarget) (m : Multiframe) : Multiframe :=
  mkMultiframe (pixelFormat m) (firstTexture m) (firstRenderTarget m) (accumTexture m)
    v (sampleId m) (samples m) (store m).

Definition set_sampleId (v : nat) (m : Multiframe) : Multiframe :=
  mkMultiframe (pixelFormat m) (firstTexture m) (firstRenderTarget m) (accumTexture m)
    (accumRenderTarget m) v (samples m) (store m).

Definition set_store (v : Vec2) (m : Multiframe) : Multiframe :=
  mkMultiframe (pixelFormat m) (firstTexture m) (firstRenderTarget m) (accumTexture m)
    (accumRenderTarget m) (sampleId m) (samples m) v.

Definition set_scope (s : Scope) (d : GraphicsDevice) : GraphicsDevice :=
  mkDevice (width d) (height d) (extTextureHalfFloat d) (textureHalfFloatRenderable d)
    (extTextureFloat d) (textureFloatRenderable d)
    (blendSrc d) (blendDst d) (blendSrcAlpha d) (blendDstAlpha d)
    (separateAlphaBlend d) (gl d) s.

Definition set_gl (g : WebGL) (d : GraphicsDevice) : GraphicsDevice :=
  mkDevice (width d) (height d) (extTextureHalfFloat d) (textureHalfFloatRenderable d)
    (extTextureFloat d) (textureFloatRenderable d)
    (blendSrc d) (blendDst d) (blendSrcAlpha d) (blendDstAlpha d)
    (separateAlphaBlend d) g (scope d).

Definition set_blend (f : BlendFunc) (d : GraphicsDevice) : GraphicsDevice :=
  mkDevice (width d) (height d) (extTextureHalfFloat d) (textureHalfFloatRenderable d)
    (extTextureFloat d) (textureFloatRenderable d)
    (srcRGB f) (dstRGB f) (srcAlpha f) (dstAlpha f)
    (separateAlphaBlend d) (gl d) (scope d).

Definition set_separateAlphaBlend (b : bool) (d : GraphicsDevice) : GraphicsDevice :=
  mkDevice (width d) (height d) (extTextureHalfFloat d) (textureHalfFloatRenderable d)
    (extTextureFloat d) (textureFloatRenderable d)
    (blendSrc d) (blendDst d) (blendSrcAlpha d) (blendDstAlpha d)
    b (gl d) (scope d).

Definition set_size (w h : nat) (d : GraphicsDevice) : GraphicsDevice :=
  mkDevice w h (extTextureHalfFloat d) (textureHalfFloatRenderable d)
    (extTextureFloat d) (textureFloatRenderable d)
    (blendSrc d) (blendDst d) (blendSrcAlpha d) (blendDstAlpha d)
    (separateAlphaBlend d) (gl d) (scope d).

Definition set_projectionMatrix (p : list R) (c : Camera) : Camera :=
  mkCamera (renderTarget c) p (viewMatDirty c) (viewProjMatDirty c).

Definition set_dirty (c : Camera) : Camera :=
  mkCamera (renderTarget c) (projectionMatrix c) true true.

(** [data[i] = v] on the matrix storage; an index past the end writes
    nothing. *)
Fixpoint data_set (i : nat) (v : R) (data : list R) : list R :=
  match data, i with
  | [], _ => []
  | _ :: rest, O => v :: rest
  | x :: rest, S j => x :: data_set j v rest
  end.

(** [data[i]] read as a number. *)
Definition data_get (i : nat) (data : list R) : R := nth i data 0%R.

(* ================================================================= *)
(** ** The monad of methods *)

(** What running a method leaves behind: its return value, the world after
    it, and the device commands it issued, oldest first. *)
Record Run (A : Type) : Type := mkRun {
  value : A;
  after : World;
  calls : list Call
}.

Definition M (A : Type) : Type := World -> Run A.

Definition ret {A : Type} (a : A) : M A :=
  fun w => mkRun a w [].

Definition bind {A B : Type} (m : M A) (k : A -> M B) : M B :=
  fun w =>
    let (a, w1, cs1) := m w in
    let (b, w2, cs2) := k a w1 in
    mkRun b w2 (cs1 ++ cs2).

Declare Scope method_scope.
Delimit Scope method_scope with method.
Notation "x <- m ;; k" := (bind m (fun x => k))
  (at level 61, m at next level, right associativity) : method_scope.
Notation "m ;; k" := (bind m (fun _ => k))
  (at level 61, right associativity) : method_scope.
Open Scope method_scope.

Definition getThis : M Multiframe := fun w => mkRun (this w) w [].
Definition getDevice : M GraphicsDevice := fun w => mkRun (device w) w [].
Definition getCamera : M Camera := fun w => mkRun (camera w) w [].

Definition modifyThis (f : Multiframe -> Multiframe) : M unit :=
  fun w => mkRun tt (mkWorld (f (this w)) (device w) (camera w) (fresh w)) [].

Definition modifyDevice (f : GraphicsDevice -> GraphicsDevice) : M unit :=
  fun w => mkRun tt (mkWorld (this w) (f (device w)) (camera w) (fresh w)) [].

Definition modifyCamera (f : Camera -> Camera) : M unit :=
  fun w => mkRun tt (mkWorld (this w) (device w) (f (camera w)) (fresh w)) [].

Definition emit (c : Call) : M unit :=
  fun w => mkRun tt w [c].

(** Identity of the next object built with [new]. *)
Definition newId : M nat :=
  fun w => mkRun (fresh w) (mkWorld (this w) (device w) (camera w) (S (fresh w))) [].

Definition when (b : bool) (m : M unit) : M unit :=
  if b then m else ret tt.

(* ================================================================= *)
(** ** The engine's interface, as the class uses it *)

(** [ScopeId.setValue] on each of the four uniforms. *)
Definition setSource (t : option Texture) : M unit :=
  modifyDevice (fun d =>
    set_scope (mkScope t (multiplier (scope d)) (power (scope d))
                 (globalTextureBias (scope d))) d).

Definition setMultiplier (x : R) : M unit :=
  modifyDevice (fun d =>
    set_scope (mkScope (texture_multiframeSource (scope d)) x (power (scope d))
                 (globalTextureBias (scope d))) d).

Definition setPower (x : R) : M unit :=
  modifyDevice (fun d =>
    set_scope (mkScope (texture_multiframeSource (scope d)) (multiplier (scope d)) x
                 (globalTextureBias (scope d))) d).

Definition setBias (x : R) : M unit :=
  modifyDevice (fun d =>
    set_scope (mkScope (texture_multiframeSource (scope d)) (multiplier (scope d))
                 (power (scope d)) x) d).

(** [pc.drawQuadWithShader(device, target, shader, null, null, useBlend)]:
    one quad, executed with the uniforms and the blend function and
    constant current at the call.  A null target is the back buffer.
    The flag tells the engine's primitive whether to leave blending as
    it is ([true]) or to disable it before drawing ([false], the
    default); the primitive never enables blending.  The enable bit
    itself belongs to the GPU state the quad is executed on ([Gpu],
    below). *)
Definition drawQuadWithShader (tgt : option RenderTarget) (blend : bool) : M unit :=
  d <- getDevice ;;
  emit (DrawQuadWithShader
          (mkQuad tgt blend (texture_multiframeSource (scope d))
             (multiplier (scope d)) (power (scope d)) (gl d))).

(** [gl.blendFuncSeparate] and [gl.blendColor] act on the WebGL context
    only; the device's own record of the blend function is not told. *)
Definition blendFuncSeparate (f : BlendFunc) : M unit :=
  emit (GlBlendFuncSeparate f) ;;
  modifyDevice (fun d => set_gl (mkWebGL f (gl_blendColor (gl d))) d).

Definition blendColor (c : Color4) : M unit :=
  emit (GlBlendColor c) ;;
  modifyDevice (fun d => set_gl (mkWebGL (gl_blendFunc (gl d)) c) d).

(** Blend factors are numeric constants in the engine, compared with
    [!==]. *)
Definition factorCode (f : BlendFactor) : nat :=
  match f with
  | ZERO => 0
  | ONE => 1
  | SRC_COLOR => 2
  | ONE_MINUS_SRC_COLOR => 3
  | DST_COLOR => 4
  | ONE_MINUS_DST_COLOR => 5
  | SRC_ALPHA => 6
  | SRC_ALPHA_SATURATE => 7
  | ONE_MINUS_SRC_ALPHA => 8
  | DST_ALPHA => 9
  | ONE_MINUS_DST_ALPHA => 10
  | CONSTANT_COLOR => 11
  | ONE_MINUS_CONSTANT_COLOR => 12
  | CONSTANT_ALPHA => 13
  | ONE_MINUS_CONSTANT_ALPHA => 14
  end%nat.

Definition BlendFactor_eqb (a b : BlendFactor) : bool :=
  (factorCode a =? factorCode b)%nat.

(** Whether the four factors [f] are the ones on the device's record. *)
Definition onRecord (f : BlendFunc) (d : GraphicsDevice) : bool :=
  BlendFactor_eqb (blendSrc d) (srcRGB f)
  && BlendFactor_eqb (blendDst d) (dstRGB f)
  && BlendFactor_eqb (blendSrcAlpha d) (srcAlpha f)
  && BlendFactor_eqb (blendDstAlpha d) (dstAlpha f).

(** [device.setBlendFunctionSeparate], as the engine implements it: the
    device caches the blend function.  When the four arguments are the
    ones on record and the function on record is a separate one, the
    call reaches neither the context nor the record; otherwise it sets
    the function on the context, records it and marks it separate.  The
    method does not look at the context, so a function set through
    [device.gl] goes unnoticed. *)
Definition setBlendFunctionSeparate (f : BlendFunc) : M unit :=
  emit (SetBlendFunctionSeparate f) ;;
  modifyDevice (fun d =>
    if onRecord f d && separateAlphaBlend d then d
    else set_separateAlphaBlend true
           (set_blend f (set_gl (mkWebGL f (gl_blendColor (gl d))) d))).

(* ================================================================= *)
(** ** Module-level constants and helpers *)

Definition gamma : R := 2.2%R.

Definition supportsFloat16 (d : GraphicsDevice) : bool :=
  extTextureHalfFloat d && textureHalfFloatRenderable d.

Definition supportsFloat32 (d : GraphicsDevice) : bool :=
  extTextureFloat d && textureFloatRenderable d.

Definition choosePixelFormat (d : GraphicsDevice) : PixelFormat :=
  if supportsFloat16 d then PIXELFORMAT_RGBA16F
  else if supportsFloat32 d then PIXELFORMAT_RGBA32F
  else PIXELFORMAT_R8_G8_B8_A8.

(** The fragment shader [fshader]: one colour channel and the alpha it
    writes.  [glpow] is the GLSL builtin [pow]. *)
Definition fshader (glpow : R -> R -> R) (t mult pw : R) : R * R :=
  (glpow (t * mult) pw, 1%R).

(* ================================================================= *)
(** ** The constructor: sample generation and ordering *)

(** The comparator handed to [Array.prototype.sort]. *)
Definition compareFn (a b : Vec2) : Z :=
  let aL := Vec2_length a in
  let bL := Vec2_length b in
  if Rlt_dec aL bL then (-1)%Z else if Rlt_dec bL aL then 1%Z else 0%Z.

(** [Array.prototype.sort(cmp)]: a stable sort.  Each element is placed
    before the first later element it does not compare greater than. *)
Fixpoint insert {A : Type} (cmp : A -> A -> Z) (a : A) (l : list A) : list A :=
  match l with
  | [] => [a]
  | b :: rest =>
      if (cmp a b <=? 0)%Z then a :: b :: rest
      else b :: insert cmp a rest
  end.

Definition Array_sort {A : Type} (cmp : A -> A -> Z) (l : list A) : list A :=
  fold_right (insert cmp) [] l.

Section Constructor.

(** [random i] is what the [i]-th call of [Math.random()] returns. *)
Variable random : nat -> R.

(** The body of the inner loop: two draws, one sample pushed.  The state
    is the number of draws made so far and the array built so far. *)
Definition pushSample (numSamples x : nat) (st : nat * list Vec2) (y : nat)
  : nat * list Vec2 :=
  let '(n, acc) := st in
  (S (S n),
   acc ++ [mkVec2 ((INR x + random n) / INR numSamples * 2 - 1)
                  ((INR y + random (S n)) / INR numSamples * 2 - 1)]).

(** [for (let x = 0; x < numSamples; ++x) for (let y = 0; ...)]. *)
Definition generateSamples (numSamples : nat) : list Vec2 :=
  snd (fold_left
         (fun st x => fold_left (pushSample numSamples x) (seq 0 numSamples) st)
         (seq 0 numSamples) (0%nat, [])).

(** The instance as the constructor leaves it.  Compiling the shader,
    resolving the uniforms and registering the two hooks and the
    device-loss handler (which calls [destroy]) leave nothing else the
    methods read. *)
Definition constructor (d : GraphicsDevice) (numSamples : nat) : Multiframe :=
  mkMultiframe (choosePixelFormat d) None None None None 0
    (Array_sort compareFn (generateSamples numSamples))
    (mkVec2 0 0).

End Constructor.

(* ================================================================= *)
(** ** The render hooks *)

(** How a hook ends: normally, or with the [TypeError] of reading a
    property of [undefined]. *)
Inductive Completion : Type := Normal | TypeError.

(** [camera.onPreRender].  The sample is looked up first; [store] is
    written before the sample is first dereferenced. *)
Definition onPreRender : M Completion :=
  m <- getThis ;;
  d <- getDevice ;;
  c <- getCamera ;;
  let sample := nth_error (samples m) (sampleId m) in
  let pmat := projectionMatrix c in
  modifyThis (set_store (mkVec2 (data_get 12 pmat) (data_get 13 pmat))) ;;
  match sample with
  | None => ret TypeError
  | Some s =>
      modifyCamera (fun c =>
        set_projectionMatrix
          (data_set 8 (data_get 8 (projectionMatrix c) + vx s / INR (width d))
             (projectionMatrix c)) c) ;;
      modifyCamera (fun c =>
        set_projectionMatrix
          (data_set 9 (data_get 9 (projectionMatrix c) + vy s / INR (height d))
             (projectionMatrix c)) c) ;;
      modifyCamera set_dirty ;;
      setBias (if (sampleId m =? 0)%nat then 0.0%R else (-5.0)%R) ;;
      ret Normal
  end.

(** [camera.onPostRender]. *)
Definition onPostRender : M unit :=
  m <- getThis ;;
  modifyCamera (fun c =>
    set_projectionMatrix (data_set 8 (vx (store m)) (projectionMatrix c)) c) ;;
  modifyCamera (fun c =>
    set_projectionMatrix (data_set 9 (vy (store m)) (projectionMatrix c)) c).

(** One scene render as the camera performs it: the pre-render hook, the
    render itself (which leaves the matrix and the instance alone), the
    post-render hook.  A throwing pre-render hook aborts the render. *)
Definition renderScene : M Completion :=
  r <- onPreRender ;;
  match r with
  | TypeError => ret TypeError
  | Normal => onPostRender ;; ret Normal
  end.

(* ================================================================= *)
(** ** Resources *)

(** [destroy()]: four guarded releases, in the order of the source. *)
Definition destroy : M unit :=
  (m <- getThis ;;
   match firstTexture m with
   | Some t => emit (TextureDestroy t) ;; modifyThis (set_firstTexture None)
   | None => ret tt
   end) ;;
  (m <- getThis ;;
   match firstRenderTarget m with
   | Some rt => emit (RenderTargetDestroy rt) ;; modifyThis (set_firstRenderTarget None)
   | None => ret tt
   end) ;;
  (m <- getThis ;;
   match accumRenderTarget m with
   | Some rt => emit (RenderTargetDestroy rt) ;; modifyThis (set_accumRenderTarget None)
   | None => ret tt
   end) ;;
  (m <- getThis ;;
   match accumTexture m with
   | Some t => emit (TextureDestroy t) ;; modifyThis (set_accumTexture None)
   | None => ret tt
   end).

(** [moved()]. *)
Definition moved : M unit :=
  modifyThis (set_sampleId 0).

(** [new pc.Texture(device, {width, height, format, mipmaps: false})]. *)
Definition newTexture (w h : nat) (f : PixelFormat) : M Texture :=
  i <- newId ;;
  let t := mkTexture i w h f false in
  emit (TextureCreate t) ;;
  ret t.

(** [new pc.RenderTarget({colorBuffer, depth: false})]. *)
Definition newRenderTarget (t : Texture) : M RenderTarget :=
  i <- newId ;;
  let rt := mkRenderTarget i t false in
  emit (RenderTargetCreate rt) ;;
  ret rt.

(** [create()].  The first texture names no format and gets the engine's
    default, 8-bit RGBA. *)
Definition create : M unit :=
  d <- getDevice ;;
  m <- getThis ;;
  t1 <- newTexture (width d) (height d) PIXELFORMAT_R8_G8_B8_A8 ;;
  modifyThis (set_firstTexture (Some t1)) ;;
  rt1 <- newRenderTarget t1 ;;
  modifyThis (set_firstRenderTarget (Some rt1)) ;;
  t2 <- newTexture (width d) (height d) (pixelFormat m) ;;
  modifyThis (set_accumTexture (Some t2)) ;;
  rt2 <- newRenderTarget t2 ;;
  modifyThis (set_accumRenderTarget (Some rt2)).

(* ================================================================= *)
(** ** [prepareTexture()], the per-frame step *)

(** The blend function and constant the accumulation pass installs. *)
Definition accumBlendFunc : BlendFunc :=
  mkBlendFunc CONSTANT_ALPHA ONE_MINUS_CONSTANT_ALPHA ONE ZERO.

Definition blendAlpha (sampleId : nat) : R :=
  (1.0 / (INR sampleId + 1))%R.

(** The blend function and constant of the context once both calls are
    made. *)
Definition accumGL (sampleId : nat) : WebGL :=
  mkWebGL accumBlendFunc (mkColor4 0 0 0 (blendAlpha sampleId)).

(** Lines 186-192: drop textures of the wrong size, then make sure there
    are textures. *)
Definition staleSize (m : Multiframe) (d : GraphicsDevice) : bool :=
  match accumTexture m with
  | Some t => negb (tex_width t =? width d)%nat || negb (tex_height t =? height d)%nat
  | None => false
  end.

Definition ensureTextures : M unit :=
  (m <- getThis ;; d <- getDevice ;; when (staleSize m d) destroy) ;;
  (m <- getThis ;;
   match accumTexture m with
   | None => create
   | Some _ => ret tt
   end).

(** Lines 200-208: the first sample goes to both buffers. *)
Definition storeFirst (sourceTex : Texture) : M unit :=
  m <- getThis ;;
  setSource (Some sourceTex) ;;
  setMultiplier 1.0 ;;
  setPower gamma ;;
  drawQuadWithShader (accumRenderTarget m) true ;;
  setPower 1.0 ;;
  drawQuadWithShader (firstRenderTarget m) true.

(** Lines 210-234: a later sample is blended into the accumulation
    buffer; the last one is then resolved into the first texture. *)
Definition blendNext (sourceTex : Texture) (sampleCnt : nat) : M unit :=
  m <- getThis ;;
  d <- getDevice ;;
  let saved := mkBlendFunc (blendSrc d) (blendDst d) (blendSrcAlpha d) (blendDstAlpha d) in
  blendFuncSeparate accumBlendFunc ;;
  blendColor (mkColor4 0 0 0 (blendAlpha (sampleId m))) ;;
  setSource (Some sourceTex) ;;
  setMultiplier 1.0 ;;
  setPower gamma ;;
  drawQuadWithShader (accumRenderTarget m) true ;;
  setBlendFunctionSeparate saved ;;
  when (Z.of_nat (sampleId m) =? Z.of_nat sampleCnt - 1)%Z
    (setSource (accumTexture m) ;;
     setMultiplier 1.0 ;;
     setPower (1.0 / gamma) ;;
     drawQuadWithShader (firstRenderTarget m) false).

(** Lines 196-236. *)
Definition accumulate (sampleCnt : nat) : M unit :=
  m <- getThis ;;
  c <- getCamera ;;
  match renderTarget c with
  | Some rt =>
      if (sampleId m <? sampleCnt)%nat then
        let sourceTex := colorBuffer rt in
        if (sampleId m =? 0)%nat then storeFirst sourceTex
        else blendNext sourceTex sampleCnt
      else ret tt
  | None => ret tt
  end.

(** Lines 238-242: the first texture replaces the back buffer. *)
Definition present : M unit :=
  m <- getThis ;;
  setSource (firstTexture m) ;;
  setMultiplier 1.0 ;;
  setPower 1.0 ;;
  drawQuadWithShader None false.

(** [prepareTexture()] (lines 183-249): the four phases in order.  The
    value returned says whether samples remain. *)
Definition prepareTexture : M bool :=
  ensureTextures ;;
  m <- getThis ;;
  let sampleCnt := length (samples m) in
  accumulate sampleCnt ;;
  present ;;
  (m <- getThis ;;
   when (sampleId m <? sampleCnt)%nat (modifyThis (set_sampleId (S (sampleId m))))) ;;
  m <- getThis ;;
  ret (sampleId m <? sampleCnt)%nat.

(* ================================================================= *)
(** ** The quads a step draws *)

(** The accumulation pass, the first-sample copy, the resolve pass and
    the copy to the back buffer, each as a function of the instance, the
    scene texture and the context state it is drawn under. *)
Definition accumQuad (m : Multiframe) (src : Texture) (g : WebGL) : Quad :=
  mkQuad (accumRenderTarget m) true (Some src) 1.0 gamma g.

Definition firstQuad (m : Multiframe) (src : Texture) (g : WebGL) : Quad :=
  mkQuad (firstRenderTarget m) true (Some src) 1.0 1.0 g.

Definition resolveQuad (m : Multiframe) (g : WebGL) : Quad :=
  mkQuad (firstRenderTarget m) false (accumTexture m) 1.0 (1.0 / gamma) g.

Definition presentQuad (m : Multiframe) (g : WebGL) : Quad :=
  mkQuad None false (firstTexture m) 1.0 1.0 g.

(* ================================================================= *)
(** ** What the GPU does with an accumulation quad *)

(** One colour channel of a pixel, and its alpha. *)
Record Pixel : Type := mkPixel { rgb : R; alpha : R }.

(** Value of a blend factor for the colour channel (WebGL, equation
    FUNC_ADD): [s] is the incoming fragment, [d] the pixel in the target,
    [c] the constant blend colour. *)
Definition factorRGB (f : BlendFactor) (c : Color4) (s d : Pixel) : R :=
  match f with
  | ZERO => 0
  | ONE => 1
  | SRC_COLOR => rgb s
  | ONE_MINUS_SRC_COLOR => 1 - rgb s
  | DST_COLOR => rgb d
  | ONE_MINUS_DST_COLOR => 1 - rgb d
  | SRC_ALPHA => alpha s
  | ONE_MINUS_SRC_ALPHA => 1 - alpha s
  | DST_ALPHA => alpha d
  | ONE_MINUS_DST_ALPHA => 1 - alpha d
  | CONSTANT_COLOR => cr c
  | ONE_MINUS_CONSTANT_COLOR => 1 - cr c
  | CONSTANT_ALPHA => ca c
  | ONE_MINUS_CONSTANT_ALPHA => 1 - ca c
  | SRC_ALPHA_SATURATE => Rmin (alpha s) (1 - alpha d)
  end.

(** The same for the alpha channel. *)
Definition factorAlpha (f : BlendFactor) (c : Color4) (s d : Pixel) : R :=
  match f with
  | ZERO => 0
  | ONE => 1
  | SRC_COLOR | SRC_ALPHA => alpha s
  | ONE_MINUS_SRC_COLOR | ONE_MINUS_SRC_ALPHA => 1 - alpha s
  | DST_COLOR | DST_ALPHA => alpha d
  | ONE_MINUS_DST_COLOR | ONE_MINUS_DST_ALPHA => 1 - alpha d
  | CONSTANT_COLOR | CONSTANT_ALPHA => ca c
  | ONE_MINUS_CONSTANT_COLOR | ONE_MINUS_CONSTANT_ALPHA => 1 - ca c
  | SRC_ALPHA_SATURATE => 1
  end.

(** The blend stage: fragment [s] over target pixel [d]. *)
Definition blendPixel (g : WebGL) (s d : Pixel) : Pixel :=
  let f := gl_blendFunc g in
  let c := gl_blendColor g in
  mkPixel (rgb s * factorRGB (srcRGB f) c s d + rgb d * factorRGB (dstRGB f) c s d)
          (alpha s * factorAlpha (srcAlpha f) c s d
           + alpha d * factorAlpha (dstAlpha f) c s d).

(** A normalised 8-bit channel holds a value in [0, 1]: whatever is
    written to it is clamped.  Its 256 levels, like the rounding of
    floats, are outside the model.  The float formats store a value as
    it is. *)
Definition clamp01 (x : R) : R := Rmax 0 (Rmin 1 x).

Definition stored (f : PixelFormat) (p : Pixel) : Pixel :=
  match f with
  | PIXELFORMAT_R8_G8_B8_A8 => mkPixel (clamp01 (rgb p)) (clamp01 (alpha p))
  | PIXELFORMAT_RGBA16F | PIXELFORMAT_RGBA32F => p
  end.

Section Shading.

Variable glpow : R -> R -> R.

(** The fragment the shader emits for a texel, under a quad's uniforms. *)
Definition shade (q : Quad) (texel : R) : Pixel :=
  mkPixel (fst (fshader glpow texel (q_multiplier q) (q_power q)))
          (snd (fshader glpow texel (q_multiplier q) (q_power q))).

(** The target pixel after a quad, for a target of format [fmt].
    [enabled] is the BLEND enable bit of the context when the quad is
    drawn: the fragment is blended over what was there when the bit is
    set, and replaces it otherwise.  A fixed-point target clamps the
    fragment before the blend stage and the result after it. *)
Definition execQuad (enabled : bool) (fmt : PixelFormat) (q : Quad)
    (texel : R) (dst : Pixel) : Pixel :=
  let s := stored fmt (shade q texel) in
  stored fmt (if enabled then blendPixel (q_gl q) s dst else s).

(** The gamma-encoded value both accumulation passes draw for a texel. *)
Definition encoded (texel : R) : R := glpow (texel * 1.0) gamma.

End Shading.

(** A context state under which an opaque fragment replaces the target
    colour: what the first pass needs of the state its caller leaves. *)
Definition stores (g : WebGL) : Prop :=
  forall s d : Pixel, alpha s = 1 -> rgb (blendPixel g s d) = rgb s.

(* ----------------------------------------------------------------- *)
(** *** Frames on a pixel store *)

(** The colour every texture shows at one fixed pixel, by texture
    identity. *)
Definition Pixels : Type := nat -> Pixel.

Definition px_set (i : nat) (p : Pixel) (px : Pixels) : Pixels :=
  fun j => if (j =? i)%nat then p else px j.

(** The texel a quad samples from its source texture. *)
Definition px_texel (px : Pixels) (t : option Texture) : R :=
  match t with
  | Some t => rgb (px (tex_id t))
  | None => 0
  end.

(** The GPU state a quad is executed on: the pixel store and the BLEND
    enable bit of the context. *)
Record Gpu : Type := mkGpu {
  pixels : Pixels;
  blendEnabled : bool
}.

Section Frames.

Variable glpow : R -> R -> R.

(** [blendOn j]: whether BLEND is enabled on the context when the step
    for sample [j] starts, which is how the scene render of that frame
    (or, if it draws nothing, the step before) left it. *)
Variable blendOn : nat -> bool.

(** The GPU state after one device command.  Only a quad is visible at
    this level.  Drawn with [useBlend = false] it first disables
    blending; it is then executed under the enable bit in force, and a
    quad into a render target rewrites the pixel of the target's
    texture. *)
Definition execCall (s : Gpu) (c : Call) : Gpu :=
  match c with
  | DrawQuadWithShader q =>
      let enabled := blendEnabled s && useBlend q in
      match target q with
      | Some rt =>
          let t := colorBuffer rt in
          mkGpu
            (px_set (tex_id t)
               (execQuad glpow enabled (tex_format t) q
                  (px_texel (pixels s) (q_source q)) (pixels s (tex_id t)))
               (pixels s))
            enabled
      | None => mkGpu (pixels s) enabled
      end
  | _ => s
  end.

Definition execCalls (s : Gpu) (cs : list Call) : Gpu :=
  fold_left execCall cs s.

(** One displayed frame: the camera renders the scene, of colour [c] at
    the pixel watched, into its render target between the two hooks; then
    the step runs on what was rendered, under the enable bit the frame
    left. *)
Definition frame (st : World * Pixels) (c : R) : World * Pixels :=
  let w1 := after (renderScene (fst st)) in
  let px1 :=
    match renderTarget (camera w1) with
    | Some rt => px_set (tex_id (colorBuffer rt)) (mkPixel c 1) (snd st)
    | None => snd st
    end in
  let r := prepareTexture w1 in
  (after r,
   pixels (execCalls (mkGpu px1 (blendOn (sampleId (this w1)))) (calls r))).

Definition frames (st : World * Pixels) (scene : list R) : World * Pixels :=
  fold_left frame scene st.

End Frames.

(** The recurrence as the specification writes it,
    [acc_k = acc_{k-1} * (k-1)/k + sample_k * 1/k], run from step [k] on. *)
Fixpoint specRecurrence (k : nat) (acc : R) (ss : list R) : R :=
  match ss with
  | [] => acc
  | s :: rest =>
      specRecurrence (S k) (acc * ((INR k - 1) / INR k) + s * (1 / INR k)) rest
  end.

(** The accumulated value after the accumulation passes for samples
    [j], [j + 1], ... of encoded colours [es]: a pass drawn with blending
    enabled leaves the weighted sum the constant-alpha function computes
    with constant [1 / (j + 1)]; a pass drawn with blending disabled
    leaves its own colour. *)
Fixpoint passes (on : nat -> bool) (j : nat) (acc : R) (es : list R) : R :=
  match es with
  | [] => acc
  | e :: rest =>
      passes on (S j)
        (if on j
         then acc * ((INR (S j) - 1) / INR (S j)) + e * (1 / INR (S j))
         else e)
        rest
  end.

Definition sum (l : list R) : R := fold_right Rplus 0 l.

Definition mean (l : list R) : R := sum l / INR (length l).

(* ================================================================= *)
(** ** Vocabulary of the statements *)

(** The destroy commands [destroy()] owes for the members an instance
    holds, in the order of the source. *)
Definition releases (m : Multiframe) : list Call :=
  match firstTexture m with Some t => [TextureDestroy t] | None => [] end
  ++ match firstRenderTarget m with Some rt => [RenderTargetDestroy rt] | None => [] end
  ++ match accumRenderTarget m with Some rt => [RenderTargetDestroy rt] | None => [] end
  ++ match accumTexture m with Some t => [TextureDestroy t] | None => [] end.

(** The four objects [create()] builds from identity [n] on, for a device
    of size [w] x [h] and accumulation format [f]. *)
Definition firstTextureAt (n w h : nat) : Texture :=
  mkTexture n w h PIXELFORMAT_R8_G8_B8_A8 false.
Definition firstTargetAt (n w h : nat) : RenderTarget :=
  mkRenderTarget (S n) (firstTextureAt n w h) false.
Definition accumTextureAt (n w h : nat) (f : PixelFormat) : Texture :=
  mkTexture (S (S n)) w h f false.
Definition accumTargetAt (n w h : nat) (f : PixelFormat) : RenderTarget :=
  mkRenderTarget (S (S (S n))) (accumTextureAt n w h f) false.

Definition creations (n w h : nat) (f : PixelFormat) : list Call :=
  [TextureCreate (firstTextureAt n w h);
   RenderTargetCreate (firstTargetAt n w h);
   TextureCreate (accumTextureAt n w h f);
   RenderTargetCreate (accumTargetAt n w h f)].

(** The quads among a run's commands that write one of the two buffers
    (any render target; the back buffer is target [None]). *)
Fixpoint bufferWrites (cs : list Call) : list Quad :=
  match cs with
  | [] => []
  | DrawQuadWithShader q :: rest =>
      match target q with
      | Some _ => q :: bufferWrites rest
      | None => bufferWrites rest
      end
  | _ :: rest => bufferWrites rest
  end.

(** Every quad among a run's commands, the copy to the back buffer
    included. *)
Fixpoint draws (cs : list Call) : list Quad :=
  match cs with
  | [] => []
  | DrawQuadWithShader q :: rest => q :: draws rest
  | _ :: rest => draws rest
  end.

(** The sample counter after a step, given the counter and the number of
    samples before it (lines 244-246). *)
Definition advanced (sampleId sampleCnt : nat) : nat :=
  if (sampleId <? sampleCnt)%nat then S sampleId else sampleId.

(** A sample offset inside the square [-1, 1] x [-1, 1]. *)
Definition inSquare (v : Vec2) : Prop :=
  -1 <= vx v <= 1 /\ -1 <= vy v <= 1.

(** Non-decreasing distance from the origin. *)
Definition closerFirst (a b : Vec2) : Prop :=
  Vec2_length a <= Vec2_length b.

(** The device's own record of the blend function. *)
Definition deviceBlend (d : GraphicsDevice) : BlendFunc :=
  mkBlendFunc (blendSrc d) (blendDst d) (blendSrcAlpha d) (blendDstAlpha d).

(** The buffers of an instance hang together: the four members are all
    null, or all set with each target drawing into its texture and both
    textures of one size. *)
Definition linked (m : Multiframe) : Prop :=
  match firstTexture m, firstRenderTarget m, accumTexture m, accumRenderTarget m with
  | None, None, None, None => True
  | Some ft, Some frt, Some act, Some art =>
      colorBuffer frt = ft /\ colorBuffer art = act /\
      tex_width ft = tex_width act /\ tex_height ft = tex_height act
  | _, _, _, _ => False
  end.

(** No buffer is held: the state before the first step and after a
    teardown. *)
Definition released (m : Multiframe) : Prop :=
  firstTexture m = None /\ firstRenderTarget m = None /\
  accumTexture m = None /\ accumRenderTarget m = None.

(** The state between the frames of one accumulation sequence: sample
    [j] is next, the scene is rendered into [rt], and the instance holds
    the output texture [ft] and the accumulation texture [act], the
    three textures distinct, at the device's size. *)
Definition accumulatingOn (rt : RenderTarget) (ft act : Texture)
    (ss : list Vec2) (j : nat) (w : World) : Prop :=
  renderTarget (camera w) = Some rt /\
  sampleId (this w) = j /\
  samples (this w) = ss /\
  firstTexture (this w) = Some ft /\
  accumTexture (this w) = Some act /\
  (exists frt, firstRenderTarget (this w) = Some frt /\ colorBuffer frt = ft) /\
  (exists art, accumRenderTarget (this w) = Some art /\ colorBuffer art = act) /\
  tex_width act = width (device w) /\
  tex_height act = height (device w) /\
  tex_id act <> tex_id (colorBuffer rt) /\
  tex_id ft <> tex_id act /\
  tex_id ft <> tex_id (colorBuffer rt).

(** The sample counter never passes the number of samples. *)
Definition clamped (m : Multiframe) : Prop :=
  (sampleId m <= length (samples m))%nat.

(** Both textures exist at the device's current size. *)
Definition sized (m : Multiframe) (d : GraphicsDevice) : Prop :=
  exists ft act,
    firstTexture m = Some ft /\ accumTexture m = Some act /\
    tex_width ft = width d /\ tex_height ft = height d /\
    tex_width act = width d /\ tex_height act = height d.

(** The world after [n] steps. *)
Fixpoint stepN (n : nat) (w : World) : World :=
  match n with
  | O => w
  | S k => stepN k (after (prepareTexture w))
  end.

(** The values successive steps return. *)
Fixpoint stepResults (n : nat) (w : World) : list bool :=
  match n with
  | O => []
  | S k => value (prepareTexture w) :: stepResults k (after (prepareTexture w))
  end.

(* ----------------------------------------------------------------- *)
(** *** The phases of a step, described *)

(** The device after [setValue] on the three shader uniforms. *)
Definition withUniforms (src : option Texture) (mult pw : R) (d : GraphicsDevice)
  : GraphicsDevice :=
  set_scope (mkScope src mult pw (globalTextureBias (scope d))) d.

(** The world [create()] leaves: four new objects at the device's size. *)
Definition recreated (w : World) : World :=
  let d := device w in
  let m := this w in
  let n := fresh w in
  mkWorld
    (mkMultiframe (pixelFormat m)
       (Some (firstTextureAt n (width d) (height d)))
       (Some (firstTargetAt n (width d) (height d)))
       (Some (accumTextureAt n (width d) (height d) (pixelFormat m)))
       (Some (accumTargetAt n (width d) (height d) (pixelFormat m)))
       (sampleId m) (samples m) (store m))
    d (camera w) (S (S (S (S n)))).

(** Whether a step has to build the buffers: they are stale or absent. *)
Definition needsCreate (w : World) : bool :=
  staleSize (this w) (device w)
  || match accumTexture (this w) with Some _ => false | None => true end.

(** The world and the commands after lines 186-192. *)
Definition ensured (w : World) : World :=
  if needsCreate w then recreated w else w.

Definition ensureCalls (w : World) : list Call :=
  (if staleSize (this w) (device w) then releases (this w) else [])
  ++ (if needsCreate w
      then creations (fresh w) (width (device w)) (height (device w))
             (pixelFormat (this w))
      else []).

(** The device after the blend pass of [blendNext].  The context
    carries the new blend constant.  The saved function, handed back to
    [setBlendFunctionSeparate], is the one on record: when the record
    is marked separate the call does nothing and the context keeps the
    constant-alpha function; otherwise the context gets the function on
    record and the record is marked separate. *)
Definition blendedDevice (sampleId : nat) (d : GraphicsDevice) : GraphicsDevice :=
  if separateAlphaBlend d then set_gl (accumGL sampleId) d
  else set_separateAlphaBlend true
         (set_blend (deviceBlend d)
            (set_gl (mkWebGL (deviceBlend d) (mkColor4 0 0 0 (blendAlpha sampleId)))
               (set_gl (accumGL sampleId) d))).

(** Whether [sampleId] is the last of [sampleCnt] samples (line 229). *)
Definition isLast (sampleId sampleCnt : nat) : bool :=
  (Z.of_nat sampleId =? Z.of_nat sampleCnt - 1)%Z.

(* ================================================================= *)
(** ** Concrete worlds *)

(** A device of the given size whose caller uses ordinary alpha
    blending, set through [setBlendFunctionSeparate]. *)
Definition callerBlend : BlendFunc :=
  mkBlendFunc SRC_ALPHA ONE_MINUS_SRC_ALPHA ONE ONE_MINUS_SRC_ALPHA.

Definition exampleDevice (w h : nat) : GraphicsDevice :=
  mkDevice w h true true true true
    SRC_ALPHA ONE_MINUS_SRC_ALPHA ONE ONE_MINUS_SRC_ALPHA true
    (mkWebGL callerBlend (mkColor4 0 0 0 0))
    (mkScope None 0 0 0).

(** The scene's own render target (objects 0 and 1). *)
Definition sceneTexture : Texture := mkTexture 0 4 4 PIXELFORMAT_R8_G8_B8_A8 false.
Definition sceneTarget : RenderTarget := mkRenderTarget 1 sceneTexture true.

(** The projection matrix of an off-centre perspective frustum, column
    major: entries 8 and 9 are the principal point, entries 12 and 13 are
    zero. *)
Definition offCentre : list R :=
  [1; 0; 0; 0;
   0; 1; 0; 0;
   1/2; 1/4; -3/2; -1;
   0; 0; -5/2; 0].

Definition exampleCamera (rt : option RenderTarget) : Camera :=
  mkCamera rt offCentre false false.

(** The samples of a 2 x 2 grid when every draw returns one half. *)
Definition fourSamples : list Vec2 :=
  [mkVec2 (-1/2) (-1/2); mkVec2 (-1/2) (1/2); mkVec2 (1/2) (-1/2); mkVec2 (1/2) (1/2)].

(** What the host does between steps: the canvas is resized. *)
Definition hostResize (w h : nat) (v : World) : World :=
  mkWorld (this v) (set_size w h (device v)) (camera v) (fresh v).

(** A freshly constructed single-sample instance on a 4 x 4 device. *)
Definition singleSampleWorld (rt : option RenderTarget) : World :=
  mkWorld (constructor (fun _ => 1/2) (exampleDevice 4 4) 1)
    (exampleDevice 4 4) (exampleCamera rt) 2.

(** A freshly constructed 2 x 2 instance on a 4 x 4 device, every draw of
    the random source being one half. *)
Definition twoByTwoWorld : World :=
  mkWorld
    (mkMultiframe PIXELFORMAT_RGBA16F None None None None 0 fourSamples (mkVec2 0 0))
    (exampleDevice 4 4) (exampleCamera (Some sceneTarget)) 2.

(** One step done, sample 1 of 4 is next: the first step of the blend
    branch is ahead, and the context still carries the caller's blend
    function. *)
Definition firstBlendWorld : World := stepN 1 twoByTwoWorld.

(** Mid-accumulation: two steps done, sample 2 of 4 is next.  The buffers
    are objects 2 to 5, 4 x 4. *)
Definition accumulatingWorld : World := stepN 2 twoByTwoWorld.

(** The same instance after the canvas was resized to 8 x 8. *)
Definition resizedWorld : World := hostResize 8 8 accumulatingWorld.

(** All four samples accumulated, buffers matching the device. *)
Definition convergedWorld : World := stepN 4 twoByTwoWorld.

(** Converged, and then the canvas was resized. *)
Definition convergedResizedWorld : World := hostResize 8 8 convergedWorld.

(* ================================================================= *)
(** ** Further vocabulary: sample cells, resources, centred matrices *)

(** The sample the two loops push for grid cell [(x, y)].  The cell is
    the [x * numSamples + y]-th one visited, and each cell takes two
    draws of the random source. *)
Definition cellSample (random : nat -> R) (numSamples x y : nat) : Vec2 :=
  let n := (2 * (x * numSamples + y))%nat in
  mkVec2 ((INR x + random n) / INR numSamples * 2 - 1)
         ((INR y + random (S n)) / INR numSamples * 2 - 1).

(** All cells, column [x] by column, in the order the loops visit them. *)
Definition jitteredGrid (random : nat -> R) (numSamples : nat) : list Vec2 :=
  flat_map (fun x => map (cellSample random numSamples x) (seq 0 numSamples))
    (seq 0 numSamples).

(** An offset inside cell [(x, y)] of the [numSamples] x [numSamples]
    grid laid over the square [-1, 1] x [-1, 1]. *)
Definition inCell (numSamples x y : nat) (v : Vec2) : Prop :=
  INR x / INR numSamples * 2 - 1 <= vx v < (INR x + 1) / INR numSamples * 2 - 1 /\
  INR y / INR numSamples * 2 - 1 <= vy v < (INR y + 1) / INR numSamples * 2 - 1.

(** A GPU object an instance can own. *)
Inductive Resource : Type :=
| TextureRes (t : Texture)
| TargetRes (rt : RenderTarget).

Definition res_id (o : Resource) : nat :=
  match o with
  | TextureRes t => tex_id t
  | TargetRes rt => rt_id rt
  end.

(** The objects an instance holds, in the order [destroy()] visits its
    members. *)
Definition held (m : Multiframe) : list Resource :=
  match firstTexture m with Some t => [TextureRes t] | None => [] end
  ++ match firstRenderTarget m with Some rt => [TargetRes rt] | None => [] end
  ++ match accumRenderTarget m with Some rt => [TargetRes rt] | None => [] end
  ++ match accumTexture m with Some t => [TextureRes t] | None => [] end.

(** The objects a run's commands create, and those they destroy. *)
Fixpoint created (cs : list Call) : list Resource :=
  match cs with
  | [] => []
  | TextureCreate t :: rest => TextureRes t :: created rest
  | RenderTargetCreate rt :: rest => TargetRes rt :: created rest
  | _ :: rest => created rest
  end.

Fixpoint destroyed (cs : list Call) : list Resource :=
  match cs with
  | [] => []
  | TextureDestroy t :: rest => TextureRes t :: destroyed rest
  | RenderTargetDestroy rt :: rest => TargetRes rt :: destroyed rest
  | _ :: rest => destroyed rest
  end.

(** The quads among a run's commands that go to the back buffer. *)
Definition backBufferDraws (cs : list Call) : list Quad :=
  filter (fun q => match target q with None => true | Some _ => false end)
    (draws cs).

(** The commands among a run's that touch the blend state of the context
    behind the device's back. *)
Fixpoint contextBlendCalls (cs : list Call) : list Call :=
  match cs with
  | [] => []
  | GlBlendFuncSeparate f :: rest => GlBlendFuncSeparate f :: contextBlendCalls rest
  | GlBlendColor c :: rest => GlBlendColor c :: contextBlendCalls rest
  | _ :: rest => contextBlendCalls rest
  end.

(** A sixteen-entry projection matrix whose entries 8 and 9 agree with
    entries 12 and 13, as in every symmetric perspective frustum, where
    all four are zero. *)
Definition centred (pmat : list R) : Prop :=
  length pmat = 16%nat /\
  data_get 8 pmat = data_get 12 pmat /\
  data_get 9 pmat = data_get 13 pmat.

(** The device's capability flags and size: what a step only reads. *)
Definition sameHardware (d d' : GraphicsDevice) : Prop :=
  width d' = width d /\ height d' = height d /\
  extTextureHalfFloat d' = extTextureHalfFloat d /\
  textureHalfFloatRenderable d' = textureHalfFloatRenderable d /\
  extTextureFloat d' = extTextureFloat d /\
  textureFloatRenderable d' = textureFloatRenderable d.

(** The projection matrix of a symmetric perspective frustum. *)
Definition symmetricFrustum : list R :=
  [1; 0; 0; 0;
   0; 1; 0; 0;
   0; 0; -3/2; -1;
   0; 0; -5/2; 0].

(** The 2 x 2 instance behind a camera with a symmetric frustum. *)
Definition symmetricWorld : World :=
  mkWorld (this twoByTwoWorld) (exampleDevice 4 4)
    (mkCamera (Some sceneTarget) symmetricFrustum false false) 2.

(* ----------------------------------------------------------------- *)
(** *** The host's use of an instance *)

(** What the host can do with an instance between construction and the
    end of its life: run a step, let the camera render the scene, report
    a camera move, tear the instance down (directly, or through the
    device's [destroy] and [devicelost] events), resize the canvas. *)
Inductive HostAction : Type :=
| DoStep
| DoRender
| DoMoved
| DoDestroy
| DoResize (w h : nat).

Definition act (a : HostAction) : M unit :=
  match a with
  | DoStep => prepareTexture ;; ret tt
  | DoRender => renderScene ;; ret tt
  | DoMoved => moved
  | DoDestroy => destroy
  | DoResize cw ch => fun w => mkRun tt (hostResize cw ch w) []
  end.

Fixpoint script (l : list HostAction) : M unit :=
  match l with
  | [] => ret tt
  | a :: rest => act a ;; script rest
  end.

(* ----------------------------------------------------------------- *)
(** *** The vertex shader *)

(** A clip-space position, [vec4]. *)
Record Vec4 : Type := mkVec4 { v4x : R; v4y : R; v4z : R; v4w : R }.

(** The vertex shader [vshader]: the position it emits for a vertex of
    the quad, and the texture coordinate it hands to the fragment
    shader. *)
Definition vshader (vertex_position : Vec2) : Vec4 * Vec2 :=
  (mkVec4 (vx vertex_position) (vy vertex_position) 0.5 1.0,
   mkVec2 (vx vertex_position * 0.5 + 0.5) (vy vertex_position * 0.5 + 0.5)).

(** Where the rasteriser puts a clip-space position in the target, as a
    fraction of the target's width and height: the perspective divide,
    then the viewport transform of a viewport that covers the target. *)
Definition windowCoord (p : Vec4) : Vec2 :=
  mkVec2 ((v4x p / v4w p + 1) / 2) ((v4y p / v4w p + 1) / 2).

(** A texture coordinate inside the texture. *)
Definition inTexture (t : Vec2) : Prop :=
  0 <= vx t <= 1 /\ 0 <= vy t <= 1.

(* ================================================================= *)
(** * Properties *)

(** ** The sample sequence *)

Section SortFacts.

Context {A : Type} (cmp : A -> A -> Z).

Lemma insert_length (a : A) (l : list A) :
  length (insert cmp a l) = S (length l).
Proof.
  induction l as [|b rest IH]; simpl; [reflexivity|].
  destruct (cmp a b <=? 0)%Z; simpl; congruence.
Qed.

Lemma Array_sort_length (l : list A) :
  length (Array_sort cmp l) = length l.
Proof.
  induction l as [|a rest IH]; simpl; [reflexivity|].
  rewrite insert_length. congruence.
Qed.

Lemma insert_Permutation (a : A) (l : list A) :
  Permutation (a :: l) (insert cmp a l).
Proof.
  induction l as [|b rest IH]; simpl; [apply Permutation_refl|].
  destruct (cmp a b <=? 0)%Z; [apply Permutation_refl|].
  eapply perm_trans; [apply perm_swap|]. now apply perm_skip.
Qed.

Lemma Array_sort_Permutation (l : list A) :
  Permutation l (Array_sort cmp l).
Proof.
  induction l as [|a rest IH]; simpl; [constructor|].
  eapply perm_trans; [apply perm_skip, IH|]. apply insert_Permutation.
Qed.

End SortFacts.

(** What the comparator's sign says about the two lengths. *)
Lemma compareFn_le (a b : Vec2) :
  (compareFn a b <=? 0)%Z = true -> closerFirst a b.
Proof.
  unfold compareFn, closerFirst.
  destruct (Rlt_dec (Vec2_length a) (Vec2_length b)) as [Hab|Hab]; [lra|].
  destruct (Rlt_dec (Vec2_length b) (Vec2_length a)) as [Hba|Hba]; [discriminate|lra].
Qed.

Lemma compareFn_gt (a b : Vec2) :
  (compareFn a b <=? 0)%Z = false -> closerFirst b a.
Proof.
  unfold compareFn, closerFirst.
  destruct (Rlt_dec (Vec2_length a) (Vec2_length b)) as [Hab|Hab]; [discriminate|].
  destruct (Rlt_dec (Vec2_length b) (Vec2_length a)) as [Hba|Hba]; [lra|discriminate].
Qed.

Lemma closerFirst_trans (a b c : Vec2) :
  closerFirst a b -> closerFirst b c -> closerFirst a c.
Proof. unfold closerFirst. lra. Qed.

Lemma insert_sorted (a : Vec2) (l : list Vec2) :
  StronglySorted closerFirst l ->
  StronglySorted closerFirst (insert compareFn a l).
Proof.
  induction 1 as [|b rest Hs IH Hb]; simpl.
  - repeat constructor.
  - destruct (compareFn a b <=? 0)%Z eqn:E.
    + apply compareFn_le in E.
      constructor; [now constructor|].
      constructor; [exact E|].
      eapply Forall_impl; [|exact Hb].
      intros c Hc. eapply closerFirst_trans; eauto.
    + apply compareFn_gt in E.
      constructor; [exact IH|].
      eapply Permutation_Forall; [apply insert_Permutation|].
      now constructor.
Qed.

Lemma Array_sort_sorted (l : list Vec2) :
  StronglySorted closerFirst (Array_sort compareFn l).
Proof.
  induction l as [|a rest IH]; simpl; [constructor|].
  now apply insert_sorted.
Qed.

(** One coordinate of a jittered grid sample. *)
Lemma cell_coordinate (n i : nat) (r : R) :
  (i < n)%nat -> 0 <= r < 1 ->
  -1 <= (INR i + r) / INR n * 2 - 1 <= 1.
Proof.
  intros Hi Hr.
  assert (Hn : 0 < INR n) by (apply lt_0_INR; lia).
  assert (Hi0 : 0 <= INR i) by apply pos_INR.
  assert (Hi1 : INR i + 1 <= INR n).
  { rewrite <- S_INR. apply le_INR. lia. }
  assert (H0 : 0 <= (INR i + r) / INR n).
  { apply Rmult_le_pos; [lra|]. left. now apply Rinv_0_lt_compat. }
  assert (H1 : (INR i + r) / INR n <= 1).
  { apply (Rmult_le_reg_r (INR n)); [exact Hn|].
    unfold Rdiv. rewrite Rmult_assoc, Rinv_l by lra. lra. }
  lra.
Qed.

Section GeneratorFacts.

Variable random : nat -> R.

Lemma inner_loop (numSamples x : nat) (ys : list nat) (st : nat * list Vec2) :
  let st' := fold_left (pushSample random numSamples x) ys st in
  length (snd st') = (length (snd st) + length ys)%nat /\
  ((forall i, 0 <= random i < 1) ->
   (x < numSamples)%nat -> Forall (fun y => (y < numSamples)%nat) ys ->
   Forall inSquare (snd st) -> Forall inSquare (snd st')).
Proof.
  revert st. induction ys as [|y ys IH]; intros [n acc]; simpl.
  - split; [lia|auto].
  - specialize (IH (pushSample random numSamples x (n, acc) y)).
    simpl in IH. destruct IH as [IHlen IHbox]. split.
    + rewrite IHlen, length_app. simpl. lia.
    + intros Hr Hx Hys Hacc. inversion Hys; subst.
      apply IHbox; auto.
      apply Forall_app. split; [exact Hacc|].
      constructor; [|constructor].
      split; simpl; apply cell_coordinate; auto.
Qed.

Lemma outer_loop (numSamples : nat) (xs : list nat) (st : nat * list Vec2) :
  let st' := fold_left
               (fun st x => fold_left (pushSample random numSamples x)
                              (seq 0 numSamples) st) xs st in
  length (snd st') = (length (snd st) + length xs * numSamples)%nat /\
  ((forall i, 0 <= random i < 1) ->
   Forall (fun x => (x < numSamples)%nat) xs ->
   Forall inSquare (snd st) -> Forall inSquare (snd st')).
Proof.
  revert st. induction xs as [|x xs IH]; intros st; simpl.
  - split; [lia|auto].
  - destruct (inner_loop numSamples x (seq 0 numSamples) st) as [Hlen Hbox].
    specialize (IH (fold_left (pushSample random numSamples x) (seq 0 numSamples) st)).
    simpl in IH. destruct IH as [IHlen IHbox]. split.
    + rewrite IHlen, Hlen, length_seq. lia.
    + intros Hr Hxs Hst. inversion Hxs; subst.
      apply IHbox; auto. apply Hbox; auto.
      apply Forall_forall. intros y Hy. apply in_seq in Hy. lia.
Qed.

Lemma generateSamples_length (numSamples : nat) :
  length (generateSamples random numSamples) = (numSamples * numSamples)%nat.
Proof.
  unfold generateSamples.
  destruct (outer_loop numSamples (seq 0 numSamples) (0%nat, [])) as [Hlen _].
  rewrite Hlen, length_seq. reflexivity.
Qed.

Lemma generateSamples_inSquare (numSamples : nat) :
  (forall i, 0 <= random i < 1) ->
  Forall inSquare (generateSamples random numSamples).
Proof.
  intros Hr. unfold generateSamples.
  destruct (outer_loop numSamples (seq 0 numSamples) (0%nat, [])) as [_ Hbox].
  apply Hbox; auto.
  apply Forall_forall. intros x Hx. apply in_seq in Hx. lia.
Qed.

End GeneratorFacts.

(** C5.  For every grid size [N >= 1] and every outcome of the random
    source (each draw in [0, 1)), the constructor leaves exactly [N * N]
    sample offsets, every coordinate of every offset lies in [-1, 1], and
    the offsets are in order of non-decreasing Euclidean distance from the
    origin. *)
Theorem constructor_samples
  (random : nat -> R) (d : GraphicsDevice) (N : nat) :
  (1 <= N)%nat ->
  (forall i, 0 <= random i < 1) ->
  length (samples (constructor random d N)) = (N * N)%nat /\
  Forall inSquare (samples (constructor random d N)) /\
  StronglySorted closerFirst (samples (constructor random d N)).
Proof.
  intros _ Hr. simpl. split; [|split].
  - rewrite Array_sort_length. apply generateSamples_length.
  - eapply Permutation_Forall; [apply Array_sort_Permutation|].
    now apply generateSamples_inSquare.
  - apply Array_sort_sorted.
Qed.

Lemma constructor_samples_witness :
  length (samples (constructor (fun _ => 1/2) (exampleDevice 4 4) 2)) = (2 * 2)%nat /\
  Forall inSquare (samples (constructor (fun _ => 1/2) (exampleDevice 4 4) 2)) /\
  StronglySorted closerFirst (samples (constructor (fun _ => 1/2) (exampleDevice 4 4) 2)).
Proof.
  apply (constructor_samples (fun _ => 1/2) (exampleDevice 4 4) (N := 2)).
  - lia.
  - intros _. lra.
Defined.

(** The constructor on a concrete random source: every draw one half, a
    2 x 2 grid.  The four offsets are equally far from the origin, so the
    stable sort keeps the order of generation. *)
Lemma compareFn_same_length (a b : Vec2) :
  Vec2_length a = Vec2_length b -> compareFn a b = 0%Z.
Proof.
  intros H. unfold compareFn. rewrite H.
  destruct (Rlt_dec (Vec2_length b) (Vec2_length b)) as [Hlt|_]; [lra|reflexivity].
Qed.

Lemma fourSamples_length (v : Vec2) :
  In v fourSamples -> Vec2_length v = sqrt (1/2).
Proof.
  unfold fourSamples, Vec2_length. simpl.
  intros [<-|[<-|[<-|[<-|[]]]]]; simpl; f_equal; lra.
Qed.

Lemma constructor_twoByTwo :
  constructor (fun _ => 1/2) (exampleDevice 4 4) 2 = this twoByTwoWorld.
Proof.
  unfold constructor, twoByTwoWorld. cbn [this]. f_equal.
  assert (Hgen : generateSamples (fun _ => 1/2) 2 = fourSamples).
  { unfold generateSamples, fourSamples. cbn.
    repeat (f_equal; try lra). }
  rewrite Hgen. unfold Array_sort, fourSamples. cbn [fold_right insert].
  repeat (rewrite compareFn_same_length;
          [cbn [Z.leb Z.compare insert]
          |rewrite !fourSamples_length by (simpl; tauto); reflexivity]).
  reflexivity.
Qed.

(* ================================================================= *)
(** ** The methods as equations: resources *)

Lemma destroy_run (w : World) :
  destroy w =
  mkRun tt
    (mkWorld
       (mkMultiframe (pixelFormat (this w)) None None None None
          (sampleId (this w)) (samples (this w)) (store (this w)))
       (device w) (camera w) (fresh w))
    (releases (this w)).
Proof.
  destruct w as [[pf ft frt act art sid ss st] d c n].
  destruct ft, frt, act, art; reflexivity.
Qed.

Lemma create_run (w : World) :
  create w =
  mkRun tt (recreated w)
    (creations (fresh w) (width (device w)) (height (device w)) (pixelFormat (this w))).
Proof. reflexivity. Qed.

(* ================================================================= *)
(** ** The methods as equations: the phases of [prepareTexture] *)

(** Runs a method symbolically up to the first test it cannot decide. *)
Ltac step_through :=
  cbv beta iota zeta delta
    [bind ret getThis getDevice getCamera modifyThis modifyDevice modifyCamera
     emit newId when setSource setMultiplier setPower setBias
     drawQuadWithShader blendFuncSeparate blendColor setBlendFunctionSeparate];
  cbn [this device camera fresh value after calls].

(** Sequencing, once the first method's run is known. *)
Lemma bind_run {A B : Type} (m : M A) (k : A -> M B) (w w1 : World)
      (a : A) (cs1 : list Call) :
  m w = mkRun a w1 cs1 ->
  bind m k w =
  mkRun (value (k a w1)) (after (k a w1)) (cs1 ++ calls (k a w1)).
Proof.
  intros Hm. unfold bind. rewrite Hm. destruct (k a w1); reflexivity.
Qed.

Lemma ensureTextures_run (w : World) :
  ensureTextures w = mkRun tt (ensured w) (ensureCalls w).
Proof.
  unfold ensureTextures, ensured, ensureCalls, needsCreate, bind, getThis,
    getDevice, when, ret.
  destruct (staleSize (this w) (device w)) eqn:Hstale.
  - rewrite destroy_run. cbn [this accumTexture orb app].
    rewrite create_run. unfold recreated. cbn. reflexivity.
  - cbn [orb app].
    destruct (accumTexture (this w)) eqn:Hacc.
    + reflexivity.
    + rewrite create_run. reflexivity.
Qed.

Lemma storeFirst_run (src : Texture) (w : World) :
  storeFirst src w =
  mkRun tt
    (mkWorld (this w) (withUniforms (Some src) 1.0 1.0 (device w)) (camera w) (fresh w))
    [DrawQuadWithShader (accumQuad (this w) src (gl (device w)));
     DrawQuadWithShader (firstQuad (this w) src (gl (device w)))].
Proof. reflexivity. Qed.

Lemma BlendFactor_eqb_refl (a : BlendFactor) : BlendFactor_eqb a a = true.
Proof. apply Nat.eqb_refl. Qed.

Lemma blendNext_run (src : Texture) (sampleCnt : nat) (w : World) :
  let m := this w in
  let d := blendedDevice (sampleId m) (device w) in
  blendNext src sampleCnt w =
  mkRun tt
    (mkWorld m
       (if isLast (sampleId m) sampleCnt
        then withUniforms (accumTexture m) 1.0 (1.0 / gamma) d
        else withUniforms (Some src) 1.0 gamma d)
       (camera w) (fresh w))
    ([GlBlendFuncSeparate accumBlendFunc;
      GlBlendColor (mkColor4 0 0 0 (blendAlpha (sampleId m)));
      DrawQuadWithShader (accumQuad m src (accumGL (sampleId m)));
      SetBlendFunctionSeparate (deviceBlend (device w))]
     ++ (if isLast (sampleId m) sampleCnt
         then [DrawQuadWithShader (resolveQuad m (gl d))]
         else [])).
Proof.
  cbv zeta. unfold blendedDevice.
  destruct (isLast (sampleId (this w)) sampleCnt) eqn:E; unfold isLast in E;
    destruct (separateAlphaBlend (device w)) eqn:Hsep;
    unfold blendNext; step_through; unfold onRecord;
    cbn [blendSrc blendDst blendSrcAlpha blendDstAlpha separateAlphaBlend
         set_scope set_gl srcRGB dstRGB srcAlpha dstAlpha];
    rewrite !BlendFactor_eqb_refl, Hsep, E; reflexivity.
Qed.

Lemma accumulate_run (sampleCnt : nat) (w : World) :
  accumulate sampleCnt w =
  match renderTarget (camera w) with
  | Some rt =>
      if (sampleId (this w) <? sampleCnt)%nat then
        if (sampleId (this w) =? 0)%nat then storeFirst (colorBuffer rt) w
        else blendNext (colorBuffer rt) sampleCnt w
      else mkRun tt w []
  | None => mkRun tt w []
  end.
Proof.
  unfold accumulate, bind, getThis, getCamera.
  destruct (renderTarget (camera w)) as [rt|]; [|reflexivity].
  destruct (sampleId (this w) <? sampleCnt)%nat; [|reflexivity].
  destruct (sampleId (this w) =? 0)%nat.
  - rewrite storeFirst_run. reflexivity.
  - rewrite blendNext_run. reflexivity.
Qed.

(** The accumulation passes touch the device only: its uniforms and the
    blend state of the context. *)
Lemma accumulate_frame (sampleCnt : nat) (w : World) :
  let r := accumulate sampleCnt w in
  after r = mkWorld (this w) (device (after r)) (camera w) (fresh w) /\
  deviceBlend (device (after r)) = deviceBlend (device w) /\
  width (device (after r)) = width (device w) /\
  height (device (after r)) = height (device w) /\
  globalTextureBias (scope (device (after r))) = globalTextureBias (scope (device w)).
Proof.
  cbv zeta. rewrite accumulate_run.
  destruct (renderTarget (camera w)) as [rt|].
  2:{ destruct w; cbn; auto. }
  destruct (sampleId (this w) <? sampleCnt)%nat.
  2:{ destruct w; cbn; auto. }
  destruct (sampleId (this w) =? 0)%nat.
  - rewrite storeFirst_run. cbn. auto.
  - rewrite blendNext_run. unfold blendedDevice.
    destruct (isLast (sampleId (this w)) sampleCnt);
      destruct (separateAlphaBlend (device w)); cbn; auto.
Qed.

Lemma ensured_frame (w : World) :
  device (ensured w) = device w /\
  camera (ensured w) = camera w /\
  sampleId (this (ensured w)) = sampleId (this w) /\
  samples (this (ensured w)) = samples (this w) /\
  store (this (ensured w)) = store (this w) /\
  pixelFormat (this (ensured w)) = pixelFormat (this w).
Proof.
  unfold ensured. destruct (needsCreate w); cbn; auto 10.
Qed.

Lemma present_run (w : World) :
  present w =
  mkRun tt
    (mkWorld (this w) (withUniforms (firstTexture (this w)) 1.0 1.0 (device w))
       (camera w) (fresh w))
    [DrawQuadWithShader (presentQuad (this w) (gl (device w)))].
Proof. reflexivity. Qed.

(** Lines 244-248 on their own. *)
Lemma advance_run (sampleCnt : nat) (w : World) :
  ((m <- getThis ;;
    when (sampleId m <? sampleCnt)%nat (modifyThis (set_sampleId (S (sampleId m))))) ;;
   m <- getThis ;;
   ret (sampleId m <? sampleCnt)%nat) w =
  mkRun (advanced (sampleId (this w)) sampleCnt <? sampleCnt)%nat
    (mkWorld (set_sampleId (advanced (sampleId (this w)) sampleCnt) (this w))
       (device w) (camera w) (fresh w))
    [].
Proof.
  unfold bind, getThis, when, modifyThis, ret, advanced.
  destruct (sampleId (this w) <? sampleCnt)%nat eqn:Hlt.
  - reflexivity.
  - cbn [app]. rewrite Hlt. destruct w as [[] ? ? ?]. reflexivity.
Qed.

(** A step, phase by phase: the buffers are ensured, the accumulation
    passes run on the ensured world, the first texture is drawn to the back
    buffer, the counter advances. *)
Lemma prepareTexture_run (w : World) :
  let v := ensured w in
  let sampleCnt := length (samples (this w)) in
  let r := accumulate sampleCnt v in
  prepareTexture w =
  mkRun (advanced (sampleId (this w)) sampleCnt <? sampleCnt)%nat
    (mkWorld (set_sampleId (advanced (sampleId (this w)) sampleCnt) (this v))
       (withUniforms (firstTexture (this v)) 1.0 1.0 (device (after r)))
       (camera w) (fresh v))
    (ensureCalls w ++ calls r
     ++ [DrawQuadWithShader (presentQuad (this v) (gl (device (after r))))]).
Proof.
  cbv zeta.
  destruct (ensured_frame w) as (Hd & Hc & Hsid & Hss & _).
  destruct (accumulate_frame (length (samples (this w))) (ensured w)) as (Hr & _).
  unfold prepareTexture.
  rewrite (bind_run _ _ _ (ensureTextures_run w)).
  rewrite (bind_run getThis _ (ensured w) eq_refl). cbn [app value this].
  rewrite Hss.
  remember (accumulate (length (samples (this w))) (ensured w)) as r eqn:Er.
  destruct r as [[] u cs]. cbn [after] in Hr.
  rewrite (bind_run _ _ _ (eq_sym Er)).
  rewrite (bind_run _ _ _ (present_run u)).
  rewrite advance_run. cbn [value after calls app device].
  rewrite Hr. cbn [this device camera fresh]. rewrite Hsid, Hc.
  reflexivity.
Qed.

(* ================================================================= *)
(** ** The render hooks *)

Lemma data_set_length (i : nat) (v : R) (data : list R) :
  length (data_set i v data) = length data.
Proof.
  revert i. induction data as [|x rest IH]; intros [|i]; simpl; auto.
Qed.

Lemma data_get_set_same (i : nat) (v : R) (data : list R) :
  (i < length data)%nat -> data_get i (data_set i v data) = v.
Proof.
  unfold data_get. revert i.
  induction data as [|x rest IH]; intros [|i] Hi; simpl in *; try lia; auto.
  apply IH. lia.
Qed.

Lemma data_get_set_other (i j : nat) (v : R) (data : list R) :
  i <> j -> data_get j (data_set i v data) = data_get j data.
Proof.
  unfold data_get. revert i j.
  induction data as [|x rest IH]; intros [|i] [|j] Hij; simpl; auto; try lia.
Qed.

(** The pre-render hook on an instance with an active sample. *)
Lemma onPreRender_run (w : World) (s : Vec2) :
  nth_error (samples (this w)) (sampleId (this w)) = Some s ->
  let pmat := projectionMatrix (camera w) in
  let jx := data_set 8 (data_get 8 pmat + vx s / INR (width (device w))) pmat in
  let jy := data_set 9 (data_get 9 jx + vy s / INR (height (device w))) jx in
  onPreRender w =
  mkRun Normal
    (mkWorld
       (set_store (mkVec2 (data_get 12 pmat) (data_get 13 pmat)) (this w))
       (set_scope
          (mkScope (texture_multiframeSource (scope (device w)))
             (multiplier (scope (device w))) (power (scope (device w)))
             (if (sampleId (this w) =? 0)%nat then 0.0 else -5.0))
          (device w))
       (mkCamera (renderTarget (camera w)) jy true true)
       (fresh w))
    [].
Proof.
  intros Hs. cbv zeta.
  unfold onPreRender. step_through. rewrite Hs. reflexivity.
Qed.

(** With no active sample the hook throws once [store] is written; the
    matrix and the bias are as before. *)
Lemma onPreRender_throws (w : World) :
  (length (samples (this w)) <= sampleId (this w))%nat ->
  value (onPreRender w) = TypeError /\
  camera (after (onPreRender w)) = camera w /\
  device (after (onPreRender w)) = device w.
Proof.
  intros Hle. apply nth_error_None in Hle.
  unfold onPreRender. step_through. rewrite Hle. auto.
Qed.

(** What one scene render leaves in the two principal-point entries: the
    values entries 12 and 13 had, whatever entries 8 and 9 were. *)
Lemma renderScene_principal_point (w : World) (s : Vec2) :
  nth_error (samples (this w)) (sampleId (this w)) = Some s ->
  length (projectionMatrix (camera w)) = 16%nat ->
  let r := renderScene w in
  value r = Normal /\
  data_get 8 (projectionMatrix (camera (after r)))
  = data_get 12 (projectionMatrix (camera w)) /\
  data_get 9 (projectionMatrix (camera (after r)))
  = data_get 13 (projectionMatrix (camera w)).
Proof.
  intros Hs Hlen. cbv zeta.
  unfold renderScene. rewrite (bind_run _ _ _ (onPreRender_run w Hs)).
  unfold onPostRender. step_through.
  cbn [set_store store projectionMatrix set_projectionMatrix vx vy].
  split; [reflexivity|]. split.
  - rewrite data_get_set_other by lia.
    apply data_get_set_same. rewrite !data_set_length, Hlen. lia.
  - apply data_get_set_same. rewrite !data_set_length, Hlen. lia.
Qed.

(** C1.  The jitter round trip at an off-centre projection matrix
    (principal point 1/2, 1/4; entries 12 and 13 zero): the render
    completes, and afterwards both principal-point entries are 0, the
    values the hook saved from entries 12 and 13, not the 1/2 and 1/4 they
    held before the perturbation. *)
Theorem jitter_round_trip_off_centre :
  let w := singleSampleWorld (Some sceneTarget) in
  let r := renderScene w in
  value r = Normal /\
  data_get 8 (projectionMatrix (camera w)) = 1/2 /\
  data_get 9 (projectionMatrix (camera w)) = 1/4 /\
  data_get 8 (projectionMatrix (camera (after r))) = 0 /\
  data_get 9 (projectionMatrix (camera (after r))) = 0 /\
  data_get 8 (projectionMatrix (camera (after r)))
  <> data_get 8 (projectionMatrix (camera w)).
Proof.
  cbv zeta.
  assert (Hs : nth_error (samples (this (singleSampleWorld (Some sceneTarget))))
                 (sampleId (this (singleSampleWorld (Some sceneTarget))))
               = Some (mkVec2 ((INR 0 + 1/2) / INR 1 * 2 - 1)
                              ((INR 0 + 1/2) / INR 1 * 2 - 1)))
    by reflexivity.
  destruct (renderScene_principal_point _ Hs eq_refl) as (Hv & H8 & H9).
  repeat split; try assumption; try reflexivity.
  rewrite H8. unfold data_get. simpl. lra.
Qed.

(** C8.  Whenever the pre-render hook runs with an active sample, it
    completes and the bias uniform it leaves is 0 if the sample index is
    0 and -5 if the sample index is greater than 0; it is never any other
    value. *)
Theorem sampling_bias_two_levels (w : World) :
  (sampleId (this w) < length (samples (this w)))%nat ->
  let r := onPreRender w in
  let bias := globalTextureBias (scope (device (after r))) in
  value r = Normal /\
  (sampleId (this w) = 0%nat -> bias = 0) /\
  ((0 < sampleId (this w))%nat -> bias = -5.0) /\
  (bias = 0 \/ bias = -5.0).
Proof.
  intros Hlt. cbv zeta.
  destruct (nth_error (samples (this w)) (sampleId (this w))) as [s|] eqn:Hs.
  2:{ apply nth_error_None in Hs. lia. }
  rewrite (onPreRender_run w Hs).
  cbn [value after device scope set_scope globalTextureBias].
  destruct (sampleId (this w)) as [|k]; cbn [Nat.eqb].
  - split; [reflexivity|]. split; [intros _; lra|].
    split; [intros H; inversion H|]. left. lra.
  - split; [reflexivity|]. split; [discriminate|].
    split; [reflexivity|]. right. reflexivity.
Qed.

Lemma sampling_bias_two_levels_witness :
  let w := accumulatingWorld in
  let r := onPreRender w in
  let bias := globalTextureBias (scope (device (after r))) in
  value r = Normal /\
  (sampleId (this w) = 0%nat -> bias = 0) /\
  ((0 < sampleId (this w))%nat -> bias = -5.0) /\
  (bias = 0 \/ bias = -5.0).
Proof.
  apply (sampling_bias_two_levels accumulatingWorld). vm_compute. lia.
Defined.

(* ================================================================= *)
(** ** Release *)

(** C9.  [destroy()] on any instance, whichever of its four members are
    null: it issues exactly one destroy per member held and none for a
    null one, leaves all four references null and everything else as it
    was, and a second call issues nothing and leaves the same world. *)
Theorem destroy_safe_idempotent (w : World) :
  let r := destroy w in
  firstTexture (this (after r)) = None /\
  firstRenderTarget (this (after r)) = None /\
  accumTexture (this (after r)) = None /\
  accumRenderTarget (this (after r)) = None /\
  calls r = releases (this w) /\
  sampleId (this (after r)) = sampleId (this w) /\
  samples (this (after r)) = samples (this w) /\
  device (after r) = device w /\
  camera (after r) = camera w /\
  destroy (after r) = mkRun tt (after r) [].
Proof.
  cbv zeta. rewrite destroy_run. cbn.
  repeat split; try reflexivity.
Qed.

(* ================================================================= *)
(** ** The step *)

Lemma ensured_stale (w : World) :
  staleSize (this w) (device w) = true -> ensured w = recreated w.
Proof. intros H. unfold ensured, needsCreate. now rewrite H. Qed.

Lemma ensured_kept (w : World) (t : Texture) :
  accumTexture (this w) = Some t ->
  tex_width t = width (device w) ->
  tex_height t = height (device w) ->
  ensured w = w /\ ensureCalls w = [].
Proof.
  intros Ht Hw Hh.
  assert (Hs : staleSize (this w) (device w) = false).
  { unfold staleSize. rewrite Ht, Hw, Hh, !Nat.eqb_refl. reflexivity. }
  unfold ensured, ensureCalls, needsCreate. rewrite Hs, Ht. auto.
Qed.

(** The counter after a step, on every world. *)
Lemma prepareTexture_sampleId (w : World) :
  sampleId (this (after (prepareTexture w)))
  = advanced (sampleId (this w)) (length (samples (this w))).
Proof. rewrite prepareTexture_run. reflexivity. Qed.

Lemma prepareTexture_samples (w : World) :
  samples (this (after (prepareTexture w))) = samples (this w).
Proof.
  rewrite prepareTexture_run. cbn [after this set_sampleId samples].
  apply ensured_frame.
Qed.

Lemma prepareTexture_value (w : World) :
  value (prepareTexture w)
  = (advanced (sampleId (this w)) (length (samples (this w)))
     <? length (samples (this w)))%nat.
Proof. rewrite prepareTexture_run. reflexivity. Qed.

Lemma bufferWrites_app (cs1 cs2 : list Call) :
  bufferWrites (cs1 ++ cs2) = bufferWrites cs1 ++ bufferWrites cs2.
Proof.
  induction cs1 as [|c cs1 IH]; simpl; [reflexivity|].
  destruct c; auto. destruct (target q); simpl; now rewrite IH.
Qed.

Lemma bufferWrites_ensureCalls (w : World) :
  bufferWrites (ensureCalls w) = [].
Proof.
  unfold ensureCalls, releases, creations. rewrite !bufferWrites_app.
  destruct (staleSize (this w) (device w)), (needsCreate w),
    (firstTexture (this w)), (firstRenderTarget (this w)),
    (accumRenderTarget (this w)), (accumTexture (this w)); reflexivity.
Qed.

(** C2, as the code has it.  When the accumulation texture's size differs
    from the device's at a step, the step first destroys every member the
    instance holds, then builds all four objects anew at the device's
    size, and the instance holds the new ones afterwards.  The sample
    counter is not reset: it advances exactly as in any other step (one
    more if it was below the number of samples, unchanged otherwise). *)
Theorem resize_reallocates (w : World) :
  staleSize (this w) (device w) = true ->
  let r := prepareTexture w in
  let d := device w in
  let n := fresh w in
  let f := pixelFormat (this w) in
  (exists rest,
     calls r = releases (this w) ++ creations n (width d) (height d) f ++ rest) /\
  firstTexture (this (after r)) = Some (firstTextureAt n (width d) (height d)) /\
  firstRenderTarget (this (after r)) = Some (firstTargetAt n (width d) (height d)) /\
  accumTexture (this (after r)) = Some (accumTextureAt n (width d) (height d) f) /\
  accumRenderTarget (this (after r)) = Some (accumTargetAt n (width d) (height d) f) /\
  sampleId (this (after r))
  = advanced (sampleId (this w)) (length (samples (this w))).
Proof.
  intros Hstale. cbv zeta. rewrite prepareTexture_run.
  rewrite (ensured_stale w Hstale).
  unfold ensureCalls, needsCreate. rewrite Hstale. cbn [orb].
  cbn [value after calls this].
  split.
  - eexists. rewrite <- app_assoc. reflexivity.
  - repeat split; reflexivity.
Qed.

Lemma resize_reallocates_witness :
  let w := resizedWorld in
  let r := prepareTexture w in
  let d := device w in
  let n := fresh w in
  let f := pixelFormat (this w) in
  (exists rest,
     calls r = releases (this w) ++ creations n (width d) (height d) f ++ rest) /\
  firstTexture (this (after r)) = Some (firstTextureAt n (width d) (height d)) /\
  firstRenderTarget (this (after r)) = Some (firstTargetAt n (width d) (height d)) /\
  accumTexture (this (after r)) = Some (accumTextureAt n (width d) (height d) f) /\
  accumRenderTarget (this (after r)) = Some (accumTargetAt n (width d) (height d) f) /\
  sampleId (this (after r))
  = advanced (sampleId (this w)) (length (samples (this w))).
Proof.
  apply (resize_reallocates resizedWorld). vm_compute. reflexivity.
Defined.

(** C2, as stated, fails.  Two of four samples are accumulated in 4 x 4
    buffers and the device is resized to 8 x 8: the next step rebuilds the
    buffers and then blends sample 2 into the new accumulation buffer with
    weight 1/3; the counter goes to 3, not back to 0. *)
Lemma resize_keeps_sampleId :
  let w := resizedWorld in
  let r := prepareTexture w in
  staleSize (this w) (device w) = true /\
  sampleId (this w) = 2%nat /\
  sampleId (this (after r)) = 3%nat /\
  sampleId (this (after r)) <> 0%nat /\
  bufferWrites (calls r)
  = [accumQuad (this (after r)) sceneTexture (accumGL 2)].
Proof.
  cbv zeta. vm_compute.
  split; [reflexivity|]. split; [reflexivity|]. split; [reflexivity|].
  split; [discriminate|]. reflexivity.
Qed.

(** C3, as the code has it.  A step increments the sample counter
    exactly when the counter is below the number of samples before the
    step, whether or not a scene render target was there to read: without
    one, the step writes neither buffer and the sample is counted all the
    same; with one, the accumulation pass for the sample is among the
    step's commands. *)
Theorem sample_counted_regardless (w : World) :
  let r := prepareTexture w in
  let sampleCnt := length (samples (this w)) in
  sampleId (this (after r)) = advanced (sampleId (this w)) sampleCnt /\
  (renderTarget (camera w) = None -> bufferWrites (calls r) = []) /\
  (forall rt, renderTarget (camera w) = Some rt ->
     (sampleId (this w) < sampleCnt)%nat ->
     exists g,
       In (DrawQuadWithShader (accumQuad (this (ensured w)) (colorBuffer rt) g))
          (calls r)).
Proof.
  cbv zeta. split; [apply prepareTexture_sampleId|].
  destruct (ensured_frame w) as (Hd & Hc & Hsid & Hss & _).
  rewrite prepareTexture_run. cbn [calls]. split.
  - intros Hrt. rewrite accumulate_run, Hc, Hrt.
    rewrite !bufferWrites_app, bufferWrites_ensureCalls. reflexivity.
  - intros rt Hrt Hlt. rewrite accumulate_run, Hc, Hrt, Hsid.
    apply Nat.ltb_lt in Hlt. rewrite Hlt.
    destruct (sampleId (this w) =? 0)%nat.
    + rewrite storeFirst_run. eexists.
      apply in_or_app. right. apply in_or_app. left. left. reflexivity.
    + rewrite blendNext_run. eexists.
      apply in_or_app. right. apply in_or_app. left.
      cbn [calls]. apply in_or_app. left. right. right. left. reflexivity.
Qed.

(** C3, as stated, fails.  A fresh single-sample instance, no scene render
    target: the step writes neither buffer, and the counter goes from 0
    to 1. *)
Lemma sample_counted_without_writes :
  let w := singleSampleWorld None in
  let r := prepareTexture w in
  renderTarget (camera w) = None /\
  sampleId (this w) = 0%nat /\
  bufferWrites (calls r) = [] /\
  sampleId (this (after r)) = 1%nat.
Proof.
  cbv zeta. vm_compute. repeat split; reflexivity.
Qed.

(** A step on a converged instance whose buffers fit the device. *)
Lemma prepareTexture_converged (w : World) (t : Texture) :
  sampleId (this w) = length (samples (this w)) ->
  accumTexture (this w) = Some t ->
  tex_width t = width (device w) ->
  tex_height t = height (device w) ->
  prepareTexture w =
  mkRun false
    (mkWorld (this w) (withUniforms (firstTexture (this w)) 1.0 1.0 (device w))
       (camera w) (fresh w))
    [DrawQuadWithShader (presentQuad (this w) (gl (device w)))].
Proof.
  intros Hsid Ht Hw Hh.
  destruct (ensured_kept w Ht Hw Hh) as [Hv Hcs].
  assert (Hadv : advanced (sampleId (this w)) (length (samples (this w)))
                 = sampleId (this w)).
  { unfold advanced. rewrite Hsid, Nat.ltb_irrefl. reflexivity. }
  assert (Hacc : accumulate (length (samples (this w))) w = mkRun tt w []).
  { rewrite accumulate_run, Hsid, Nat.ltb_irrefl.
    destruct (renderTarget (camera w)); reflexivity. }
  rewrite prepareTexture_run, Hv, Hcs, Hadv, Hacc.
  cbn [value after calls app device].
  replace (set_sampleId (sampleId (this w)) (this w)) with (this w)
    by (destruct (this w); reflexivity).
  rewrite Hsid, Nat.ltb_irrefl. reflexivity.
Qed.

(** C6, as the code has it.  On a converged instance (counter equal to
    the number of samples) whose accumulation texture exists at the
    device's size, a step issues a single command, the copy of the first
    texture to the back buffer: no buffer is written, the instance -- its
    output texture and its counter -- is unchanged, and the step returns
    false.  A second step does the same and leaves the same world. *)
Theorem converged_step_idle (w : World) (t : Texture) :
  sampleId (this w) = length (samples (this w)) ->
  accumTexture (this w) = Some t ->
  tex_width t = width (device w) ->
  tex_height t = height (device w) ->
  let r := prepareTexture w in
  let r' := prepareTexture (after r) in
  value r = false /\
  this (after r) = this w /\
  calls r = [DrawQuadWithShader (presentQuad (this w) (gl (device w)))] /\
  bufferWrites (calls r) = [] /\
  value r' = false /\
  calls r' = calls r /\
  after r' = after r.
Proof.
  intros Hsid Ht Hw Hh. cbv zeta.
  rewrite (prepareTexture_converged w Hsid Ht Hw Hh).
  cbn [value after calls].
  rewrite (@prepareTexture_converged _ t) by assumption.
  cbn. repeat split; reflexivity.
Qed.

Lemma converged_step_idle_witness :
  let w := convergedWorld in
  let r := prepareTexture w in
  let r' := prepareTexture (after r) in
  value r = false /\
  this (after r) = this w /\
  calls r = [DrawQuadWithShader (presentQuad (this w) (gl (device w)))] /\
  bufferWrites (calls r) = [] /\
  value r' = false /\
  calls r' = calls r /\
  after r' = after r.
Proof.
  apply (@converged_step_idle convergedWorld
           (accumTextureAt 2 4 4 PIXELFORMAT_RGBA16F));
    vm_compute; reflexivity.
Defined.

(** C6, as stated, fails.  The instance is converged (4 of 4 samples)
    when the device is resized from 4 x 4 to 8 x 8: the next step
    destroys the output texture and puts a new, never written one in its
    place. *)
Lemma converged_resize_replaces_output :
  let w := convergedResizedWorld in
  let r := prepareTexture w in
  sampleId (this w) = length (samples (this w)) /\
  firstTexture (this w) = Some (firstTextureAt 2 4 4) /\
  In (TextureDestroy (firstTextureAt 2 4 4)) (calls r) /\
  firstTexture (this (after r)) = Some (firstTextureAt 6 8 8) /\
  firstTexture (this (after r)) <> firstTexture (this w) /\
  bufferWrites (calls r) = [].
Proof.
  cbv zeta. vm_compute.
  split; [reflexivity|]. split; [reflexivity|].
  split; [left; reflexivity|]. split; [reflexivity|].
  split; [discriminate|]. reflexivity.
Qed.

(** The three powers the passes use are pairwise distinguishable from
    the resolve power. *)
Lemma gamma_powers : 1.0 <> 1.0 / gamma /\ gamma <> 1.0 / gamma.
Proof. unfold gamma. split; lra. Qed.

Lemma draws_app (cs1 cs2 : list Call) :
  draws (cs1 ++ cs2) = draws cs1 ++ draws cs2.
Proof.
  induction cs1 as [|c cs1 IH]; simpl; [reflexivity|].
  destruct c; auto. simpl. now rewrite IH.
Qed.

Lemma draws_ensureCalls (w : World) : draws (ensureCalls w) = [].
Proof.
  unfold ensureCalls, releases, creations. rewrite !draws_app.
  destruct (staleSize (this w) (device w)), (needsCreate w),
    (firstTexture (this w)), (firstRenderTarget (this w)),
    (accumRenderTarget (this w)), (accumTexture (this w)); reflexivity.
Qed.

(** A step from the reset state with at least one sample configured. *)
Lemma prepareTexture_first (w : World) :
  sampleId (this w) = 0%nat ->
  (1 <= length (samples (this w)))%nat ->
  draws (calls (prepareTexture w))
  = match renderTarget (camera w) with
    | Some rt => [accumQuad (this (ensured w)) (colorBuffer rt) (gl (device w));
                  firstQuad (this (ensured w)) (colorBuffer rt) (gl (device w));
                  presentQuad (this (ensured w)) (gl (device w))]
    | None => [presentQuad (this (ensured w)) (gl (device w))]
    end.
Proof.
  intros Hsid Hcnt.
  destruct (ensured_frame w) as (Hd & Hc & Hsid' & Hss & _).
  rewrite prepareTexture_run. cbn [calls].
  rewrite !draws_app, draws_ensureCalls, accumulate_run.
  rewrite Hc, Hsid', Hsid.
  assert (Hlt : (0 <? length (samples (this w)))%nat = true)
    by (apply Nat.ltb_lt; lia).
  rewrite Hlt.
  destruct (renderTarget (camera w)) as [rt|]; cbn [Nat.eqb].
  - rewrite storeFirst_run. cbn. rewrite Hd. reflexivity.
  - cbn. rewrite Hd. reflexivity.
Qed.

(** A step in the blend branch. *)
Lemma prepareTexture_blend (w : World) (rt : RenderTarget) :
  renderTarget (camera w) = Some rt ->
  (0 < sampleId (this w) < length (samples (this w)))%nat ->
  let m := this (ensured w) in
  let sid := sampleId (this w) in
  let g := gl (blendedDevice sid (device w)) in
  draws (calls (prepareTexture w))
  = accumQuad m (colorBuffer rt) (accumGL sid)
    :: (if isLast sid (length (samples (this w))) then [resolveQuad m g] else [])
    ++ [presentQuad m g].
Proof.
  intros Hrt [Hpos Hlt]. cbv zeta.
  destruct (ensured_frame w) as (Hd & Hc & Hsid & Hss & _).
  rewrite prepareTexture_run. cbn [calls].
  rewrite !draws_app, draws_ensureCalls, accumulate_run.
  rewrite Hc, Hrt, Hsid.
  apply Nat.ltb_lt in Hlt. rewrite Hlt.
  assert (Hnz : (sampleId (this w) =? 0)%nat = false) by (apply Nat.eqb_neq; lia).
  rewrite Hnz, blendNext_run. cbn [calls after device]. rewrite Hsid, Hd.
  destruct (isLast (sampleId (this w)) (length (samples (this w)))); reflexivity.
Qed.

(** C7.  With a single sample configured, a step from the reset state
    (counter 0) returns false and leaves the counter at 1.  Its quads are,
    in order, the scene colour drawn with power gamma into the
    accumulation target, the scene colour drawn with power 1 into the
    first target, and the copy of the first texture to the back buffer
    (only the copy when the camera has no render target); no quad uses the
    resolve power 1/gamma. *)
Theorem single_sample_step (w : World) :
  length (samples (this w)) = 1%nat ->
  sampleId (this w) = 0%nat ->
  let r := prepareTexture w in
  let m := this (ensured w) in
  let g := gl (device w) in
  value r = false /\
  sampleId (this (after r)) = 1%nat /\
  draws (calls r)
  = match renderTarget (camera w) with
    | Some rt => [accumQuad m (colorBuffer rt) g;
                  firstQuad m (colorBuffer rt) g;
                  presentQuad m g]
    | None => [presentQuad m g]
    end /\
  (forall q, In q (draws (calls r)) -> q_power q <> 1.0 / gamma).
Proof.
  intros Hcnt Hsid. cbv zeta.
  rewrite prepareTexture_first by (rewrite ?Hcnt; first [assumption | lia]).
  repeat split.
  - rewrite prepareTexture_value, Hsid, Hcnt. reflexivity.
  - rewrite prepareTexture_sampleId, Hsid, Hcnt. reflexivity.
  - intros q Hq. destruct gamma_powers as [H1 Hg].
    destruct (renderTarget (camera w)); simpl in Hq;
      repeat (destruct Hq as [<-|Hq]; [simpl; assumption|]); contradiction.
Qed.

Lemma single_sample_step_witness :
  let w := singleSampleWorld (Some sceneTarget) in
  let r := prepareTexture w in
  let m := this (ensured w) in
  let g := gl (device w) in
  value r = false /\
  sampleId (this (after r)) = 1%nat /\
  draws (calls r)
  = match renderTarget (camera w) with
    | Some rt => [accumQuad m (colorBuffer rt) g;
                  firstQuad m (colorBuffer rt) g;
                  presentQuad m g]
    | None => [presentQuad m g]
    end /\
  (forall q, In q (draws (calls r)) -> q_power q <> 1.0 / gamma).
Proof.
  apply (single_sample_step (singleSampleWorld (Some sceneTarget)));
    vm_compute; reflexivity.
Defined.

(** The device a step of the blend branch leaves, but for the uniforms:
    the one the blend pass leaves. *)
Lemma prepareTexture_blend_device (w : World) (rt : RenderTarget) :
  renderTarget (camera w) = Some rt ->
  (0 < sampleId (this w) < length (samples (this w)))%nat ->
  let d := blendedDevice (sampleId (this w)) (device w) in
  let d' := device (after (prepareTexture w)) in
  gl d' = gl d /\
  deviceBlend d' = deviceBlend d /\
  separateAlphaBlend d' = separateAlphaBlend d.
Proof.
  intros Hrt [Hpos Hlt]. cbv zeta.
  destruct (ensured_frame w) as (Hd & Hc & Hsid & Hss & _).
  rewrite prepareTexture_run. cbn [after device].
  rewrite accumulate_run, Hc, Hrt, Hsid.
  apply Nat.ltb_lt in Hlt. rewrite Hlt.
  assert (Hnz : (sampleId (this w) =? 0)%nat = false) by (apply Nat.eqb_neq; lia).
  rewrite Hnz, blendNext_run. cbn [after device]. rewrite Hsid, Hd.
  destruct (isLast (sampleId (this w)) (length (samples (this w))));
    repeat split; reflexivity.
Qed.

(** C10.  The blend function is not restored.  A step of the blend
    branch (a scene render target, the counter above 0 and below the
    number of samples) reads the four factors on the device's record,
    sets the constant-alpha function on the context through [device.gl],
    and hands the four factors back to [setBlendFunctionSeparate].  The
    record never changed, so the record is as before.  The call,
    finding its arguments on record, reaches the context only when the
    record is not marked separate.  When it is marked separate the
    context keeps the constant-alpha function after the step: at the
    second step of a 2 x 2 instance on a device whose caller set
    ordinary alpha blending through [setBlendFunctionSeparate], the
    context goes from the caller's function to the constant-alpha
    function while the record still names the caller's. *)
Theorem blend_function_not_restored :
  (forall (w : World) (rt : RenderTarget),
     renderTarget (camera w) = Some rt ->
     (0 < sampleId (this w) < length (samples (this w)))%nat ->
     let r := prepareTexture w in
     deviceBlend (device (after r)) = deviceBlend (device w) /\
     In (SetBlendFunctionSeparate (deviceBlend (device w))) (calls r) /\
     (separateAlphaBlend (device w) = true ->
      gl_blendFunc (gl (device (after r))) = accumBlendFunc) /\
     (separateAlphaBlend (device w) = false ->
      gl_blendFunc (gl (device (after r))) = deviceBlend (device w) /\
      separateAlphaBlend (device (after r)) = true)) /\
  (let w := firstBlendWorld in
   let r := prepareTexture w in
   renderTarget (camera w) = Some sceneTarget /\
   sampleId (this w) = 1%nat /\ length (samples (this w)) = 4%nat /\
   separateAlphaBlend (device w) = true /\
   deviceBlend (device w) = callerBlend /\
   gl_blendFunc (gl (device w)) = callerBlend /\
   deviceBlend (device (after r)) = callerBlend /\
   gl_blendFunc (gl (device (after r))) = accumBlendFunc /\
   accumBlendFunc <> callerBlend).
Proof.
  assert (Hgen : forall (w : World) (rt : RenderTarget),
     renderTarget (camera w) = Some rt ->
     (0 < sampleId (this w) < length (samples (this w)))%nat ->
     let r := prepareTexture w in
     deviceBlend (device (after r)) = deviceBlend (device w) /\
     In (SetBlendFunctionSeparate (deviceBlend (device w))) (calls r) /\
     (separateAlphaBlend (device w) = true ->
      gl_blendFunc (gl (device (after r))) = accumBlendFunc) /\
     (separateAlphaBlend (device w) = false ->
      gl_blendFunc (gl (device (after r))) = deviceBlend (device w) /\
      separateAlphaBlend (device (after r)) = true)).
  { intros w rt Hrt Hrange. cbv zeta.
    destruct (prepareTexture_blend_device w Hrt Hrange) as (Hgl & Hrec & Hsep).
    cbv zeta in Hgl, Hrec, Hsep. rewrite Hgl, Hrec, Hsep.
    split; [|split; [|split]].
    - unfold blendedDevice. destruct (separateAlphaBlend (device w)); reflexivity.
    - destruct Hrange as [Hpos Hlt].
      destruct (ensured_frame w) as (Hd & Hc & Hsid & Hss & _).
      rewrite prepareTexture_run. cbn [calls].
      rewrite accumulate_run, Hc, Hrt, Hsid.
      apply Nat.ltb_lt in Hlt. rewrite Hlt.
      assert (Hnz : (sampleId (this w) =? 0)%nat = false)
        by (apply Nat.eqb_neq; lia).
      rewrite Hnz, blendNext_run. cbn [calls]. rewrite Hd.
      apply in_or_app. right. apply in_or_app. left.
      apply in_or_app. left. right. right. right. left. reflexivity.
    - intros Hon. unfold blendedDevice. rewrite Hon. reflexivity.
    - intros Hoff. unfold blendedDevice. rewrite Hoff. split; reflexivity. }
  split; [exact Hgen|].
  cbv zeta.
  assert (Hrt : renderTarget (camera firstBlendWorld) = Some sceneTarget)
    by (vm_compute; reflexivity).
  assert (Hsid : sampleId (this firstBlendWorld) = 1%nat)
    by (vm_compute; reflexivity).
  assert (Hlen : length (samples (this firstBlendWorld)) = 4%nat)
    by (vm_compute; reflexivity).
  assert (Hsep : separateAlphaBlend (device firstBlendWorld) = true)
    by (vm_compute; reflexivity).
  assert (Hrec : deviceBlend (device firstBlendWorld) = callerBlend)
    by (vm_compute; reflexivity).
  assert (Hctx : gl_blendFunc (gl (device firstBlendWorld)) = callerBlend)
    by (vm_compute; reflexivity).
  destruct (Hgen firstBlendWorld sceneTarget Hrt) as (Hrec' & _ & Hon & _);
    [rewrite Hsid, Hlen; lia|].
  cbv zeta in Hrec', Hon.
  split; [exact Hrt|]. split; [exact Hsid|]. split; [exact Hlen|].
  split; [exact Hsep|]. split; [exact Hrec|]. split; [exact Hctx|].
  split; [rewrite Hrec'; exact Hrec|].
  split; [apply Hon; exact Hsep|].
  discriminate.
Qed.

(* ================================================================= *)
(** ** The state machine over many steps *)

Lemma stepN_samples (k : nat) (w : World) :
  samples (this (stepN k w)) = samples (this w).
Proof.
  revert w. induction k as [|k IH]; intros w; simpl; [reflexivity|].
  rewrite IH. apply prepareTexture_samples.
Qed.

(** [k] steps that all find the counter below the number of samples. *)
Lemma stepN_counts (k : nat) (w : World) :
  (sampleId (this w) + k <= length (samples (this w)))%nat ->
  sampleId (this (stepN k w)) = (sampleId (this w) + k)%nat /\
  stepResults k w
  = map (fun i => (S i <? length (samples (this w)))%nat)
        (seq (sampleId (this w)) k).
Proof.
  revert w. induction k as [|k IH]; intros w Hle; simpl.
  - split; [lia|reflexivity].
  - assert (Hadv : advanced (sampleId (this w)) (length (samples (this w)))
                   = S (sampleId (this w))).
    { unfold advanced.
      assert (H : (sampleId (this w) <? length (samples (this w)))%nat = true)
        by (apply Nat.ltb_lt; lia).
      now rewrite H. }
    specialize (IH (after (prepareTexture w))).
    rewrite prepareTexture_samples, prepareTexture_sampleId, Hadv in IH.
    destruct IH as [IHsid IHres]; [lia|].
    split; [lia|].
    rewrite prepareTexture_value, Hadv, IHres. reflexivity.
Qed.

(** X1.  A full run from the reset state: with [n >= 1] samples
    configured, the first [n - 1] steps return true, the [n]-th returns
    false, the counter then equals [n], and the sample list is the one
    the run started with. *)
Theorem full_run_converges (w : World) :
  sampleId (this w) = 0%nat ->
  (1 <= length (samples (this w)))%nat ->
  let n := length (samples (this w)) in
  stepResults n w = repeat true (n - 1) ++ [false] /\
  sampleId (this (stepN n w)) = n /\
  samples (this (stepN n w)) = samples (this w).
Proof.
  intros Hsid Hn. cbv zeta.
  destruct (stepN_counts (length (samples (this w))) w) as [Hcount Hres]; [lia|].
  rewrite Hsid in Hcount, Hres. simpl in Hcount.
  split; [|split; [exact Hcount|apply stepN_samples]].
  rewrite Hres.
  remember (length (samples (this w))) as n eqn:En. clear - Hn.
  destruct n as [|k]; [lia|].
  replace (S k - 1)%nat with k by lia.
  rewrite seq_S, map_app. cbn [map Nat.add]. f_equal.
  - apply (nth_ext _ _ true true).
    + now rewrite length_map, length_seq, repeat_length.
    + intros i Hi. rewrite length_map, length_seq in Hi.
      rewrite nth_repeat.
      rewrite (nth_indep _ true (S 0 <? S k)%nat) by (now rewrite length_map, length_seq).
      rewrite (map_nth (fun i => (S i <? S k)%nat)), seq_nth by exact Hi.
      apply Nat.ltb_lt. lia.
  - now rewrite Nat.ltb_irrefl.
Qed.

Lemma full_run_converges_witness :
  stepResults 4 twoByTwoWorld = [true; true; true; false] /\
  sampleId (this (stepN 4 twoByTwoWorld)) = 4%nat /\
  samples (this (stepN 4 twoByTwoWorld)) = samples (this twoByTwoWorld).
Proof.
  apply (full_run_converges twoByTwoWorld); [reflexivity | simpl; lia].
Defined.

(** X2.  The quads of a step in the blend branch (a scene render target,
    the counter above 0 and below the number of samples): the
    accumulation quad under the constant-alpha function and constant,
    then -- only when the sample is the last one -- the resolve quad,
    which reads the accumulation texture with power [1/gamma] into the
    first target with blending disabled, then the copy to the back
    buffer.  The resolve quad and the copy are issued under the context
    state the blend pass leaves: the new blend constant, and the
    constant-alpha function still when the device's record is marked
    separate, the function on record otherwise. *)
Theorem resolve_at_last_sample (w : World) (rt : RenderTarget) :
  renderTarget (camera w) = Some rt ->
  (0 < sampleId (this w) < length (samples (this w)))%nat ->
  let m := this (ensured w) in
  let sid := sampleId (this w) in
  let n := length (samples (this w)) in
  let g := gl (blendedDevice sid (device w)) in
  (S sid = n ->
   draws (calls (prepareTexture w))
   = [accumQuad m (colorBuffer rt) (accumGL sid); resolveQuad m g; presentQuad m g]) /\
  ((S sid < n)%nat ->
   draws (calls (prepareTexture w))
   = [accumQuad m (colorBuffer rt) (accumGL sid); presentQuad m g]) /\
  gl_blendColor g = mkColor4 0 0 0 (blendAlpha sid) /\
  gl_blendFunc g
  = (if separateAlphaBlend (device w) then accumBlendFunc
     else deviceBlend (device w)).
Proof.
  intros Hrt Hrange. cbv zeta.
  rewrite (prepareTexture_blend w Hrt Hrange). unfold isLast.
  split; [|split; [|unfold blendedDevice;
                    destruct (separateAlphaBlend (device w));
                    split; reflexivity]].
  - intros Hlast.
    assert (E : (Z.of_nat (sampleId (this w))
                 =? Z.of_nat (length (samples (this w))) - 1)%Z = true)
      by (apply Z.eqb_eq; lia).
    rewrite E. reflexivity.
  - intros Hmid.
    assert (E : (Z.of_nat (sampleId (this w))
                 =? Z.of_nat (length (samples (this w))) - 1)%Z = false)
      by (apply Z.eqb_neq; lia).
    rewrite E. reflexivity.
Qed.

Lemma resolve_at_last_sample_witness :
  let w := stepN 3 twoByTwoWorld in
  let m := this (ensured w) in
  let g := gl (blendedDevice 3 (device w)) in
  draws (calls (prepareTexture w))
  = [accumQuad m sceneTexture (accumGL 3); resolveQuad m g; presentQuad m g].
Proof.
  cbv zeta.
  destruct (@resolve_at_last_sample (stepN 3 twoByTwoWorld) sceneTarget) as [Hlast _].
  - vm_compute. reflexivity.
  - vm_compute. lia.
  - apply Hlast. vm_compute. reflexivity.
Defined.

(** X3.  The reset law: [moved()] followed by one step takes the
    first-sample path however many samples were accumulated before --
    the scene colour is drawn with power gamma into the accumulation
    target and with power 1 into the first target, then the first
    texture is copied to the back buffer -- and leaves the counter
    at 1.  [moved()] itself releases nothing. *)
Theorem reset_then_step (w : World) (rt : RenderTarget) :
  renderTarget (camera w) = Some rt ->
  (1 <= length (samples (this w)))%nat ->
  let r := (moved ;; prepareTexture) w in
  let m := this (ensured (after (moved w))) in
  let g := gl (device w) in
  calls (moved w) = [] /\
  draws (calls r)
  = [accumQuad m (colorBuffer rt) g; firstQuad m (colorBuffer rt) g; presentQuad m g] /\
  sampleId (this (after r)) = 1%nat.
Proof.
  intros Hrt Hn. cbv zeta.
  rewrite (bind_run moved _ w (a := tt) eq_refl).
  cbn [value after calls app].
  split; [reflexivity|]. split.
  - rewrite prepareTexture_first by (cbn; first [reflexivity | assumption]).
    cbn [moved modifyThis after camera device]. rewrite Hrt. reflexivity.
  - rewrite prepareTexture_sampleId. cbn [moved modifyThis after this set_sampleId
      sampleId samples]. unfold advanced.
    assert (H : (0 <? length (samples (this w)))%nat = true) by (apply Nat.ltb_lt; lia).
    now rewrite H.
Qed.

Lemma reset_then_step_witness :
  let w := convergedWorld in
  let r := (moved ;; prepareTexture) w in
  let m := this (ensured (after (moved w))) in
  let g := gl (device w) in
  calls (moved w) = [] /\
  draws (calls r)
  = [accumQuad m sceneTexture g; firstQuad m sceneTexture g; presentQuad m g] /\
  sampleId (this (after r)) = 1%nat.
Proof.
  apply (@reset_then_step convergedWorld sceneTarget);
    [vm_compute; reflexivity | vm_compute; lia].
Defined.

(* ================================================================= *)
(** ** The invariant of the accumulation state *)

Lemma linked_recreated (w : World) : linked (this (recreated w)).
Proof. unfold linked. cbn. auto. Qed.

Lemma sized_recreated (w : World) : sized (this (recreated w)) (device w).
Proof.
  unfold sized. cbn. do 2 eexists. repeat split; reflexivity.
Qed.

Lemma staleSize_false (m : Multiframe) (d : GraphicsDevice) (t : Texture) :
  accumTexture m = Some t ->
  staleSize m d = false ->
  tex_width t = width d /\ tex_height t = height d.
Proof.
  unfold staleSize. intros -> H.
  apply orb_false_elim in H. destruct H as [Hw Hh].
  apply negb_false_iff in Hw, Hh.
  apply Nat.eqb_eq in Hw, Hh. auto.
Qed.

Lemma ensured_linked_sized (w : World) :
  linked (this w) ->
  linked (this (ensured w)) /\ sized (this (ensured w)) (device w).
Proof.
  intros Hl. unfold ensured, needsCreate.
  destruct (staleSize (this w) (device w)) eqn:Hstale; cbn [orb].
  - split; [apply linked_recreated|apply sized_recreated].
  - destruct (accumTexture (this w)) as [act|] eqn:Hact.
    + split; [exact Hl|].
      destruct (staleSize_false _ _ Hact Hstale) as [Hw Hh].
      unfold linked in Hl. rewrite Hact in Hl. unfold sized. rewrite Hact.
      destruct (firstTexture (this w)) as [ft|];
        destruct (firstRenderTarget (this w)); try contradiction;
        destruct (accumRenderTarget (this w)); try contradiction.
      destruct Hl as (_ & _ & Hfw & Hfh).
      exists ft, act. repeat split; congruence.
    + split; [apply linked_recreated|apply sized_recreated].
Qed.

Lemma linked_set_sampleId (n : nat) (m : Multiframe) :
  linked (set_sampleId n m) <-> linked m.
Proof. reflexivity. Qed.

Lemma advanced_le (sid n : nat) : (sid <= n)%nat -> (advanced sid n <= n)%nat.
Proof.
  unfold advanced. intros H.
  destruct (sid <? n)%nat eqn:E; [apply Nat.ltb_lt in E; lia|lia].
Qed.

(** X4.  The invariant of the accumulation state.  The constructor
    leaves an instance whose buffers hang together (none yet) and whose
    counter is within [0, samples.length]; [destroy()], [moved()], both
    render hooks, a resize of the canvas and a step keep both; and after
    a step both textures exist at the device's current size. *)
Theorem accumulation_state_invariant
  (random : nat -> R) (d : GraphicsDevice) (N : nat) :
  (linked (constructor random d N) /\ clamped (constructor random d N)) /\
  (forall w : World,
     linked (this w) -> clamped (this w) ->
     (linked (this (after (destroy w))) /\ clamped (this (after (destroy w)))) /\
     (linked (this (after (moved w))) /\ clamped (this (after (moved w)))) /\
     (linked (this (after (onPreRender w))) /\ clamped (this (after (onPreRender w)))) /\
     (linked (this (after (onPostRender w))) /\ clamped (this (after (onPostRender w)))) /\
     (forall cw ch,
        linked (this (hostResize cw ch w)) /\ clamped (this (hostResize cw ch w))) /\
     (linked (this (after (prepareTexture w))) /\
      clamped (this (after (prepareTexture w))) /\
      sized (this (after (prepareTexture w))) (device (after (prepareTexture w))))).
Proof.
  split.
  - split; [exact I|]. unfold clamped. cbn. lia.
  - intros w Hl Hc. repeat split.
    + rewrite destroy_run. exact I.
    + rewrite destroy_run. exact Hc.
    + exact Hl.
    + unfold clamped. cbn. lia.
    + unfold onPreRender. step_through.
      destruct (nth_error (samples (this w)) (sampleId (this w))); exact Hl.
    + unfold onPreRender. step_through.
      destruct (nth_error (samples (this w)) (sampleId (this w))); exact Hc.
    + exact Hl.
    + exact Hc.
    + exact Hl.
    + exact Hc.
    + rewrite prepareTexture_run. cbn [after this].
      apply linked_set_sampleId, ensured_linked_sized, Hl.
    + rewrite prepareTexture_run. unfold clamped.
      cbn [after this set_sampleId sampleId samples].
      destruct (ensured_frame w) as (_ & _ & _ & Hss & _). rewrite Hss.
      apply advanced_le, Hc.
    + rewrite prepareTexture_run. cbn [after this device].
      destruct (ensured_linked_sized w Hl) as [_ Hs].
      destruct (accumulate_frame (length (samples (this w))) (ensured w))
        as (_ & _ & Hw & Hh & _).
      destruct (ensured_frame w) as (Hd & _).
      rewrite Hd in Hw, Hh.
      destruct Hs as (ft & act & Hft & Hact & H1 & H2 & H3 & H4).
      exists ft, act.
      cbn [this firstTexture accumTexture set_sampleId].
      unfold withUniforms, set_scope. cbn [width height].
      rewrite Hw, Hh. repeat split; assumption.
Qed.

(** X5.  The pixel format of the accumulation buffer: 16-bit float when
    the device can render to half-float textures, else 32-bit float when
    it can render to float textures, else 8-bit RGBA; the constructor
    records that choice and [create()] builds the accumulation texture
    with it. *)
Theorem pixel_format_preference
  (random : nat -> R) (d : GraphicsDevice) (N : nat) :
  (extTextureHalfFloat d && textureHalfFloatRenderable d = true ->
   choosePixelFormat d = PIXELFORMAT_RGBA16F) /\
  (extTextureHalfFloat d && textureHalfFloatRenderable d = false ->
   extTextureFloat d && textureFloatRenderable d = true ->
   choosePixelFormat d = PIXELFORMAT_RGBA32F) /\
  (extTextureHalfFloat d && textureHalfFloatRenderable d = false ->
   extTextureFloat d && textureFloatRenderable d = false ->
   choosePixelFormat d = PIXELFORMAT_R8_G8_B8_A8) /\
  pixelFormat (constructor random d N) = choosePixelFormat d /\
  (forall w act,
     accumTexture (this (after (create w))) = Some act ->
     tex_format act = pixelFormat (this w)).
Proof.
  unfold choosePixelFormat, supportsFloat16, supportsFloat32.
  repeat split.
  - intros ->. reflexivity.
  - intros -> ->. reflexivity.
  - intros -> ->. reflexivity.
  - intros w act H. rewrite create_run in H. cbn in H.
    injection H as <-. reflexivity.
Qed.

(* ================================================================= *)
(** ** One scene render *)

(** One scene render with an active sample: the instance keeps its
    buffers and its counter, the device its size and blend state, the
    camera its render target. *)
Lemma renderScene_run (w : World) (s : Vec2) :
  nth_error (samples (this w)) (sampleId (this w)) = Some s ->
  exists st sc pm,
    renderScene w =
    mkRun Normal
      (mkWorld (set_store st (this w)) (set_scope sc (device w))
         (mkCamera (renderTarget (camera w)) pm true true) (fresh w))
      [].
Proof.
  intros Hs. unfold renderScene.
  rewrite (bind_run _ _ _ (onPreRender_run w Hs)).
  unfold onPostRender. step_through.
  cbn [set_projectionMatrix renderTarget projectionMatrix viewMatDirty
       viewProjMatDirty app].
  do 3 eexists. reflexivity.
Qed.

(* ================================================================= *)
(** ** The running mean *)

Lemma blendAlpha_inverse (j : nat) : blendAlpha j = 1 / INR (S j).
Proof. unfold blendAlpha. rewrite S_INR. lra. Qed.

Lemma INR_S_neq_0 (j : nat) : INR (S j) <> 0.
Proof. apply not_0_INR. discriminate. Qed.

(** Ordinary alpha blending and plain replacement both store an opaque
    fragment. *)
Lemma stores_callerBlend (c : Color4) : stores (mkWebGL callerBlend c).
Proof.
  intros s d Hs. unfold blendPixel. cbn. rewrite Hs. ring.
Qed.

Lemma stores_replace (fa fb : BlendFactor) (c : Color4) :
  stores (mkWebGL (mkBlendFunc ONE ZERO fa fb) c).
Proof.
  intros s d _. unfold blendPixel. cbn. ring.
Qed.

(** The recurrence keeps the mean: entered at step [k+1] with the mean
    [a] of [k] samples, it ends with the mean of all of them. *)
Lemma specRecurrence_mean (ss : list R) (k : nat) (a : R) :
  (1 <= k)%nat ->
  specRecurrence (S k) a ss = (a * INR k + sum ss) / INR (k + length ss).
Proof.
  revert k a. induction ss as [|s rest IH]; intros k a Hk.
  - simpl. rewrite Nat.add_0_r.
    assert (INR k <> 0) by (apply not_0_INR; lia). field. assumption.
  - cbn [specRecurrence sum fold_right length].
    rewrite IH by lia.
    replace (k + S (length rest))%nat with (S k + length rest)%nat by lia.
    f_equal. fold (sum rest).
    pose proof (INR_S_neq_0 k) as Hk'. rewrite S_INR in *.
    generalize dependent (INR k). intros n Hn. field. exact Hn.
Qed.

Lemma specRecurrence_from_first (s1 : R) (rest : list R) :
  specRecurrence 2 s1 rest = mean (s1 :: rest).
Proof.
  rewrite specRecurrence_mean by lia. unfold mean. simpl sum. simpl length.
  f_equal. simpl. lra.
Qed.

(** Passes all drawn with blending enabled follow the recurrence of the
    specification. *)
Lemma passes_on (on : nat -> bool) (es : list R) :
  forall (j : nat) (a : R),
    (forall i, (j <= i < j + length es)%nat -> on i = true) ->
    passes on j a es = specRecurrence (S j) a es.
Proof.
  induction es as [|e rest IH]; intros j a Hon; [reflexivity|].
  cbn [passes specRecurrence].
  rewrite (Hon j) by (cbn [length]; lia).
  apply IH. intros i Hi. apply Hon. cbn [length]. lia.
Qed.

Lemma last_nonempty (l : list R) (a b : R) :
  l <> [] -> last l a = last l b.
Proof.
  induction l as [|x l IH]; intros Hne; [congruence|].
  destruct l as [|y l]; [reflexivity|].
  cbn [last] in *. apply IH. discriminate.
Qed.

Lemma last_map (f : R -> R) (l : list R) (d : R) :
  last (map f l) (f d) = f (last l d).
Proof.
  induction l as [|x l IH]; [reflexivity|].
  destruct l as [|y l]; [reflexivity|].
  cbn [map last] in *. exact IH.
Qed.

(** Passes all drawn with blending disabled leave the colour of the last
    one. *)
Lemma passes_off (on : nat -> bool) (es : list R) :
  forall (j : nat) (a : R),
    (forall i, (j <= i < j + length es)%nat -> on i = false) ->
    passes on j a es = last es a.
Proof.
  induction es as [|e rest IH]; intros j a Hoff; [reflexivity|].
  cbn [passes].
  rewrite (Hoff j) by (cbn [length]; lia).
  rewrite IH by (intros i Hi; apply Hoff; cbn [length]; lia).
  destruct rest as [|r rest]; [reflexivity|].
  apply (@last_nonempty (r :: rest) e a). discriminate.
Qed.

(** Passes of one colour over that colour leave it, blending or not. *)
Lemma passes_constant (on : nat -> bool) (e : R) (k : nat) :
  forall j : nat, passes on j e (repeat e k) = e.
Proof.
  induction k as [|k IH]; intros j; [reflexivity|].
  cbn [repeat passes].
  replace (if on j
           then e * ((INR (S j) - 1) / INR (S j)) + e * (1 / INR (S j))
           else e) with e; [apply IH|].
  destruct (on j); [|reflexivity].
  pose proof (INR_S_neq_0 j) as Hj.
  generalize dependent (INR (S j)). intros n Hn. field. exact Hn.
Qed.

Section QuadFacts.

Variable glpow : R -> R -> R.

Lemma stored_float (fmt : PixelFormat) (p : Pixel) :
  fmt <> PIXELFORMAT_R8_G8_B8_A8 -> stored fmt p = p.
Proof. destruct fmt; [congruence|reflexivity|reflexivity]. Qed.

(** An accumulation quad of the blend branch into a float texture: with
    blending enabled it takes the newest sample with weight [1/(j+1)]
    and what was accumulated with weight [j/(j+1)]; with blending
    disabled it replaces what was accumulated. *)
Lemma execQuad_accum_later (on : bool) (fmt : PixelFormat) (m : Multiframe)
      (src : Texture) (j : nat) (texel : R) (acc : Pixel) :
  fmt <> PIXELFORMAT_R8_G8_B8_A8 ->
  rgb (execQuad glpow on fmt (accumQuad m src (accumGL j)) texel acc)
  = if on
    then rgb acc * ((INR (S j) - 1) / INR (S j))
         + encoded glpow texel * (1 / INR (S j))
    else encoded glpow texel.
Proof.
  intros Hfmt. unfold execQuad. rewrite !stored_float by exact Hfmt.
  destruct on; [|reflexivity].
  pose proof (INR_S_neq_0 j) as Hj.
  cbn [blendPixel accumQuad q_gl accumGL gl_blendFunc gl_blendColor
       accumBlendFunc srcRGB dstRGB factorRGB ca rgb shade fshader fst
       q_multiplier q_power].
  rewrite blendAlpha_inverse. unfold encoded.
  generalize dependent (INR (S j)). intros n Hn.
  generalize (glpow (texel * 1.0) gamma), (rgb acc). intros e a.
  field. exact Hn.
Qed.

(** The accumulation quad of the first sample into a float texture
    stores the encoded sample when blending is disabled, or enabled under
    a state that lets an opaque fragment replace the target. *)
Lemma execQuad_accum_first (on : bool) (fmt : PixelFormat) (m : Multiframe)
      (src : Texture) (g0 : WebGL) (texel : R) (acc : Pixel) :
  fmt <> PIXELFORMAT_R8_G8_B8_A8 ->
  (on = true -> stores g0) ->
  rgb (execQuad glpow on fmt (accumQuad m src g0) texel acc)
  = encoded glpow texel.
Proof.
  intros Hfmt Hg0. unfold execQuad. rewrite !stored_float by exact Hfmt.
  destruct on; [|reflexivity].
  cbn [accumQuad q_gl]. rewrite (Hg0 eq_refl) by reflexivity. reflexivity.
Qed.

Lemma clamp01_idem (x : R) : clamp01 (clamp01 x) = clamp01 x.
Proof.
  unfold clamp01, Rmax, Rmin.
  repeat (destruct (Rle_dec _ _)); lra.
Qed.

Lemma clamp01_unit (x : R) : 0 <= x <= 1 -> clamp01 x = x.
Proof.
  intros Hx. unfold clamp01, Rmax, Rmin.
  repeat (destruct (Rle_dec _ _)); lra.
Qed.

(** The first-sample copy into the 8-bit output texture, under the same
    condition: the clamped shader value for power 1. *)
Lemma execQuad_first_copy (on : bool) (m : Multiframe) (src : Texture)
      (g0 : WebGL) (texel : R) (dst : Pixel) :
  (on = true -> stores g0) ->
  rgb (execQuad glpow on PIXELFORMAT_R8_G8_B8_A8 (firstQuad m src g0) texel dst)
  = clamp01 (fst (fshader glpow texel 1.0 1.0)).
Proof.
  intros Hg0. unfold execQuad.
  destruct on; cbn [stored rgb]; [|apply clamp01_idem].
  cbn [firstQuad q_gl].
  rewrite (Hg0 eq_refl).
  - cbn [rgb shade firstQuad q_multiplier q_power]. apply clamp01_idem.
  - cbn [alpha shade fshader snd]. apply clamp01_unit. lra.
Qed.

(** The resolve pass into the 8-bit output texture: the clamped shader
    value for power [1 / gamma], whatever the enable bit was. *)
Lemma execQuad_resolve (m : Multiframe) (g : WebGL) (texel : R) (dst : Pixel) :
  rgb (execQuad glpow false PIXELFORMAT_R8_G8_B8_A8 (resolveQuad m g) texel dst)
  = clamp01 (fst (fshader glpow texel 1.0 (1.0 / gamma))).
Proof. unfold execQuad. cbn [stored rgb]. apply clamp01_idem. Qed.

End QuadFacts.

(* ================================================================= *)
(** ** Frames on a GPU state *)

Section FrameFacts.

Variable glpow : R -> R -> R.
Variable blendOn : nat -> bool.

Lemma execCalls_draws (cs : list Call) (s : Gpu) :
  execCalls glpow s cs
  = execCalls glpow s (map DrawQuadWithShader (draws cs)).
Proof.
  unfold execCalls. revert s.
  induction cs as [|c cs IH]; intros s; [reflexivity|].
  destruct c; cbn [draws map fold_left execCall]; apply IH.
Qed.

Lemma px_set_same (i : nat) (p : Pixel) (px : Pixels) : px_set i p px i = p.
Proof. unfold px_set. now rewrite Nat.eqb_refl. Qed.

Lemma px_set_other (i j : nat) (p : Pixel) (px : Pixels) :
  j <> i -> px_set i p px j = px j.
Proof.
  intros H. unfold px_set. apply Nat.eqb_neq in H. now rewrite H.
Qed.

(** Reads a pixel store through the writes made to it. *)
Ltac px_norm :=
  repeat (rewrite px_set_same || rewrite px_set_other by assumption).

(** A frame in the blend branch.  The accumulation pixel takes the pass
    of the sample, drawn under the enable bit the frame left.  The output
    pixel is rewritten by the resolve pass of the last sample and by
    nothing else.  Everything the sequence rests on stays. *)
Lemma frame_later (rt : RenderTarget) (ft act : Texture) (ss : list Vec2)
      (j : nat) (w : World) (px : Pixels) (c : R) :
  accumulatingOn rt ft act ss (S j) w ->
  (S j < length ss)%nat ->
  let st' := frame glpow blendOn (w, px) c in
  let acc' := execQuad glpow (blendOn (S j)) (tex_format act)
                (accumQuad (this w) (colorBuffer rt) (accumGL (S j))) c
                (px (tex_id act)) in
  accumulatingOn rt ft act ss (S (S j)) (fst st') /\
  snd st' (tex_id act) = acc' /\
  snd st' (tex_id ft)
  = if isLast (S j) (length ss)
    then execQuad glpow false (tex_format ft)
           (resolveQuad (this w) (gl (blendedDevice (S j) (device w))))
           (rgb acc') (px (tex_id ft))
    else px (tex_id ft).
Proof.
  intros (Hrt & Hsid & Hss & Hft & Hact & (frt & Hfrt & Hfb) & (art & Hart & Hab)
          & Hw & Hh & Hsrc & Hfa & Hfs) Hlt.
  cbv zeta. unfold frame. cbn [fst snd].
  assert (Hs : exists s, nth_error (samples (this w)) (sampleId (this w)) = Some s).
  { destruct (nth_error (samples (this w)) (sampleId (this w))) eqn:E; [eauto|].
    apply nth_error_None in E. rewrite Hss, Hsid in E. lia. }
  destruct Hs as [s Hs].
  destruct (renderScene_run w Hs) as (st & sc & pm & Hrun).
  rewrite Hrun. cbn [after camera renderTarget]. rewrite Hrt.
  set (w1 := mkWorld (set_store st (this w)) (set_scope sc (device w))
               (mkCamera (Some rt) pm true true) (fresh w)).
  assert (Hkept : ensured w1 = w1 /\ ensureCalls w1 = []).
  { apply (@ensured_kept w1 act); cbn; assumption. }
  destruct Hkept as [Hens Hcalls].
  assert (Hrange : (0 < sampleId (this w1) < length (samples (this w1)))%nat).
  { cbn. rewrite Hsid, Hss. lia. }
  pose proof (@prepareTexture_blend w1 rt eq_refl Hrange) as Hdraws.
  cbv zeta in Hdraws. rewrite Hens in Hdraws.
  split; [|split].
  - destruct (accumulate_frame (length (samples (this w1))) w1)
      as (_ & _ & Hw' & Hh' & _).
    unfold accumulatingOn.
    rewrite prepareTexture_run, Hens.
    cbn [after this device camera set_sampleId firstTexture accumTexture
         firstRenderTarget accumRenderTarget samples sampleId
         withUniforms set_scope width height].
    rewrite Hw', Hh'. subst w1.
    cbn [this camera device set_store firstTexture accumTexture
         firstRenderTarget accumRenderTarget samples sampleId renderTarget
         set_scope width height].
    repeat split; try assumption.
    + rewrite Hsid, Hss. unfold advanced.
      assert (E : (S j <? length ss)%nat = true) by (apply Nat.ltb_lt; lia).
      now rewrite E.
    + exists frt. auto.
    + exists art. auto.
  - rewrite execCalls_draws, Hdraws. subst w1.
    cbn [this set_store sampleId accumRenderTarget firstRenderTarget
         accumTexture firstTexture samples].
    rewrite Hsid, Hss.
    unfold execCalls.
    destruct (isLast (S j) (length ss));
      cbn [app map fold_left execCall target useBlend accumQuad resolveQuad
           presentQuad q_source px_texel set_store accumRenderTarget
           firstRenderTarget pixels blendEnabled];
      rewrite Hart, ?Hfrt, Hab, ?Hfb, andb_true_r.
    + cbn [pixels]. rewrite px_set_other by (apply not_eq_sym; exact Hfa).
      rewrite px_set_same, px_set_same.
      rewrite px_set_other by exact Hsrc. reflexivity.
    + cbn [pixels]. rewrite px_set_same, px_set_same.
      rewrite px_set_other by exact Hsrc. reflexivity.
  - rewrite execCalls_draws, Hdraws. subst w1.
    cbn [this set_store sampleId accumRenderTarget firstRenderTarget
         accumTexture firstTexture samples device set_scope].
    rewrite Hsid, Hss.
    unfold execCalls.
    destruct (isLast (S j) (length ss));
      cbn [app map fold_left execCall target useBlend accumQuad resolveQuad
           presentQuad q_source px_texel set_store accumRenderTarget
           firstRenderTarget accumTexture pixels blendEnabled];
      rewrite Hart, ?Hfrt, Hab, ?Hfb, ?Hact, andb_true_r.
    + cbn [pixels px_texel]. rewrite andb_false_r. px_norm. reflexivity.
    + cbn [pixels]. px_norm. reflexivity.
Qed.

(** The first frame of a sequence on an instance that holds no buffers:
    the step builds them and draws the sample into both, under the enable
    bit the frame left and the blend function it finds. *)
Lemma frame_first (rt : RenderTarget) (w : World) (px : Pixels) (c : R) :
  released (this w) ->
  sampleId (this w) = 0%nat ->
  (1 <= length (samples (this w)))%nat ->
  renderTarget (camera w) = Some rt ->
  (tex_id (colorBuffer rt) < fresh w)%nat ->
  let ft := firstTextureAt (fresh w) (width (device w)) (height (device w)) in
  let act := accumTextureAt (fresh w) (width (device w)) (height (device w))
               (pixelFormat (this w)) in
  let st' := frame glpow blendOn (w, px) c in
  accumulatingOn rt ft act (samples (this w)) 1 (fst st') /\
  snd st' (tex_id act)
  = execQuad glpow (blendOn 0) (pixelFormat (this w))
      (accumQuad (this w) (colorBuffer rt) (gl (device w))) c
      (px (tex_id act)) /\
  snd st' (tex_id ft)
  = execQuad glpow (blendOn 0) PIXELFORMAT_R8_G8_B8_A8
      (firstQuad (this w) (colorBuffer rt) (gl (device w))) c
      (px (tex_id ft)).
Proof.
  intros (Hft & Hfrt & Hact & Hart) Hsid Hn Hrt Hfresh.
  cbv zeta. unfold frame. cbn [fst snd].
  assert (Hs : exists s, nth_error (samples (this w)) (sampleId (this w)) = Some s).
  { destruct (nth_error (samples (this w)) (sampleId (this w))) eqn:E; [eauto|].
    apply nth_error_None in E. lia. }
  destruct Hs as [s Hs].
  destruct (renderScene_run w Hs) as (st & sc & pm & Hrun).
  rewrite Hrun. cbn [after camera renderTarget]. rewrite Hrt.
  set (w1 := mkWorld (set_store st (this w)) (set_scope sc (device w))
               (mkCamera (Some rt) pm true true) (fresh w)).
  assert (Hens : ensured w1 = recreated w1).
  { unfold ensured, needsCreate, staleSize. subst w1. cbn. now rewrite Hact. }
  assert (Hsid1 : sampleId (this w1) = 0%nat) by exact Hsid.
  assert (Hn1 : (1 <= length (samples (this w1)))%nat) by exact Hn.
  pose proof (prepareTexture_first w1 Hsid1 Hn1) as Hdraws.
  rewrite Hens in Hdraws.
  assert (H1 : S (S (fresh w)) <> tex_id (colorBuffer rt)) by lia.
  assert (H2 : fresh w <> tex_id (colorBuffer rt)) by lia.
  assert (H3 : tex_id (colorBuffer rt) <> S (S (fresh w))) by lia.
  assert (H4 : fresh w <> S (S (fresh w))) by lia.
  assert (H5 : S (S (fresh w)) <> fresh w) by lia.
  split; [|split].
  - destruct (accumulate_frame (length (samples (this w1))) (recreated w1))
      as (_ & _ & Hw' & Hh' & _).
    unfold accumulatingOn.
    rewrite prepareTexture_run, Hens.
    cbn [after this device camera set_sampleId firstTexture accumTexture
         firstRenderTarget accumRenderTarget samples sampleId
         withUniforms set_scope width height recreated].
    rewrite Hw', Hh'. subst w1.
    cbn [this camera device set_store firstTexture accumTexture
         firstRenderTarget accumRenderTarget samples sampleId renderTarget
         set_scope width height recreated fresh pixelFormat].
    repeat split.
    + rewrite Hsid. unfold advanced.
      assert (E : (0 <? length (samples (this w)))%nat = true)
        by (apply Nat.ltb_lt; lia).
      now rewrite E.
    + eexists. split; reflexivity.
    + eexists. split; reflexivity.
    + cbn. lia.
    + cbn. lia.
    + cbn. lia.
  - rewrite execCalls_draws, Hdraws. subst w1.
    cbn [camera renderTarget device set_scope gl this set_store sampleId].
    rewrite Hsid.
    unfold execCalls.
    cbn [map fold_left execCall target useBlend accumQuad firstQuad presentQuad
         q_source px_texel recreated this accumRenderTarget firstRenderTarget
         accumTargetAt firstTargetAt colorBuffer accumTextureAt firstTextureAt
         tex_id tex_format fresh device set_store pixelFormat pixels
         blendEnabled].
    rewrite !andb_true_r. px_norm. reflexivity.
  - rewrite execCalls_draws, Hdraws. subst w1.
    cbn [camera renderTarget device set_scope gl this set_store sampleId].
    rewrite Hsid.
    unfold execCalls.
    cbn [map fold_left execCall target useBlend accumQuad firstQuad presentQuad
         q_source px_texel recreated this accumRenderTarget firstRenderTarget
         accumTargetAt firstTargetAt colorBuffer accumTextureAt firstTextureAt
         tex_id tex_format fresh device set_store pixelFormat pixels
         blendEnabled].
    rewrite !andb_true_r, ?andb_false_r. px_norm. reflexivity.
Qed.

(** The frames after the first, up to the last sample: the accumulation
    pixel follows the passes, each under its own enable bit. *)
Lemma frames_later (rt : RenderTarget) (ft act : Texture) (ss : list Vec2)
      (rest : list R) :
  tex_format act <> PIXELFORMAT_R8_G8_B8_A8 ->
  forall (j : nat) (w : World) (px : Pixels),
    accumulatingOn rt ft act ss (S j) w ->
    (S j + length rest <= length ss)%nat ->
    let st' := frames glpow blendOn (w, px) rest in
    accumulatingOn rt ft act ss (S j + length rest) (fst st') /\
    rgb (snd st' (tex_id act))
    = passes blendOn (S j) (rgb (px (tex_id act))) (map (encoded glpow) rest).
Proof.
  intros Hfmt.
  induction rest as [|c rest IH]; intros j w px Hinv Hle; cbv zeta.
  - cbn. rewrite Nat.add_0_r. auto.
  - cbn [length] in Hle.
    destruct (@frame_later rt ft act ss j w px c Hinv) as (Hinv' & Hpx & _);
      [lia|].
    unfold frames in *. cbn [fold_left].
    destruct (frame glpow blendOn (w, px) c) as [w' px'] eqn:Ef.
    cbn [fst snd] in *.
    destruct (IH (S j) w' px' Hinv') as [Hinv'' Hpx'']; [lia|].
    cbv zeta in Hinv'', Hpx''. split.
    + replace (S j + length (c :: rest))%nat with (S (S j) + length rest)%nat
        by (cbn; lia).
      exact Hinv''.
    + rewrite Hpx'', Hpx. cbn [map passes].
      rewrite execQuad_accum_later by exact Hfmt. reflexivity.
Qed.

(** The frames after the first, seen from the output texture: it keeps
    what it showed until the last sample, whose resolve pass rewrites it
    from the accumulation pixel. *)
Lemma frames_later_output (rt : RenderTarget) (ft act : Texture) (ss : list Vec2)
      (rest : list R) :
  tex_format ft = PIXELFORMAT_R8_G8_B8_A8 ->
  forall (j : nat) (w : World) (px : Pixels),
    accumulatingOn rt ft act ss (S j) w ->
    (S j + length rest <= length ss)%nat ->
    let st' := frames glpow blendOn (w, px) rest in
    ((S j + length rest < length ss)%nat \/ rest = [] ->
     snd st' (tex_id ft) = px (tex_id ft)) /\
    (rest <> [] -> (S j + length rest)%nat = length ss ->
     rgb (snd st' (tex_id ft))
     = clamp01 (fst (fshader glpow (rgb (snd st' (tex_id act))) 1.0 (1.0 / gamma)))).
Proof.
  intros Hfmt.
  induction rest as [|c rest IH]; intros j w px Hinv Hle; cbv zeta.
  - cbn. split; [reflexivity|]. intros H. now contradiction H.
  - cbn [length] in Hle.
    destruct (@frame_later rt ft act ss j w px c Hinv) as (Hinv' & Hacc & Hout);
      [lia|].
    unfold frames in *. cbn [fold_left].
    destruct (frame glpow blendOn (w, px) c) as [w' px'] eqn:Ef.
    cbn [fst snd] in *.
    destruct (IH (S j) w' px' Hinv') as [IHmid IHlast]; [lia|].
    cbv zeta in IHmid, IHlast. cbn [length].
    rewrite <- Hacc in Hout. unfold isLast in Hout.
    split.
    + intros [Hlt|Hnil]; [|discriminate].
      rewrite IHmid by lia.
      assert (E : (Z.of_nat (S j) =? Z.of_nat (length ss) - 1)%Z = false)
        by (apply Z.eqb_neq; lia).
      rewrite E in Hout. exact Hout.
    + intros _ Hend. destruct rest as [|c' rest'].
      * cbn [fold_left snd].
        assert (E : (Z.of_nat (S j) =? Z.of_nat (length ss) - 1)%Z = true)
          by (apply Z.eqb_eq; cbn [length] in Hend; lia).
        rewrite E in Hout. rewrite Hout, Hfmt. apply execQuad_resolve.
      * apply IHlast; [discriminate|lia].
Qed.

(** A whole sequence from an instance that holds no buffers, with a
    float accumulation texture and a first frame that stores its sample:
    what the instance holds, what the accumulation pixel is, and what the
    output pixel shows. *)
Lemma frames_from_reset (w : World) (rt : RenderTarget) (px : Pixels)
      (c : R) (rest : list R) :
  released (this w) ->
  sampleId (this w) = 0%nat ->
  renderTarget (camera w) = Some rt ->
  (tex_id (colorBuffer rt) < fresh w)%nat ->
  pixelFormat (this w) <> PIXELFORMAT_R8_G8_B8_A8 ->
  (blendOn 0 = true -> stores (gl (device w))) ->
  (S (length rest) <= length (samples (this w)))%nat ->
  let ft := firstTextureAt (fresh w) (width (device w)) (height (device w)) in
  let act := accumTextureAt (fresh w) (width (device w)) (height (device w))
               (pixelFormat (this w)) in
  let n := length (samples (this w)) in
  let st' := frames glpow blendOn (w, px) (c :: rest) in
  sampleId (this (fst st')) = S (length rest) /\
  firstTexture (this (fst st')) = Some ft /\
  accumTexture (this (fst st')) = Some act /\
  rgb (snd st' (tex_id act))
  = passes blendOn 1 (encoded glpow c) (map (encoded glpow) rest) /\
  ((S (length rest) < n)%nat \/ n = 1%nat ->
   rgb (snd st' (tex_id ft)) = clamp01 (fst (fshader glpow c 1.0 1.0))) /\
  ((2 <= n)%nat -> S (length rest) = n ->
   rgb (snd st' (tex_id ft))
   = clamp01 (fst (fshader glpow (rgb (snd st' (tex_id act))) 1.0 (1.0 / gamma)))).
Proof.
  intros Hrel Hsid Hrt Hfresh Hfmt Hfirst Hle. cbv zeta.
  destruct (@frame_first rt w px c Hrel Hsid) as (Hinv & Hacc & Hout);
    [lia | exact Hrt | exact Hfresh |].
  cbv zeta in Hinv, Hacc, Hout.
  unfold frames. cbn [fold_left].
  destruct (frame glpow blendOn (w, px) c) as [w1 px1] eqn:Ef.
  cbn [fst snd] in *.
  assert (Hfmt' : tex_format
                    (accumTextureAt (fresh w) (width (device w))
                       (height (device w)) (pixelFormat (this w)))
                  <> PIXELFORMAT_R8_G8_B8_A8) by exact Hfmt.
  destruct (@frames_later rt _ _ _ rest Hfmt' 0 w1 px1 Hinv) as [Hinv' Hacc'];
    [lia|].
  destruct (@frames_later_output rt
              (firstTextureAt (fresh w) (width (device w)) (height (device w)))
              _ _ rest eq_refl 0 w1 px1 Hinv)
    as [Hmid Hlast]; [lia|].
  cbv zeta in Hinv', Hacc', Hmid, Hlast. unfold frames in *.
  destruct Hinv' as (_ & Hsid' & _ & Hft' & Hact' & _).
  split; [exact Hsid'|]. split; [exact Hft'|]. split; [exact Hact'|].
  split; [|split].
  - rewrite Hacc', Hacc.
    rewrite execQuad_accum_first by assumption. reflexivity.
  - intros Hearly. rewrite Hmid.
    + rewrite Hout. apply execQuad_first_copy. exact Hfirst.
    + destruct Hearly as [Hlt|H1]; [left; lia|].
      right. destruct rest; [reflexivity|cbn [length] in Hle; lia].
  - intros Hn Hend.
    apply Hlast; [destruct rest; [cbn in Hend; lia|discriminate]|lia].
Qed.

End FrameFacts.

(** C4.  The blend weight, as set and as applied.  At step [k >= 2]
    (counter [k - 1]) the code draws the accumulation quad asking the
    engine to leave blending as it is, under the constant-alpha function
    and the constant [1 / (sampleId + 1) = 1/k].  Executed with blending
    enabled that quad leaves [acc * (k-1)/k + sample * 1/k], and the
    recurrence of the specification, started from [acc_1 = sample_1],
    gives the mean.  But neither the class nor the engine's quad
    primitive enables blending; executed with blending disabled the quad
    replaces what was accumulated.  On a new 2 x 2 instance with blending
    disabled when the steps run, the accumulation pixel holds the first
    encoded sample after one frame and the second one alone after two:
    the newest sample was taken with weight 1, not [1/2], and whenever
    the two encoded samples differ the pixel is not their mean. *)
Theorem blend_weight_needs_blending (glpow : R -> R -> R) :
  (forall (k : nat) (w : World) (rt : RenderTarget),
     renderTarget (camera w) = Some rt ->
     sampleId (this w) = (k - 1)%nat ->
     (2 <= k <= length (samples (this w)))%nat ->
     let q := accumQuad (this (ensured w)) (colorBuffer rt) (accumGL (k - 1)) in
     In (DrawQuadWithShader q) (calls (prepareTexture w)) /\
     useBlend q = true /\
     gl_blendFunc (q_gl q) = accumBlendFunc /\
     gl_blendColor (q_gl q) = mkColor4 0 0 0 (1 / INR k)) /\
  (forall (k : nat) (m : Multiframe) (src : Texture) (fmt : PixelFormat)
          (texel : R) (acc : Pixel),
     (1 <= k)%nat ->
     fmt <> PIXELFORMAT_R8_G8_B8_A8 ->
     rgb (execQuad glpow true fmt (accumQuad m src (accumGL (k - 1))) texel acc)
     = rgb acc * ((INR k - 1) / INR k) + encoded glpow texel * (1 / INR k) /\
     rgb (execQuad glpow false fmt (accumQuad m src (accumGL (k - 1))) texel acc)
     = encoded glpow texel) /\
  (forall (s1 : R) (rest : list R),
     specRecurrence 2 s1 rest = mean (s1 :: rest)) /\
  (forall c1 c2 : R,
     let off : nat -> bool := fun _ => false in
     let px0 : Pixels := fun _ => mkPixel 0 0 in
     let act := accumTextureAt 2 4 4 PIXELFORMAT_RGBA16F in
     let one := frames glpow off (twoByTwoWorld, px0) [c1] in
     let two := frames glpow off (twoByTwoWorld, px0) [c1; c2] in
     accumTexture (this (fst two)) = Some act /\
     rgb (snd one (tex_id act)) = encoded glpow c1 /\
     rgb (snd two (tex_id act)) = encoded glpow c2 /\
     (encoded glpow c1 <> encoded glpow c2 ->
      rgb (snd two (tex_id act)) <> mean [encoded glpow c1; encoded glpow c2])).
Proof.
  split; [|split; [|split]].
  - intros k w rt Hrt Hsid [H2 Hle]. cbv zeta.
    destruct k as [|j]; [lia|].
    replace (S j - 1)%nat with j in * by lia.
    split; [|split; [reflexivity|split; [reflexivity|]]].
    + destruct (ensured_frame w) as (Hd & Hc & Hsid' & Hss & _).
      rewrite prepareTexture_run. cbn [calls].
      rewrite accumulate_run, Hc, Hrt, Hsid', Hsid.
      assert (Hlt : (j <? length (samples (this w)))%nat = true)
        by (apply Nat.ltb_lt; lia).
      assert (Hnz : (j =? 0)%nat = false) by (apply Nat.eqb_neq; lia).
      rewrite Hlt, Hnz, blendNext_run. cbn [calls]. rewrite Hsid', Hsid.
      apply in_or_app. right. apply in_or_app. left.
      apply in_or_app. left. right. right. left. reflexivity.
    + cbn [accumQuad q_gl accumGL gl_blendColor].
      now rewrite blendAlpha_inverse.
  - intros k m src fmt texel acc Hk Hfmt.
    destruct k as [|j]; [lia|].
    replace (S j - 1)%nat with j by lia.
    split; now rewrite execQuad_accum_later by exact Hfmt.
  - apply specRecurrence_from_first.
  - intros c1 c2. cbv zeta.
    assert (Hrel : released (this twoByTwoWorld)) by (repeat split).
    assert (Hfmt : pixelFormat (this twoByTwoWorld) <> PIXELFORMAT_R8_G8_B8_A8)
      by discriminate.
    assert (Hfirst : (fun _ : nat => false) 0%nat = true
                     -> stores (gl (device twoByTwoWorld)))
      by discriminate.
    destruct (@frames_from_reset glpow (fun _ => false) twoByTwoWorld sceneTarget
                (fun _ => mkPixel 0 0) c1 [] Hrel eq_refl eq_refl)
      as (_ & _ & _ & Hone & _); [cbn; lia | exact Hfmt | exact Hfirst | cbn; lia |].
    destruct (@frames_from_reset glpow (fun _ => false) twoByTwoWorld sceneTarget
                (fun _ => mkPixel 0 0) c1 [c2] Hrel eq_refl eq_refl)
      as (_ & _ & Hact & Htwo & _); [cbn; lia | exact Hfmt | exact Hfirst | cbn; lia |].
    cbv zeta in Hone, Htwo, Hact.
    split; [exact Hact|]. split; [exact Hone|]. split; [exact Htwo|].
    intros Hne. change (tex_id (accumTextureAt 2 4 4 PIXELFORMAT_RGBA16F))
      with (tex_id (accumTextureAt (fresh twoByTwoWorld)
                      (width (device twoByTwoWorld))
                      (height (device twoByTwoWorld))
                      (pixelFormat (this twoByTwoWorld)))).
    rewrite Htwo. cbn [map passes]. unfold mean, sum. cbn [fold_right length INR].
    intros Heq. apply Hne. lra.
Qed.

(** X7.  A whole accumulation sequence, frame by frame.  An instance that
    holds no buffers, has [sampleId = 0] and accumulates in a float
    texture is driven through [k] frames, [1 <= k <= N * N], the scene
    showing colour [c_i] in frame [i]; each frame is the scene render
    between the two hooks followed by a step.  The first frame stores its
    sample when blending is disabled, or enabled under a blend function
    that lets an opaque fragment replace the target.  Afterwards the
    counter is [k] and the instance holds the accumulation texture built
    in the first frame.  If blending is enabled on the context when the
    step of every later frame runs, that texture shows the arithmetic
    mean of the [k] gamma-encoded colours; if it is disabled in every
    later frame, the texture shows the last encoded colour alone. *)
Theorem frames_accumulate_mean
  (glpow : R -> R -> R) (blendOn : nat -> bool)
  (w : World) (rt : RenderTarget) (px : Pixels) (scene : list R) :
  released (this w) ->
  sampleId (this w) = 0%nat ->
  renderTarget (camera w) = Some rt ->
  (tex_id (colorBuffer rt) < fresh w)%nat ->
  pixelFormat (this w) <> PIXELFORMAT_R8_G8_B8_A8 ->
  (blendOn 0%nat = true -> stores (gl (device w))) ->
  (1 <= length scene <= length (samples (this w)))%nat ->
  let act := accumTextureAt (fresh w) (width (device w)) (height (device w))
               (pixelFormat (this w)) in
  let st' := frames glpow blendOn (w, px) scene in
  sampleId (this (fst st')) = length scene /\
  accumTexture (this (fst st')) = Some act /\
  ((forall j, (1 <= j < length scene)%nat -> blendOn j = true) ->
   rgb (snd st' (tex_id act)) = mean (map (encoded glpow) scene)) /\
  ((forall j, (1 <= j < length scene)%nat -> blendOn j = false) ->
   rgb (snd st' (tex_id act)) = encoded glpow (last scene 0)).
Proof.
  intros Hrel Hsid Hrt Hfresh Hfmt Hfirst [Hk Hle]. cbv zeta.
  destruct scene as [|c rest]; [cbn in Hk; lia|].
  cbn [length] in Hle.
  destruct (@frames_from_reset glpow blendOn w rt px c rest
              Hrel Hsid Hrt Hfresh Hfmt Hfirst Hle)
    as (Hsid' & _ & Hact & Hacc & _).
  cbv zeta in Hsid', Hact, Hacc.
  split; [exact Hsid'|]. split; [exact Hact|]. split.
  - intros Hon. rewrite Hacc.
    rewrite passes_on.
    + apply (specRecurrence_from_first (encoded glpow c) (map (encoded glpow) rest)).
    + intros i Hi. rewrite length_map in Hi. apply Hon. cbn [length]. lia.
  - intros Hoff. rewrite Hacc.
    rewrite passes_off.
    + destruct rest as [|c' rest']; [reflexivity|].
      rewrite (@last_nonempty _ (encoded glpow c) (encoded glpow 0))
        by discriminate.
      change (last (c :: c' :: rest') 0) with (last (c' :: rest') 0).
      apply last_map.
    + intros i Hi. rewrite length_map in Hi. apply Hoff. cbn [length]. lia.
Qed.

Lemma frames_accumulate_mean_witness :
  let w := twoByTwoWorld in
  let scene := [1/4; 1/2; 3/4] in
  let act := accumTextureAt (fresh w) (width (device w)) (height (device w))
               (pixelFormat (this w)) in
  sampleId (this (fst (frames Rpower (fun _ => true) (w, fun _ => mkPixel 0 0) scene)))
  = length scene /\
  rgb (snd (frames Rpower (fun _ => true) (w, fun _ => mkPixel 0 0) scene)
         (tex_id act))
  = mean (map (encoded Rpower) scene) /\
  rgb (snd (frames Rpower (fun _ => false) (w, fun _ => mkPixel 0 0) scene)
         (tex_id act))
  = encoded Rpower (3/4).
Proof.
  cbv zeta. split; [|split].
  - destruct (@frames_accumulate_mean Rpower (fun _ => true) twoByTwoWorld
                sceneTarget (fun _ => mkPixel 0 0) [1/4; 1/2; 3/4])
      as (Hsid & _).
    + repeat split.
    + reflexivity.
    + reflexivity.
    + cbn. lia.
    + discriminate.
    + intros _. apply stores_callerBlend.
    + cbn. lia.
    + exact Hsid.
  - destruct (@frames_accumulate_mean Rpower (fun _ => true) twoByTwoWorld
                sceneTarget (fun _ => mkPixel 0 0) [1/4; 1/2; 3/4])
      as (_ & _ & Hon & _).
    + repeat split.
    + reflexivity.
    + reflexivity.
    + cbn. lia.
    + discriminate.
    + intros _. apply stores_callerBlend.
    + cbn. lia.
    + apply Hon. reflexivity.
  - destruct (@frames_accumulate_mean Rpower (fun _ => false) twoByTwoWorld
                sceneTarget (fun _ => mkPixel 0 0) [1/4; 1/2; 3/4])
      as (_ & _ & _ & Hoff).
    + repeat split.
    + reflexivity.
    + reflexivity.
    + cbn. lia.
    + discriminate.
    + discriminate.
    + cbn. lia.
    + apply Hoff. reflexivity.
Defined.

(** X6.  A constant scene.  An instance that holds no buffers, has
    [sampleId = 0], at least two samples and a float accumulation
    texture is driven through all its frames, the scene showing the same
    colour [C], [0 < C <= 1], in each; the shader's [pow] is the real
    power function, and the first frame stores its sample.  Whether or
    not blending is enabled in the later frames, the accumulation
    texture ends at the encoded colour and the resolve pass of the last
    step leaves [C] itself in the output texture. *)
Theorem constant_scene_resolves
  (blendOn : nat -> bool) (w : World) (rt : RenderTarget) (px : Pixels) (C : R) :
  released (this w) ->
  sampleId (this w) = 0%nat ->
  renderTarget (camera w) = Some rt ->
  (tex_id (colorBuffer rt) < fresh w)%nat ->
  pixelFormat (this w) <> PIXELFORMAT_R8_G8_B8_A8 ->
  (blendOn 0%nat = true -> stores (gl (device w))) ->
  (2 <= length (samples (this w)))%nat ->
  0 < C <= 1 ->
  let ft := firstTextureAt (fresh w) (width (device w)) (height (device w)) in
  let act := accumTextureAt (fresh w) (width (device w)) (height (device w))
               (pixelFormat (this w)) in
  let st' := frames Rpower blendOn (w, px) (repeat C (length (samples (this w)))) in
  sampleId (this (fst st')) = length (samples (this w)) /\
  rgb (snd st' (tex_id act)) = encoded Rpower C /\
  rgb (snd st' (tex_id ft)) = C.
Proof.
  intros Hrel Hsid Hrt Hfresh Hfmt Hfirst Hn HC. cbv zeta.
  remember (length (samples (this w))) as n eqn:En.
  destruct n as [|k]; [lia|].
  cbn [repeat].
  destruct (@frames_from_reset Rpower blendOn w rt px C (repeat C k)
              Hrel Hsid Hrt Hfresh Hfmt Hfirst)
    as (Hsid' & _ & _ & Hacc & _ & Hlast).
  { rewrite repeat_length, <- En. lia. }
  cbv zeta in Hsid', Hacc, Hlast.
  rewrite repeat_length in Hsid', Hlast. rewrite <- En in Hlast.
  assert (Hacc' : rgb (snd (frames Rpower blendOn (w, px) (C :: repeat C k))
                         (tex_id (accumTextureAt (fresh w) (width (device w))
                                    (height (device w)) (pixelFormat (this w)))))
                  = encoded Rpower C).
  { rewrite Hacc, map_repeat. apply passes_constant. }
  split; [exact Hsid'|]. split; [exact Hacc'|].
  rewrite Hlast by lia. rewrite Hacc'.
  unfold fshader, encoded. cbn [fst].
  replace (C * 1.0) with C by lra.
  replace (Rpower C gamma * 1.0) with (Rpower C gamma) by lra.
  rewrite Rpower_mult.
  replace (gamma * (1.0 / gamma)) with 1 by (unfold gamma; lra).
  rewrite Rpower_1 by lra.
  apply clamp01_unit. lra.
Qed.

Lemma constant_scene_resolves_witness :
  let w := twoByTwoWorld in
  let ft := firstTextureAt (fresh w) (width (device w)) (height (device w)) in
  let act := accumTextureAt (fresh w) (width (device w)) (height (device w))
               (pixelFormat (this w)) in
  let st' := frames Rpower (fun _ => false) (w, fun _ => mkPixel 0 0)
               (repeat (1/2) (length (samples (this w)))) in
  sampleId (this (fst st')) = length (samples (this w)) /\
  rgb (snd st' (tex_id act)) = encoded Rpower (1/2) /\
  rgb (snd st' (tex_id ft)) = 1/2.
Proof.
  apply (@constant_scene_resolves (fun _ => false) twoByTwoWorld sceneTarget
           (fun _ => mkPixel 0 0) (1/2)).
  - repeat split.
  - reflexivity.
  - reflexivity.
  - cbn. lia.
  - discriminate.
  - discriminate.
  - cbn. lia.
  - lra.
Defined.

(** X18.  What is on screen during a sequence.  An instance that holds
    no buffers, has [sampleId = 0] and a float accumulation texture is
    driven through [k] frames, [1 <= k <= n], [n] the number of samples,
    the scene showing colour [c_i] in frame [i]; the first frame stores
    its sample.  The instance then holds the 8-bit output texture built
    in the first frame.  Until the last sample is in ([k < n]), and also
    when a single sample is configured, that texture shows what the
    shader makes of the first frame's colour with multiplier 1 and
    power 1, clamped to [0, 1]: the later samples do not reach the
    screen.  With [n >= 2], after the [n]-th frame it shows what the
    shader makes, with power [1 / gamma], of the value in the
    accumulation texture, clamped: of the mean of the encoded colours if
    blending was enabled in every later frame, of the last encoded
    colour if it was disabled in every later frame. *)
Theorem frames_output
  (glpow : R -> R -> R) (blendOn : nat -> bool)
  (w : World) (rt : RenderTarget) (px : Pixels) (scene : list R) :
  released (this w) ->
  sampleId (this w) = 0%nat ->
  renderTarget (camera w) = Some rt ->
  (tex_id (colorBuffer rt) < fresh w)%nat ->
  pixelFormat (this w) <> PIXELFORMAT_R8_G8_B8_A8 ->
  (blendOn 0%nat = true -> stores (gl (device w))) ->
  (1 <= length scene <= length (samples (this w)))%nat ->
  let ft := firstTextureAt (fresh w) (width (device w)) (height (device w)) in
  let act := accumTextureAt (fresh w) (width (device w)) (height (device w))
               (pixelFormat (this w)) in
  let n := length (samples (this w)) in
  let st' := frames glpow blendOn (w, px) scene in
  let resolved x := clamp01 (fst (fshader glpow x 1.0 (1.0 / gamma))) in
  firstTexture (this (fst st')) = Some ft /\
  tex_format ft = PIXELFORMAT_R8_G8_B8_A8 /\
  ((length scene < n)%nat \/ n = 1%nat ->
   rgb (snd st' (tex_id ft)) = clamp01 (fst (fshader glpow (hd 0 scene) 1.0 1.0))) /\
  ((2 <= n)%nat -> length scene = n ->
   rgb (snd st' (tex_id ft)) = resolved (rgb (snd st' (tex_id act))) /\
   ((forall j, (1 <= j < n)%nat -> blendOn j = true) ->
    rgb (snd st' (tex_id ft)) = resolved (mean (map (encoded glpow) scene))) /\
   ((forall j, (1 <= j < n)%nat -> blendOn j = false) ->
    rgb (snd st' (tex_id ft)) = resolved (encoded glpow (last scene 0)))).
Proof.
  intros Hrel Hsid Hrt Hfresh Hfmt Hfirst [Hk Hle]. cbv zeta.
  destruct scene as [|c rest]; [cbn in Hk; lia|].
  cbn [length] in Hle.
  destruct (@frames_from_reset glpow blendOn w rt px c rest
              Hrel Hsid Hrt Hfresh Hfmt Hfirst Hle)
    as (_ & Hft & _ & Hacc & Hearly & Hlast).
  cbv zeta in Hft, Hacc, Hearly, Hlast.
  split; [exact Hft|]. split; [reflexivity|]. split.
  - intros H. cbn [hd length] in *. apply Hearly. exact H.
  - intros Hn Hend. cbn [length] in Hend.
    specialize (Hlast Hn Hend).
    split; [exact Hlast|]. split.
    + intros Hon. rewrite Hlast, Hacc. do 3 f_equal.
      rewrite passes_on.
      * apply (specRecurrence_from_first (encoded glpow c)
                 (map (encoded glpow) rest)).
      * intros i Hi. rewrite length_map in Hi. apply Hon. lia.
    + intros Hoff. rewrite Hlast, Hacc. do 3 f_equal.
      rewrite passes_off.
      * destruct rest as [|c' rest']; [reflexivity|].
        rewrite (@last_nonempty _ (encoded glpow c) (encoded glpow 0))
          by discriminate.
        change (last (c :: c' :: rest') 0) with (last (c' :: rest') 0).
        apply last_map.
      * intros i Hi. rewrite length_map in Hi. apply Hoff. lia.
Qed.

Lemma frames_output_witness :
  let w := twoByTwoWorld in
  let ft := firstTextureAt (fresh w) (width (device w)) (height (device w)) in
  let early := frames Rpower (fun _ => true) (w, fun _ => mkPixel 0 0)
                 [1/4; 1/2; 3/4] in
  let full := frames Rpower (fun _ => true) (w, fun _ => mkPixel 0 0)
                [1/4; 1/2; 3/4; 1/2] in
  rgb (snd early (tex_id ft)) = clamp01 (fst (fshader Rpower (1/4) 1.0 1.0)) /\
  rgb (snd full (tex_id ft))
  = clamp01 (fst (fshader Rpower (mean (map (encoded Rpower) [1/4; 1/2; 3/4; 1/2]))
                    1.0 (1.0 / gamma))).
Proof.
  cbv zeta. split.
  - destruct (@frames_output Rpower (fun _ => true) twoByTwoWorld sceneTarget
                (fun _ => mkPixel 0 0) [1/4; 1/2; 3/4]) as (_ & _ & Hearly & _).
    + repeat split.
    + reflexivity.
    + reflexivity.
    + cbn. lia.
    + discriminate.
    + intros _. apply stores_callerBlend.
    + cbn. lia.
    + apply Hearly. left. cbn. lia.
  - destruct (@frames_output Rpower (fun _ => true) twoByTwoWorld sceneTarget
                (fun _ => mkPixel 0 0) [1/4; 1/2; 3/4; 1/2]) as (_ & _ & _ & Hfull).
    + repeat split.
    + reflexivity.
    + reflexivity.
    + cbn. lia.
    + discriminate.
    + intros _. apply stores_callerBlend.
    + cbn. lia.
    + destruct Hfull as (_ & Hon & _); [cbn; lia|reflexivity|].
      apply Hon. reflexivity.
Defined.

(* ================================================================= *)
(** ** The sample grid, cell by cell *)

Section GridFacts.

Variable random : nat -> R.

(** The inner loop over [y], started at cell [(x, y0)] with the draws of
    all earlier cells made. *)
Lemma inner_loop_cells (numSamples x len : nat) :
  forall (y0 n : nat) (acc : list Vec2),
    n = (2 * (x * numSamples + y0))%nat ->
    fold_left (pushSample random numSamples x) (seq y0 len) (n, acc)
    = ((n + 2 * len)%nat,
       acc ++ map (cellSample random numSamples x) (seq y0 len)).
Proof.
  induction len as [|len IH]; intros y0 n acc Hn.
  - cbn [seq fold_left map]. rewrite app_nil_r. f_equal. lia.
  - cbn [seq fold_left map]. unfold pushSample at 2.
    rewrite (IH (S y0) (S (S n))) by lia.
    rewrite <- app_assoc. cbn [app]. f_equal; [lia|].
    unfold cellSample. cbv zeta. rewrite <- Hn. reflexivity.
Qed.

(** The outer loop over [x], started at column [x0]. *)
Lemma outer_loop_cells (numSamples len : nat) :
  forall (x0 n : nat) (acc : list Vec2),
    n = (2 * (x0 * numSamples))%nat ->
    fold_left
      (fun st x => fold_left (pushSample random numSamples x) (seq 0 numSamples) st)
      (seq x0 len) (n, acc)
    = ((n + 2 * (len * numSamples))%nat,
       acc ++ flat_map
                (fun x => map (cellSample random numSamples x) (seq 0 numSamples))
                (seq x0 len)).
Proof.
  induction len as [|len IH]; intros x0 n acc Hn.
  - cbn [seq fold_left flat_map]. rewrite app_nil_r. f_equal. lia.
  - cbn [seq fold_left flat_map].
    rewrite (@inner_loop_cells numSamples x0 numSamples 0 n acc) by lia.
    rewrite (IH (S x0)) by lia.
    rewrite <- app_assoc. f_equal. lia.
Qed.

Lemma generateSamples_grid (numSamples : nat) :
  generateSamples random numSamples = jitteredGrid random numSamples.
Proof.
  unfold generateSamples, jitteredGrid.
  rewrite (@outer_loop_cells numSamples numSamples 0 0 []) by lia.
  reflexivity.
Qed.

End GridFacts.

(** One coordinate of a sample stays inside its own cell. *)
Lemma cell_interval (n i : nat) (r : R) :
  (0 < n)%nat -> 0 <= r < 1 ->
  INR i / INR n * 2 - 1 <= (INR i + r) / INR n * 2 - 1
  < (INR i + 1) / INR n * 2 - 1.
Proof.
  intros Hn Hr.
  assert (Hk : 0 < / INR n) by (apply Rinv_0_lt_compat, lt_0_INR; exact Hn).
  unfold Rdiv. generalize dependent (/ INR n). intros k Hk.
  generalize (INR i). intros x. nra.
Qed.

(** The head of a sorted list is no farther from the origin than any
    member. *)
Lemma sorted_head_closest (l : list Vec2) (v0 : Vec2) :
  StronglySorted closerFirst l ->
  forall v, In v l -> closerFirst (hd v0 l) v.
Proof.
  intros Hs v Hin. destruct l as [|a l]; [contradiction|].
  cbn [hd]. inversion Hs as [|? ? _ Hall]; subst.
  destruct Hin as [<-|Hin].
  - unfold closerFirst. lra.
  - rewrite Forall_forall in Hall. now apply Hall.
Qed.

(** X8.  The samples are stratified.  For every grid size [N] and every
    outcome of the random source (each draw in [0, 1)), the two loops
    visit the cells column by column and take two draws per cell, so the
    array they build is the list of the [N * N] cell samples; the sort
    only permutes it; the sample of cell [(x, y)] lies inside that cell
    of the grid over [-1, 1] x [-1, 1]; and the sample the sort places
    first is no farther from the origin than the sample of any cell. *)
Theorem samples_stratified
  (random : nat -> R) (d : GraphicsDevice) (N : nat) :
  (forall i, 0 <= random i < 1) ->
  generateSamples random N = jitteredGrid random N /\
  Permutation (samples (constructor random d N)) (jitteredGrid random N) /\
  (forall x y, (x < N)%nat -> (y < N)%nat ->
     inCell N x y (cellSample random N x y)) /\
  (forall x y v0, (x < N)%nat -> (y < N)%nat ->
     closerFirst (hd v0 (samples (constructor random d N)))
       (cellSample random N x y)).
Proof.
  intros Hr.
  assert (Hperm : Permutation (samples (constructor random d N))
                    (jitteredGrid random N)).
  { cbn [constructor samples]. rewrite <- generateSamples_grid.
    apply Permutation_sym, Array_sort_Permutation. }
  split; [apply generateSamples_grid|]. split; [exact Hperm|]. split.
  - intros x y Hx Hy. unfold inCell, cellSample. cbn [vx vy].
    split; apply cell_interval; auto; lia.
  - intros x y v0 Hx Hy. apply sorted_head_closest.
    + cbn [constructor samples]. apply Array_sort_sorted.
    + apply (Permutation_in _ (Permutation_sym Hperm)).
      unfold jitteredGrid. apply in_flat_map. exists x. split.
      * apply in_seq. lia.
      * apply in_map, in_seq. lia.
Qed.

Lemma samples_stratified_witness :
  generateSamples (fun _ => 1/2) 2 = jitteredGrid (fun _ => 1/2) 2 /\
  Permutation (samples (constructor (fun _ => 1/2) (exampleDevice 4 4) 2))
    (jitteredGrid (fun _ => 1/2) 2) /\
  (forall x y, (x < 2)%nat -> (y < 2)%nat ->
     inCell 2 x y (cellSample (fun _ => 1/2) 2 x y)) /\
  (forall x y v0, (x < 2)%nat -> (y < 2)%nat ->
     closerFirst (hd v0 (samples (constructor (fun _ => 1/2) (exampleDevice 4 4) 2)))
       (cellSample (fun _ => 1/2) 2 x y)).
Proof.
  apply (@samples_stratified (fun _ => 1/2) (exampleDevice 4 4) 2).
  intros _. lra.
Defined.

(* ================================================================= *)
(** ** The render hooks, entry by entry *)

(** Writing entries 8 and 9 back to what they were undoes any pair of
    writes to them. *)
Lemma data_restore (pmat : list R) (a b : R) :
  (9 < length pmat)%nat ->
  data_set 9 (data_get 9 pmat)
    (data_set 8 (data_get 8 pmat) (data_set 9 b (data_set 8 a pmat)))
  = pmat.
Proof.
  intros Hlen. apply (nth_ext _ _ 0 0).
  - now rewrite !data_set_length.
  - intros i _. fold (data_get i pmat).
    fold (data_get i (data_set 9 (data_get 9 pmat)
                        (data_set 8 (data_get 8 pmat)
                           (data_set 9 b (data_set 8 a pmat))))).
    destruct (Nat.eq_dec i 9) as [->|H9].
    + apply data_get_set_same. rewrite !data_set_length. exact Hlen.
    + rewrite data_get_set_other by auto.
      destruct (Nat.eq_dec i 8) as [->|H8].
      * apply data_get_set_same. rewrite !data_set_length. lia.
      * rewrite !data_get_set_other by auto. reflexivity.
Qed.

(** The pre-render hook with no active sample, as an equation. *)
Lemma onPreRender_throws_run (w : World) :
  (length (samples (this w)) <= sampleId (this w))%nat ->
  let pmat := projectionMatrix (camera w) in
  onPreRender w =
  mkRun TypeError
    (mkWorld (set_store (mkVec2 (data_get 12 pmat) (data_get 13 pmat)) (this w))
       (device w) (camera w) (fresh w))
    [].
Proof.
  intros Hle. apply nth_error_None in Hle. cbv zeta.
  unfold onPreRender. step_through. rewrite Hle. reflexivity.
Qed.

Lemma active_sample (w : World) :
  (sampleId (this w) < length (samples (this w)))%nat ->
  exists s, nth_error (samples (this w)) (sampleId (this w)) = Some s.
Proof.
  intros Hlt.
  destruct (nth_error (samples (this w)) (sampleId (this w))) eqn:E; [eauto|].
  apply nth_error_None in E. lia.
Qed.

(** One scene render on a centred matrix: the matrix is back, entry for
    entry. *)
Lemma renderScene_centred (w : World) (s : Vec2) :
  nth_error (samples (this w)) (sampleId (this w)) = Some s ->
  centred (projectionMatrix (camera w)) ->
  let pmat := projectionMatrix (camera w) in
  renderScene w =
  mkRun Normal
    (mkWorld
       (set_store (mkVec2 (data_get 12 pmat) (data_get 13 pmat)) (this w))
       (set_scope
          (mkScope (texture_multiframeSource (scope (device w)))
             (multiplier (scope (device w))) (power (scope (device w)))
             (if (sampleId (this w) =? 0)%nat then 0.0 else -5.0))
          (device w))
       (mkCamera (renderTarget (camera w)) pmat true true)
       (fresh w))
    [].
Proof.
  intros Hs (Hlen & H8 & H9). cbv zeta.
  unfold renderScene. rewrite (bind_run _ _ _ (onPreRender_run w Hs)).
  unfold onPostRender. step_through.
  cbn [set_store store projectionMatrix set_projectionMatrix vx vy
       renderTarget viewMatDirty viewProjMatDirty app].
  rewrite <- H8, <- H9.
  rewrite data_restore by (rewrite Hlen; lia).
  reflexivity.
Qed.

(** X9.  What the pre-render hook does to the camera.  With an active
    sample, a sixteen-entry matrix and a device of non-zero size, the hook
    completes, sends nothing to the device, adds [sample.x / width] to
    entry 8 and [sample.y / height] to entry 9 of the projection matrix,
    leaves the other fourteen entries and the render target alone, raises
    both dirty flags, and records entries 12 and 13 in [store]; nothing
    else of the instance changes. *)
Theorem pre_render_perturbs (w : World) (s : Vec2) :
  nth_error (samples (this w)) (sampleId (this w)) = Some s ->
  length (projectionMatrix (camera w)) = 16%nat ->
  (0 < width (device w))%nat -> (0 < height (device w))%nat ->
  let r := onPreRender w in
  let pmat := projectionMatrix (camera w) in
  let pmat' := projectionMatrix (camera (after r)) in
  value r = Normal /\
  calls r = [] /\
  data_get 8 pmat' = data_get 8 pmat + vx s / INR (width (device w)) /\
  data_get 9 pmat' = data_get 9 pmat + vy s / INR (height (device w)) /\
  (forall i, i <> 8%nat -> i <> 9%nat -> data_get i pmat' = data_get i pmat) /\
  length pmat' = 16%nat /\
  viewMatDirty (camera (after r)) = true /\
  viewProjMatDirty (camera (after r)) = true /\
  renderTarget (camera (after r)) = renderTarget (camera w) /\
  this (after r)
  = set_store (mkVec2 (data_get 12 pmat) (data_get 13 pmat)) (this w).
Proof.
  intros Hs Hlen _ _. cbv zeta.
  rewrite (onPreRender_run w Hs).
  cbn [value after calls camera this projectionMatrix viewMatDirty
       viewProjMatDirty renderTarget].
  split; [reflexivity|]. split; [reflexivity|]. split; [|split; [|split]].
  - rewrite data_get_set_other by lia.
    apply data_get_set_same. rewrite Hlen. lia.
  - rewrite data_get_set_same by (rewrite data_set_length, Hlen; lia).
    rewrite data_get_set_other by lia. reflexivity.
  - intros i H8 H9. rewrite !data_get_set_other by auto. reflexivity.
  - rewrite !data_set_length. auto.
Qed.

Lemma pre_render_perturbs_witness :
  let w := accumulatingWorld in
  let r := onPreRender w in
  let pmat := projectionMatrix (camera w) in
  let pmat' := projectionMatrix (camera (after r)) in
  value r = Normal /\
  calls r = [] /\
  data_get 8 pmat' = data_get 8 pmat + vx (mkVec2 (1/2) (-1/2)) / INR (width (device w)) /\
  data_get 9 pmat' = data_get 9 pmat + vy (mkVec2 (1/2) (-1/2)) / INR (height (device w)) /\
  (forall i, i <> 8%nat -> i <> 9%nat -> data_get i pmat' = data_get i pmat) /\
  length pmat' = 16%nat /\
  viewMatDirty (camera (after r)) = true /\
  viewProjMatDirty (camera (after r)) = true /\
  renderTarget (camera (after r)) = renderTarget (camera w) /\
  this (after r)
  = set_store (mkVec2 (data_get 12 pmat) (data_get 13 pmat)) (this w).
Proof.
  apply (@pre_render_perturbs accumulatingWorld (mkVec2 (1/2) (-1/2))).
  - vm_compute. reflexivity.
  - vm_compute. reflexivity.
  - vm_compute. lia.
  - vm_compute. lia.
Defined.

(** X10.  No drift on a centred matrix.  When entries 8 and 9 of the
    projection matrix agree with entries 12 and 13 (every symmetric
    frustum: all four are zero), any number of frames -- each the scene
    render between the two hooks followed by a step, whatever the state
    of blending -- that stays within the configured samples leaves the
    matrix exactly as it was, and the counter has advanced by the number
    of frames. *)
Theorem frames_keep_projection
  (glpow : R -> R -> R) (blendOn : nat -> bool)
  (w : World) (px : Pixels) (scene : list R) :
  centred (projectionMatrix (camera w)) ->
  (sampleId (this w) + length scene <= length (samples (this w)))%nat ->
  let st' := frames glpow blendOn (w, px) scene in
  projectionMatrix (camera (fst st')) = projectionMatrix (camera w) /\
  sampleId (this (fst st')) = (sampleId (this w) + length scene)%nat.
Proof.
  revert w px. induction scene as [|c rest IH]; intros w px Hc Hle; cbv zeta.
  - cbn. split; [reflexivity|lia].
  - cbn [length] in Hle.
    destruct (@active_sample w) as [s Hs]; [lia|].
    unfold frames. cbn [fold_left].
    assert (Hframe :
      projectionMatrix (camera (fst (frame glpow blendOn (w, px) c)))
      = projectionMatrix (camera w) /\
      sampleId (this (fst (frame glpow blendOn (w, px) c))) = S (sampleId (this w)) /\
      samples (this (fst (frame glpow blendOn (w, px) c))) = samples (this w)).
    { unfold frame. cbn [fst snd].
      rewrite (renderScene_centred w Hs Hc). cbn [after].
      rewrite prepareTexture_sampleId, prepareTexture_samples.
      rewrite prepareTexture_run.
      cbn [after camera this projectionMatrix set_store sampleId samples].
      split; [reflexivity|]. split; [|reflexivity].
      unfold advanced.
      assert (E : (sampleId (this w) <? length (samples (this w)))%nat = true)
        by (apply Nat.ltb_lt; lia).
      now rewrite E. }
    destruct Hframe as (Hpm & Hsid & Hss).
    destruct (frame glpow blendOn (w, px) c) as [w1 px1]. cbn [fst] in *.
    destruct (IH w1 px1) as [IHpm IHsid].
    + rewrite Hpm. exact Hc.
    + rewrite Hsid, Hss. lia.
    + cbv zeta in IHpm, IHsid. unfold frames in IHpm, IHsid.
      rewrite IHpm, IHsid, Hpm, Hsid. split; [reflexivity|cbn [length]; lia].
Qed.

Lemma frames_keep_projection_witness :
  let st' := frames Rpower (fun _ => false) (symmetricWorld, fun _ => mkPixel 0 0)
               [1/4; 1/2; 3/4] in
  projectionMatrix (camera (fst st')) = projectionMatrix (camera symmetricWorld) /\
  sampleId (this (fst st')) = (sampleId (this symmetricWorld) + 3)%nat.
Proof.
  apply (@frames_keep_projection Rpower (fun _ => false) symmetricWorld
           (fun _ => mkPixel 0 0)
           [1/4; 1/2; 3/4]).
  - unfold centred. cbn. repeat split; reflexivity.
  - cbn. lia.
Defined.

(** X11.  The scene render needs an active sample.  With the counter at
    or past the number of samples the pre-render hook throws, so the
    render is aborted: nothing is sent to the device and the camera and
    the device are as before.  With the counter below it the render
    completes.  Hence a render that follows a full run from the reset
    state throws, and a render that follows [moved()] completes whenever
    a sample is configured. *)
Theorem render_needs_active_sample (w : World) :
  ((length (samples (this w)) <= sampleId (this w))%nat ->
   value (renderScene w) = TypeError /\
   calls (renderScene w) = [] /\
   camera (after (renderScene w)) = camera w /\
   device (after (renderScene w)) = device w) /\
  ((sampleId (this w) < length (samples (this w)))%nat ->
   value (renderScene w) = Normal) /\
  (sampleId (this w) = 0%nat ->
   value (renderScene (stepN (length (samples (this w))) w)) = TypeError) /\
  ((1 <= length (samples (this w)))%nat ->
   value (renderScene (after (moved w))) = Normal).
Proof.
  assert (Hthrow : forall v : World,
            (length (samples (this v)) <= sampleId (this v))%nat ->
            renderScene v
            = mkRun TypeError
                (mkWorld
                   (set_store (mkVec2 (data_get 12 (projectionMatrix (camera v)))
                                 (data_get 13 (projectionMatrix (camera v))))
                      (this v))
                   (device v) (camera v) (fresh v)) []).
  { intros v Hle. unfold renderScene.
    rewrite (bind_run _ _ _ (onPreRender_throws_run v Hle)). reflexivity. }
  assert (Hok : forall v : World,
            (sampleId (this v) < length (samples (this v)))%nat ->
            value (renderScene v) = Normal).
  { intros v Hlt. destruct (active_sample v Hlt) as [s Hs].
    destruct (renderScene_run v Hs) as (st & sc & pm & Hrun).
    now rewrite Hrun. }
  split; [|split; [|split]].
  - intros Hle. rewrite (Hthrow w Hle). auto.
  - apply Hok.
  - intros Hsid. rewrite Hthrow; [reflexivity|].
    destruct (stepN_counts (length (samples (this w))) w) as [Hcount _]; [lia|].
    rewrite stepN_samples, Hcount. lia.
  - intros Hn. apply Hok. cbn. lia.
Qed.

(* ================================================================= *)
(** ** The resources of a step *)

Lemma created_app (cs1 cs2 : list Call) :
  created (cs1 ++ cs2) = created cs1 ++ created cs2.
Proof.
  induction cs1 as [|c cs1 IH]; simpl; [reflexivity|].
  destruct c; auto; simpl; now rewrite IH.
Qed.

Lemma destroyed_app (cs1 cs2 : list Call) :
  destroyed (cs1 ++ cs2) = destroyed cs1 ++ destroyed cs2.
Proof.
  induction cs1 as [|c cs1 IH]; simpl; [reflexivity|].
  destruct c; auto; simpl; now rewrite IH.
Qed.

Lemma releases_resources (m : Multiframe) :
  created (releases m) = [] /\ destroyed (releases m) = held m.
Proof.
  unfold releases, held.
  destruct (firstTexture m), (firstRenderTarget m), (accumRenderTarget m),
    (accumTexture m); split; reflexivity.
Qed.

(** The accumulation passes create and destroy nothing. *)
Lemma accumulate_resources (sampleCnt : nat) (w : World) :
  created (calls (accumulate sampleCnt w)) = [] /\
  destroyed (calls (accumulate sampleCnt w)) = [].
Proof.
  rewrite accumulate_run.
  destruct (renderTarget (camera w)) as [rt|]; [|split; reflexivity].
  destruct (sampleId (this w) <? sampleCnt)%nat; [|split; reflexivity].
  destruct (sampleId (this w) =? 0)%nat.
  - rewrite storeFirst_run. split; reflexivity.
  - rewrite blendNext_run. cbn [calls].
    destruct (isLast (sampleId (this w)) sampleCnt); split; reflexivity.
Qed.

Lemma ensureCalls_resources (w : World) :
  created (ensureCalls w)
  = (if needsCreate w
     then created (creations (fresh w) (width (device w)) (height (device w))
                     (pixelFormat (this w)))
     else []) /\
  destroyed (ensureCalls w)
  = (if staleSize (this w) (device w) then held (this w) else []).
Proof.
  unfold ensureCalls. rewrite created_app, destroyed_app.
  destruct (releases_resources (this w)) as [Hc Hd].
  destruct (staleSize (this w) (device w)), (needsCreate w);
    cbn [created destroyed app]; rewrite ?Hc, ?Hd, ?app_nil_r;
    split; reflexivity.
Qed.

(** Only the first phase of a step creates or destroys. *)
Lemma prepareTexture_resources (w : World) :
  created (calls (prepareTexture w)) = created (ensureCalls w) /\
  destroyed (calls (prepareTexture w)) = destroyed (ensureCalls w).
Proof.
  rewrite prepareTexture_run. cbn [calls].
  rewrite !created_app, !destroyed_app.
  destruct (accumulate_resources (length (samples (this w))) (ensured w)) as [Hc Hd].
  rewrite Hc, Hd. cbn [created destroyed app]. now rewrite !app_nil_r.
Qed.

Lemma held_after_step (w : World) :
  held (this (after (prepareTexture w))) = held (this (ensured w)).
Proof. rewrite prepareTexture_run. reflexivity. Qed.

(** An instance whose buffers hang together and whose accumulation
    texture is null holds nothing. *)
Lemma linked_empty (m : Multiframe) :
  linked m -> accumTexture m = None -> held m = [].
Proof.
  unfold linked, held. intros Hl Hact. rewrite Hact in *.
  destruct (firstTexture m), (firstRenderTarget m), (accumRenderTarget m);
    try contradiction; reflexivity.
Qed.

(** X12.  Teardown, then a step.  [destroy()] is what the instance
    registers for the device's [destroy] and [devicelost] events.  A
    step that follows it -- whatever the instance held and counted
    before -- issues, after the releases of the teardown, the four
    creations at the device's size and nothing else that creates or
    destroys; the instance then holds the four new objects; and the
    counter moves on from where it was: the teardown does not reset
    it. *)
Theorem teardown_then_step (w : World) :
  let r := (destroy ;; prepareTexture) w in
  let d := device w in
  let n := fresh w in
  let f := pixelFormat (this w) in
  (exists rest,
     calls r = releases (this w) ++ creations n (width d) (height d) f ++ rest /\
     created rest = [] /\ destroyed rest = []) /\
  destroyed (calls r) = held (this w) /\
  firstTexture (this (after r)) = Some (firstTextureAt n (width d) (height d)) /\
  firstRenderTarget (this (after r)) = Some (firstTargetAt n (width d) (height d)) /\
  accumTexture (this (after r)) = Some (accumTextureAt n (width d) (height d) f) /\
  accumRenderTarget (this (after r)) = Some (accumTargetAt n (width d) (height d) f) /\
  sampleId (this (after r))
  = advanced (sampleId (this w)) (length (samples (this w))) /\
  value r
  = (advanced (sampleId (this w)) (length (samples (this w)))
     <? length (samples (this w)))%nat.
Proof.
  cbv zeta.
  rewrite (bind_run _ _ _ (destroy_run w)).
  set (v := mkWorld
              (mkMultiframe (pixelFormat (this w)) None None None None
                 (sampleId (this w)) (samples (this w)) (store (this w)))
              (device w) (camera w) (fresh w)).
  assert (Hens : ensured v = recreated v) by reflexivity.
  assert (Hcalls : ensureCalls v
                   = creations (fresh w) (width (device w)) (height (device w))
                       (pixelFormat (this w))) by reflexivity.
  rewrite prepareTexture_run, Hens, Hcalls. cbn [value after calls this].
  destruct (accumulate_resources (length (samples (this v))) (recreated v))
    as [Hc Hd].
  split; [|split].
  - eexists. split; [reflexivity|].
    rewrite created_app, destroyed_app, Hc, Hd. split; reflexivity.
  - rewrite !destroyed_app, Hd.
    destruct (releases_resources (this w)) as [_ Hrel]. rewrite Hrel.
    cbn [destroyed creations app]. now rewrite app_nil_r.
  - repeat split; reflexivity.
Qed.

(** X13.  The resources of a step are accounted for.  On an instance
    whose buffers hang together, a step either creates and destroys
    nothing and holds afterwards what it held before, or destroys exactly
    the objects it held, each once, and creates exactly the four objects
    it holds afterwards, under identities not handed out before and
    distinct from each other.  So a step runs at most one allocation
    cycle, drops no object without destroying it, and -- when every
    object held carries an identity handed out earlier -- holds nothing
    afterwards that it has destroyed. *)
Theorem step_resource_accounting (w : World) :
  linked (this w) ->
  let r := prepareTexture w in
  (needsCreate w = false ->
   created (calls r) = [] /\ destroyed (calls r) = [] /\
   held (this (after r)) = held (this w)) /\
  (needsCreate w = true ->
   destroyed (calls r) = held (this w) /\
   Permutation (created (calls r)) (held (this (after r))) /\
   length (created (calls r)) = 4%nat /\
   Forall (fun o => (fresh w <= res_id o < fresh (after r))%nat) (created (calls r)) /\
   NoDup (map res_id (created (calls r)))) /\
  (Forall (fun o => (res_id o < fresh w)%nat) (held (this w)) ->
   forall o, In o (destroyed (calls r)) -> ~ In o (held (this (after r)))).
Proof.
  intros Hl. cbv zeta.
  destruct (prepareTexture_resources w) as [Hc Hd].
  destruct (ensureCalls_resources w) as [Hc' Hd'].
  rewrite Hc, Hd, Hc', Hd', held_after_step.
  assert (Hfresh : fresh (after (prepareTexture w)) = fresh (ensured w))
    by (rewrite prepareTexture_run; reflexivity).
  rewrite Hfresh. unfold ensured.
  split; [|split].
  - intros Hneed. rewrite Hneed.
    unfold needsCreate in Hneed. apply orb_false_elim in Hneed.
    destruct Hneed as [Hstale _]. rewrite Hstale. auto.
  - intros Hneed. rewrite Hneed. split; [|split; [|split; [|split]]].
    + destruct (staleSize (this w) (device w)) eqn:Hstale; [reflexivity|].
      unfold needsCreate in Hneed. rewrite Hstale in Hneed. cbn [orb] in Hneed.
      destruct (accumTexture (this w)) eqn:Hact; [discriminate|].
      symmetry. now apply linked_empty.
    + cbn. do 2 apply perm_skip. apply perm_swap.
    + reflexivity.
    + cbn. repeat constructor; cbn; lia.
    + cbn. repeat constructor; cbn; lia.
  - intros Hold o Hin Hheld.
    destruct (staleSize (this w) (device w)) eqn:Hstale; [|contradiction].
    assert (Hneed : needsCreate w = true)
      by (unfold needsCreate; now rewrite Hstale).
    rewrite Hneed in Hheld.
    rewrite Forall_forall in Hold. specialize (Hold o Hin).
    cbn in Hheld.
    destruct Hheld as [<-|[<-|[<-|[<-|[]]]]]; cbn in Hold; lia.
Qed.

Lemma step_resource_accounting_witness :
  let w := resizedWorld in
  let r := prepareTexture w in
  destroyed (calls r) = held (this w) /\
  Permutation (created (calls r)) (held (this (after r))) /\
  length (created (calls r)) = 4%nat /\
  Forall (fun o => (fresh w <= res_id o < fresh (after r))%nat) (created (calls r)) /\
  NoDup (map res_id (created (calls r))).
Proof.
  cbv zeta.
  destruct (@step_resource_accounting resizedWorld) as (_ & Hcycle & _).
  - vm_compute. auto.
  - apply Hcycle. vm_compute. reflexivity.
Defined.

(* ================================================================= *)
(** ** The quads of a step and the objects they touch *)

(** Every quad of the accumulation passes goes to one of the instance's
    two targets and reads the scene texture or the accumulation
    texture. *)
Lemma accumulate_quads (sampleCnt : nat) (w : World) (q : Quad) :
  In q (draws (calls (accumulate sampleCnt w))) ->
  (target q = accumRenderTarget (this w) \/ target q = firstRenderTarget (this w)) /\
  (q_source q = accumTexture (this w) \/
   exists rt, renderTarget (camera w) = Some rt /\ q_source q = Some (colorBuffer rt)).
Proof.
  rewrite accumulate_run.
  destruct (renderTarget (camera w)) as [rt|]; [|contradiction].
  destruct (sampleId (this w) <? sampleCnt)%nat; [|contradiction].
  destruct (sampleId (this w) =? 0)%nat.
  - rewrite storeFirst_run. cbn [calls draws].
    intros [<-|[<-|[]]]; cbn;
      (split; [first [left; reflexivity | right; reflexivity]
              |right; exists rt; split; reflexivity]).
  - rewrite blendNext_run. cbn [calls].
    destruct (isLast (sampleId (this w)) sampleCnt); cbn [app draws];
      intros Hin; repeat (destruct Hin as [<-|Hin]); try contradiction;
      cbn;
      (split; [first [left; reflexivity | right; reflexivity]
              |first [left; reflexivity | right; exists rt; split; reflexivity]]).
Qed.

Lemma held_members (m : Multiframe) :
  (forall t, firstTexture m = Some t -> In (TextureRes t) (held m)) /\
  (forall t, accumTexture m = Some t -> In (TextureRes t) (held m)) /\
  (forall rt, firstRenderTarget m = Some rt -> In (TargetRes rt) (held m)) /\
  (forall rt, accumRenderTarget m = Some rt -> In (TargetRes rt) (held m)).
Proof.
  unfold held. repeat split; intros x ->; rewrite !in_app_iff; cbn; tauto.
Qed.

(** X14.  A step draws on what the instance holds.  Every quad of a
    step goes to the back buffer or to a render target the instance holds
    once the step is over, and reads a texture the instance holds then or
    the colour buffer of the camera's render target: no quad touches an
    object the step has released, the new objects being the ones held. *)
Theorem step_draws_on_held (w : World) (q : Quad) :
  In q (draws (calls (prepareTexture w))) ->
  let m := this (after (prepareTexture w)) in
  (forall rt, target q = Some rt -> In (TargetRes rt) (held m)) /\
  (forall t, q_source q = Some t ->
     In (TextureRes t) (held m) \/
     exists rt, renderTarget (camera w) = Some rt /\ t = colorBuffer rt).
Proof.
  cbv zeta. rewrite held_after_step.
  destruct (held_members (this (ensured w))) as (Hft & Hact & Hfrt & Hart).
  destruct (ensured_frame w) as (_ & Hcam & _).
  rewrite prepareTexture_run. cbn [calls].
  rewrite !draws_app, draws_ensureCalls. cbn [app draws].
  rewrite in_app_iff. intros [Hin|[<-|[]]].
  - destruct (accumulate_quads _ _ _ Hin) as [Htgt Hsrc]. split.
    + intros rt Hq. destruct Htgt as [Ht|Ht]; rewrite Ht in Hq; auto.
    + intros t Hq. destruct Hsrc as [Hs|(rt & Hrt & Hs)]; rewrite Hs in Hq.
      * left. auto.
      * right. exists rt. rewrite <- Hcam. split; [exact Hrt|congruence].
  - cbn. split; [discriminate|]. intros t Hq. left. auto.
Qed.

Lemma step_draws_on_held_witness :
  let w := resizedWorld in
  let q := accumQuad (this (after (prepareTexture w))) sceneTexture (accumGL 2) in
  let m := this (after (prepareTexture w)) in
  (forall rt, target q = Some rt -> In (TargetRes rt) (held m)) /\
  (forall t, q_source q = Some t ->
     In (TextureRes t) (held m) \/
     exists rt, renderTarget (camera w) = Some rt /\ t = colorBuffer rt).
Proof.
  apply (@step_draws_on_held resizedWorld).
  vm_compute. left. reflexivity.
Defined.

Lemma backBufferDraws_app (cs1 cs2 : list Call) :
  backBufferDraws (cs1 ++ cs2) = backBufferDraws cs1 ++ backBufferDraws cs2.
Proof. unfold backBufferDraws. now rewrite draws_app, filter_app. Qed.

Lemma filter_none {A : Type} (f : A -> bool) (l : list A) :
  (forall x, In x l -> f x = false) -> filter f l = [].
Proof.
  induction l as [|a l IH]; intros H; [reflexivity|].
  cbn [filter]. rewrite (H a) by (left; reflexivity).
  apply IH. intros x Hx. apply H. now right.
Qed.

(** X15.  Every step presents, once.  Whatever the state -- sampling,
    converged, no scene render target, buffers just rebuilt -- the last
    command of a step is the copy of the first texture the instance
    holds afterwards to the back buffer, drawn without blending with
    multiplier 1 and power 1; and on an instance whose buffers hang
    together it is the step's only quad that goes to the back buffer. *)
Theorem step_presents_once (w : World) :
  let r := prepareTexture w in
  let copy := presentQuad (this (after r)) (gl (device (after r))) in
  (exists cs, calls r = cs ++ [DrawQuadWithShader copy]) /\
  (linked (this w) -> backBufferDraws (calls r) = [copy]).
Proof.
  cbv zeta. rewrite prepareTexture_run. cbn [calls after this device].
  split.
  - eexists. rewrite app_assoc. reflexivity.
  - intros Hl.
    destruct (ensured_linked_sized w Hl) as [Hlv (ft & act & Hft & Hact & _)].
    rewrite !backBufferDraws_app.
    assert (He : backBufferDraws (ensureCalls w) = [])
      by (unfold backBufferDraws; now rewrite draws_ensureCalls).
    assert (Ha : backBufferDraws
                   (calls (accumulate (length (samples (this w))) (ensured w)))
                 = []).
    { apply filter_none. intros q Hin.
      destruct (accumulate_quads _ _ _ Hin) as [Htgt _].
      unfold linked in Hlv. rewrite Hft, Hact in Hlv.
      destruct (firstRenderTarget (this (ensured w)));
        destruct (accumRenderTarget (this (ensured w))); try contradiction.
      destruct Htgt as [-> | ->]; reflexivity. }
    rewrite He, Ha. reflexivity.
Qed.

(* ================================================================= *)
(** ** What a step leaves on the device *)

Lemma accumulate_hardware (sampleCnt : nat) (w : World) :
  sameHardware (device w) (device (after (accumulate sampleCnt w))).
Proof.
  rewrite accumulate_run. unfold sameHardware.
  destruct (renderTarget (camera w)) as [rt|]; [|cbn; auto 10].
  destruct (sampleId (this w) <? sampleCnt)%nat; [|cbn; auto 10].
  destruct (sampleId (this w) =? 0)%nat.
  - rewrite storeFirst_run. cbn. auto 10.
  - rewrite blendNext_run. unfold blendedDevice.
    destruct (isLast (sampleId (this w)) sampleCnt);
      destruct (separateAlphaBlend (device w)); cbn; auto 10.
Qed.

(** X16.  What a step leaves alone, and what it leaves behind.  A step
    never touches the camera, the samples, [store], the pixel format
    chosen at construction, the device's size and capability flags, the
    device's record of the blend function, or the texture-bias uniform.
    It always leaves the three shader uniforms as the back-buffer copy
    set them: the source is the first texture, multiplier and power
    are 1. *)
Theorem step_frame (w : World) :
  let r := prepareTexture w in
  camera (after r) = camera w /\
  samples (this (after r)) = samples (this w) /\
  store (this (after r)) = store (this w) /\
  pixelFormat (this (after r)) = pixelFormat (this w) /\
  sameHardware (device w) (device (after r)) /\
  deviceBlend (device (after r)) = deviceBlend (device w) /\
  globalTextureBias (scope (device (after r))) = globalTextureBias (scope (device w)) /\
  texture_multiframeSource (scope (device (after r))) = firstTexture (this (after r)) /\
  multiplier (scope (device (after r))) = 1.0 /\
  power (scope (device (after r))) = 1.0.
Proof.
  cbv zeta.
  destruct (ensured_frame w) as (Hd & Hc & Hsid & Hss & Hst & Hpf).
  destruct (accumulate_frame (length (samples (this w))) (ensured w))
    as (_ & Hblend & _ & _ & Hbias).
  pose proof (accumulate_hardware (length (samples (this w))) (ensured w)) as Hhw.
  rewrite Hd in Hblend, Hbias, Hhw.
  rewrite prepareTexture_run.
  cbn [after camera this device set_sampleId samples store pixelFormat
       firstTexture].
  repeat split; try assumption; try reflexivity; try apply Hhw.
Qed.

Lemma contextBlendCalls_app (cs1 cs2 : list Call) :
  contextBlendCalls (cs1 ++ cs2) = contextBlendCalls cs1 ++ contextBlendCalls cs2.
Proof.
  induction cs1 as [|c cs1 IH]; simpl; [reflexivity|].
  destruct c; auto; simpl; now rewrite IH.
Qed.

Lemma contextBlendCalls_ensureCalls (w : World) :
  contextBlendCalls (ensureCalls w) = [].
Proof.
  unfold ensureCalls, releases, creations. rewrite !contextBlendCalls_app.
  destruct (staleSize (this w) (device w)), (needsCreate w),
    (firstTexture (this w)), (firstRenderTarget (this w)),
    (accumRenderTarget (this w)), (accumTexture (this w)); reflexivity.
Qed.

(** X17.  The blend constant is left behind.  A step in the blend
    branch (a scene render target, the counter above 0 and below the
    number of samples) sets the blend function and the blend constant
    directly on the context, once each, and when it returns the
    context's blend constant is still [(0, 0, 0, 1 / (sampleId + 1))]:
    nothing in the step sets it back.  Every other step makes no such
    call and leaves the blend function and constant of the context as
    it found them. *)
Theorem blend_constant_left_behind (w : World) :
  let r := prepareTexture w in
  let sid := sampleId (this w) in
  ((exists rt, renderTarget (camera w) = Some rt) ->
   (0 < sid < length (samples (this w)))%nat ->
   contextBlendCalls (calls r)
   = [GlBlendFuncSeparate accumBlendFunc;
      GlBlendColor (mkColor4 0 0 0 (blendAlpha sid))] /\
   gl_blendColor (gl (device (after r))) = mkColor4 0 0 0 (blendAlpha sid)) /\
  (renderTarget (camera w) = None \/ sid = 0%nat
   \/ (length (samples (this w)) <= sid)%nat ->
   contextBlendCalls (calls r) = [] /\
   gl (device (after r)) = gl (device w)).
Proof.
  cbv zeta.
  destruct (ensured_frame w) as (Hd & Hc & Hsid & Hss & _).
  rewrite prepareTexture_run. cbn [calls after device].
  rewrite !contextBlendCalls_app, contextBlendCalls_ensureCalls.
  rewrite accumulate_run, Hc, Hsid.
  split.
  - intros [rt Hrt] [Hpos Hlt]. rewrite Hrt.
    apply Nat.ltb_lt in Hlt. rewrite Hlt.
    assert (Hnz : (sampleId (this w) =? 0)%nat = false)
      by (apply Nat.eqb_neq; lia).
    rewrite Hnz, blendNext_run. cbn [calls after device]. rewrite Hsid.
    unfold blendedDevice.
    destruct (isLast (sampleId (this w)) (length (samples (this w))));
      destruct (separateAlphaBlend (device (ensured w)));
      split; reflexivity.
  - intros Hout.
    destruct (renderTarget (camera w)) as [rt|] eqn:Hrt.
    + destruct (sampleId (this w) <? length (samples (this w)))%nat eqn:Hlt.
      * destruct (sampleId (this w) =? 0)%nat eqn:Hz.
        -- rewrite storeFirst_run. cbn. rewrite Hd. auto.
        -- apply Nat.ltb_lt in Hlt. apply Nat.eqb_neq in Hz.
           destruct Hout as [H|[H|H]]; [discriminate|lia|lia].
      * cbn. rewrite Hd. auto.
    + cbn. rewrite Hd. auto.
Qed.

(* ================================================================= *)
(** ** Resources over the life of an instance *)

Lemma bind_calls {A B : Type} (m : M A) (k : A -> M B) (w : World) :
  calls (bind m k w) = calls (m w) ++ calls (k (value (m w)) (after (m w))) /\
  after (bind m k w) = after (k (value (m w)) (after (m w))).
Proof.
  unfold bind. destruct (m w) as [a w1 cs1]. cbn [value after calls].
  destruct (k a w1); split; reflexivity.
Qed.

Lemma then_ret {A : Type} (m : M A) (w : World) :
  calls ((m ;; ret tt) w) = calls (m w) /\ after ((m ;; ret tt) w) = after (m w).
Proof.
  destruct (bind_calls m (fun _ => ret tt) w) as [Hc Ha].
  rewrite Hc, Ha. cbn. now rewrite app_nil_r.
Qed.

(** A scene render sends nothing to the device and changes nothing of
    the instance but [store]. *)
Lemma renderScene_instance (w : World) :
  calls (renderScene w) = [] /\
  exists st, this (after (renderScene w)) = set_store st (this w).
Proof.
  destruct (nth_error (samples (this w)) (sampleId (this w))) as [s|] eqn:Hs.
  - destruct (renderScene_run w Hs) as (st & sc & pm & Hrun).
    rewrite Hrun. split; [reflexivity|]. now exists st.
  - apply nth_error_None in Hs. unfold renderScene.
    rewrite (bind_run _ _ _ (onPreRender_throws_run w Hs)).
    split; [reflexivity|]. eexists. reflexivity.
Qed.

(** The balance of one action: what was held and what is created are
    what is destroyed and what is held afterwards. *)
Lemma act_balance (a : HostAction) (w : World) :
  linked (this w) ->
  let r := act a w in
  Permutation (held (this w) ++ created (calls r))
    (destroyed (calls r) ++ held (this (after r))) /\
  linked (this (after r)).
Proof.
  intros Hl. cbv zeta. destruct a as [| | | |cw ch]; cbn [act].
  - destruct (then_ret prepareTexture w) as [Hc Ha]. rewrite Hc, Ha.
    destruct (prepareTexture_resources w) as [Hcr Hde].
    destruct (ensureCalls_resources w) as [Hcr' Hde'].
    rewrite Hcr, Hde, Hcr', Hde', held_after_step.
    split.
    + unfold ensured.
      destruct (needsCreate w) eqn:Hneed.
      * assert (Hheld : (if staleSize (this w) (device w)
                         then held (this w) else []) = held (this w)).
        { destruct (staleSize (this w) (device w)) eqn:Hstale; [reflexivity|].
          unfold needsCreate in Hneed. rewrite Hstale in Hneed.
          cbn [orb] in Hneed.
          destruct (accumTexture (this w)) eqn:Hact; [discriminate|].
          symmetry. now apply linked_empty. }
        rewrite Hheld. apply Permutation_app_head.
        cbn. do 2 apply perm_skip. apply perm_swap.
      * unfold needsCreate in Hneed. apply orb_false_elim in Hneed.
        destruct Hneed as [Hstale _]. rewrite Hstale.
        rewrite app_nil_r. reflexivity.
    + rewrite prepareTexture_run. cbn [after this].
      apply linked_set_sampleId, ensured_linked_sized, Hl.
  - destruct (then_ret renderScene w) as [Hc Ha]. rewrite Hc, Ha.
    destruct (renderScene_instance w) as [Hcs [st Hst]].
    rewrite Hcs, Hst. cbn [created destroyed app].
    rewrite app_nil_r. split; [reflexivity|exact Hl].
  - cbn. rewrite app_nil_r. split; [reflexivity|exact Hl].
  - rewrite destroy_run. cbn [calls after this].
    destruct (releases_resources (this w)) as [Hcr Hde].
    rewrite Hcr, Hde. split; [reflexivity|exact I].
  - cbn. rewrite app_nil_r. split; [reflexivity|exact Hl].
Qed.

Lemma script_balance (l : list HostAction) :
  forall w : World,
    linked (this w) ->
    Permutation (held (this w) ++ created (calls (script l w)))
      (destroyed (calls (script l w)) ++ held (this (after (script l w)))) /\
    linked (this (after (script l w))).
Proof.
  induction l as [|a l IH]; intros w Hl.
  - cbn. rewrite app_nil_r. split; [reflexivity|exact Hl].
  - cbn [script].
    destruct (bind_calls (act a) (fun _ => script l) w) as [Hc Ha].
    rewrite Hc, Ha.
    destruct (act_balance a w Hl) as [P1 Hl1]. cbv zeta in P1, Hl1.
    destruct (IH (after (act a w)) Hl1) as [P2 Hl2].
    split; [|exact Hl2].
    rewrite created_app, destroyed_app.
    rewrite app_assoc, P1, <- !app_assoc.
    apply Permutation_app_head. exact P2.
Qed.

Lemma script_app (l1 l2 : list HostAction) (w : World) :
  calls (script (l1 ++ l2) w)
  = calls (script l1 w) ++ calls (script l2 (after (script l1 w))) /\
  after (script (l1 ++ l2) w) = after (script l2 (after (script l1 w))).
Proof.
  revert w. induction l1 as [|a l1 IH]; intros w.
  - cbn. split; reflexivity.
  - cbn [app script].
    destruct (bind_calls (act a) (fun _ => script (l1 ++ l2)) w) as [Hc Ha].
    destruct (bind_calls (act a) (fun _ => script l1) w) as [Hc1 Ha1].
    destruct (IH (after (act a w))) as [IHc IHa].
    rewrite Hc, Ha, Hc1, Ha1, IHc, IHa, app_assoc. split; reflexivity.
Qed.

(** X19.  Nothing leaks over the life of an instance.  Whatever the
    host does, in whatever order -- steps, scene renders, camera moves,
    teardowns, resizes of the canvas -- on an instance whose buffers
    hang together, the objects held at the start together with the
    objects created are exactly the objects destroyed together with the
    objects held at the end, each as often.  So when the instance
    starts with nothing, as the constructor leaves it, and the host ends
    with a teardown, every object ever created has been destroyed, once
    per creation, and every object destroyed was created by the
    instance. *)
Theorem resources_conserved (l : list HostAction) (w : World) :
  linked (this w) ->
  let r := script l w in
  let life := script (l ++ [DoDestroy]) w in
  Permutation (held (this w) ++ created (calls r))
    (destroyed (calls r) ++ held (this (after r))) /\
  linked (this (after r)) /\
  (held (this w) = [] ->
   Permutation (created (calls life)) (destroyed (calls life)) /\
   held (this (after life)) = []).
Proof.
  intros Hl. cbv zeta.
  destruct (script_balance l w Hl) as [P Hl'].
  split; [exact P|]. split; [exact Hl'|].
  intros Hempty.
  destruct (script_balance (l ++ [DoDestroy]) w Hl) as [P' _].
  destruct (script_app l [DoDestroy] w) as [_ Ha].
  assert (Hend : held (this (after (script (l ++ [DoDestroy]) w))) = []).
  { rewrite Ha. cbn [script].
    destruct (then_ret (act DoDestroy) (after (script l w))) as [_ Ha'].
    rewrite Ha'. cbn [act]. rewrite destroy_run. reflexivity. }
  rewrite Hempty, Hend, app_nil_r in P'. cbn [app] in P'.
  split; [exact P'|exact Hend].
Qed.

Lemma resources_conserved_witness :
  let l := [DoRender; DoStep; DoResize 8 8; DoStep; DoMoved; DoRender; DoStep] in
  let life := script (l ++ [DoDestroy]) twoByTwoWorld in
  Permutation (created (calls life)) (destroyed (calls life)) /\
  held (this (after life)) = [] /\
  length (created (calls life)) = 8%nat.
Proof.
  cbv zeta.
  destruct (@resources_conserved
              [DoRender; DoStep; DoResize 8 8; DoStep; DoMoved; DoRender; DoStep]
              twoByTwoWorld) as (_ & _ & Hlife).
  - exact I.
  - destruct Hlife as [Hperm Hend]; [reflexivity|].
    split; [exact Hperm|]. split; [exact Hend|].
    vm_compute. reflexivity.
Defined.

(* ================================================================= *)
(** ** The quad, pixel for pixel *)

(** X20.  The quad copies pixel for pixel.  For every vertex position
    the texture coordinate the vertex shader passes on is the place the
    rasteriser gives the vertex in the target, as a fraction of the
    target's size; both are affine in the position, so every fragment of
    the quad reads the source texture at its own place.  The positions
    of the square [-1, 1] x [-1, 1] are exactly those whose coordinate
    falls inside the texture, and the clip-space depth and [w] are the
    constants 0.5 and 1. *)
Theorem quad_pixel_aligned (p : Vec2) :
  snd (vshader p) = windowCoord (fst (vshader p)) /\
  (inSquare p <-> inTexture (snd (vshader p))) /\
  v4z (fst (vshader p)) = 0.5 /\
  v4w (fst (vshader p)) = 1.0 /\
  (forall q t : Vec2,
     let mix a b := mkVec2 ((1 - vx t) * vx a + vx t * vx b)
                           ((1 - vy t) * vy a + vy t * vy b) in
     snd (vshader (mix p q)) = mix (snd (vshader p)) (snd (vshader q))).
Proof.
  unfold vshader, windowCoord, inSquare, inTexture.
  cbn [fst snd vx vy v4x v4y v4z v4w].
  split; [|split; [|split; [|split]]].
  - f_equal; lra.
  - split; intros [[? ?] [? ?]]; repeat split; lra.
  - reflexivity.
  - reflexivity.
  - intros q t. cbv zeta. cbn [vx vy]. f_equal; lra.
Qed.


(* ================================================================= *)
(** ** The size of the jitter *)

(** Every sample the constructor leaves lies in the square. *)
Lemma constructor_inSquare (random : nat -> R) (d : GraphicsDevice) (N : nat) :
  (forall i, 0 <= random i < 1) ->
  Forall inSquare (samples (constructor random d N)).
Proof.
  intros Hr. cbn [constructor samples].
  eapply Permutation_Forall; [apply Array_sort_Permutation|].
  now apply generateSamples_inSquare.
Qed.

Lemma Rabs_div_le (x : R) (n : nat) :
  (0 < n)%nat -> -1 <= x <= 1 -> Rabs (x / INR n) <= 1 / INR n.
Proof.
  intros Hn Hx.
  assert (Hk : 0 < / INR n) by (apply Rinv_0_lt_compat, lt_0_INR; exact Hn).
  unfold Rdiv. generalize dependent (/ INR n). intros k Hk.
  apply Rabs_le. nra.
Qed.

(** X21.  The jitter stays within the pixel.  On an instance whose
    samples are those the constructor made (each draw of the random
    source in [0, 1)), with an active sample, a sixteen-entry matrix and
    a device of non-zero size, the pre-render hook moves entry 8 of the
    projection matrix by at most [1 / width] and entry 9 by at most
    [1 / height]: in normalised device coordinates a pixel is
    [2 / width] by [2 / height], so the image shifts by at most half a
    pixel each way. *)
Theorem jitter_within_half_pixel
  (random : nat -> R) (d : GraphicsDevice) (N : nat) (w : World) :
  (forall i, 0 <= random i < 1) ->
  samples (this w) = samples (constructor random d N) ->
  (sampleId (this w) < length (samples (this w)))%nat ->
  length (projectionMatrix (camera w)) = 16%nat ->
  (0 < width (device w))%nat -> (0 < height (device w))%nat ->
  let pmat := projectionMatrix (camera w) in
  let pmat' := projectionMatrix (camera (after (onPreRender w))) in
  Rabs (data_get 8 pmat' - data_get 8 pmat) <= 1 / INR (width (device w)) /\
  Rabs (data_get 9 pmat' - data_get 9 pmat) <= 1 / INR (height (device w)).
Proof.
  intros Hr Hss Hlt Hlen Hw Hh. cbv zeta.
  destruct (active_sample w Hlt) as [s Hs].
  assert (Hsq : inSquare s).
  { pose proof (@constructor_inSquare random d N Hr) as Hall.
    rewrite <- Hss, Forall_forall in Hall.
    apply Hall. eapply nth_error_In. exact Hs. }
  destruct Hsq as [Hx Hy].
  rewrite (onPreRender_run w Hs). cbn [after camera projectionMatrix].
  split.
  - rewrite data_get_set_other by lia.
    rewrite data_get_set_same by (rewrite Hlen; lia).
    replace (data_get 8 (projectionMatrix (camera w))
             + vx s / INR (width (device w))
             - data_get 8 (projectionMatrix (camera w)))
      with (vx s / INR (width (device w))) by lra.
    now apply Rabs_div_le.
  - rewrite data_get_set_same by (rewrite data_set_length, Hlen; lia).
    rewrite data_get_set_other by lia.
    replace (data_get 9 (projectionMatrix (camera w))
             + vy s / INR (height (device w))
             - data_get 9 (projectionMatrix (camera w)))
      with (vy s / INR (height (device w))) by lra.
    now apply Rabs_div_le.
Qed.

Lemma jitter_within_half_pixel_witness :
  let w := twoByTwoWorld in
  let pmat := projectionMatrix (camera w) in
  let pmat' := projectionMatrix (camera (after (onPreRender w))) in
  Rabs (data_get 8 pmat' - data_get 8 pmat) <= 1 / INR (width (device w)) /\
  Rabs (data_get 9 pmat' - data_get 9 pmat) <= 1 / INR (height (device w)).
Proof.
  apply (@jitter_within_half_pixel (fun _ => 1/2) (exampleDevice 4 4) 2 twoByTwoWorld).
  - intros _. lra.
  - rewrite constructor_twoByTwo. reflexivity.
  - cbn. lia.
  - reflexivity.
  - cbn. lia.
  - cbn. lia.
Defined.

